(** * Reolink camera video downloader: a shallow embedding of [main.py]

    The script is sequential orchestration of calls into the camera
    library and the filesystem.  The embedding keeps that shape: a state
    and exception monad over an explicit log of the library calls the
    script issues, each with the reply it got.  The camera and the disk
    faults are oracles that see the whole history, so that any
    deterministic behaviour of the outside world can be plugged in. *)

From Stdlib Require Import ZArith Ascii String List Lia.
From Stdlib.Strings Require Import Byte.
From stdpp Require Import gmap strings list pretty.
Import ListNotations.

Local Open Scope string_scope.
Local Open Scope Z_scope.
Local Open Scope list_scope.

(** ** Strings, as Python's [str] methods use them *)

Module PyStr.

(** [s.endswith(suffix)] *)
Definition endswith (s suffix : string) : bool :=
  (String.length suffix <=? String.length s)%nat
  && String.eqb
       (substring (String.length s - String.length suffix)
                  (String.length suffix) s)
       suffix.

(** [s[:-n]] for a positive [n]: everything but the last [n] characters,
    the empty string when [s] is shorter than [n]. *)
Definition drop_last (n : nat) (s : string) : string :=
  substring 0 (String.length s - n) s.

(** [s.split(sep)] for a one-character separator. *)
Fixpoint split (sep : ascii) (s : string) : list string :=
  match s with
  | EmptyString => [EmptyString]
  | String c s' =>
      if Ascii.eqb c sep then EmptyString :: split sep s'
      else match split sep s' with
           | [] => [String c EmptyString]
           | w :: ws => String c w :: ws
           end
  end.

(** [sep.join(parts)] *)
Fixpoint join (sep : string) (parts : list string) : string :=
  match parts with
  | [] => ""
  | [w] => w
  | w :: ws => w +:+ sep +:+ join sep ws
  end.

(** [str(n)] for an integer. *)
Definition of_int (n : Z) : string := pretty n.

(** [f"{n:0{w}d}"] for a non-negative integer: decimal digits, padded on
    the left with zeros up to width [w]. *)
Fixpoint zeros (k : nat) : string :=
  match k with
  | O => ""
  | S k' => String "0" (zeros k')
  end.

Definition zero_pad (w : nat) (n : Z) : string :=
  let d := pretty n in
  zeros (w - String.length d) +:+ d.

End PyStr.

(** ** [pathlib.Path] (POSIX flavour)

    A path is the list of its parts, as [PurePath.parts] gives them: the
    root ["/"] first for an absolute path, then the components, with empty
    and ["."] components dropped by the constructor. *)

Definition path := list string.

Module PyPath.

Definition keep_component (w : string) : bool :=
  negb (String.eqb w "") && negb (String.eqb w ".").

(** The components of [Path(s)] after the root. *)
Definition tail_of (s : string) : list string :=
  List.filter keep_component (PyStr.split "/" s).

(** [Path(s)] *)
Definition of_string (s : string) : path :=
  match s with
  | String "/" _ => "/" :: tail_of s
  | _ => tail_of s
  end.

(** [Path(s).name]: the final component, empty when there is none. *)
Definition name (s : string) : string := List.last (tail_of s) "".

(** [p / child] for a [child] that is one plain component. *)
Definition child (p : path) (c : string) : path := p ++ [c].

(** [str(p)] *)
Definition to_string (p : path) : string :=
  match p with
  | [] => "."
  | "/" :: rest => "/" +:+ PyStr.join "/" rest
  | _ => PyStr.join "/" p
  end.

End PyPath.

(** ** [datetime.datetime] (naive, whole seconds) *)

Record datetime := DateTime {
  dt_year : Z; dt_month : Z; dt_day : Z;
  dt_hour : Z; dt_minute : Z; dt_second : Z
}.

Module PyDate.

Definition is_leap (y : Z) : bool :=
  (y mod 4 =? 0) && (negb (y mod 100 =? 0) || (y mod 400 =? 0)).

Definition days_in_month (y m : Z) : Z :=
  if m =? 2 then (if is_leap y then 29 else 28)
  else if (m =? 4) || (m =? 6) || (m =? 9) || (m =? 11) then 30
  else 31.

(** Python compares two naive datetimes field by field, the most
    significant first. *)
Definition cmp (a b : datetime) : comparison :=
  match dt_year a ?= dt_year b with
  | Eq =>
    match dt_month a ?= dt_month b with
    | Eq =>
      match dt_day a ?= dt_day b with
      | Eq =>
        match dt_hour a ?= dt_hour b with
        | Eq =>
          match dt_minute a ?= dt_minute b with
          | Eq => dt_second a ?= dt_second b
          | c => c
          end
        | c => c
        end
      | c => c
      end
    | c => c
    end
  | c => c
  end.

(** [a < b], [a > b], [a <= b], [a >= b] *)
Definition ltb (a b : datetime) : bool :=
  match cmp a b with Lt => true | _ => false end.
Definition gtb (a b : datetime) : bool := ltb b a.
Definition leb (a b : datetime) : bool := negb (ltb b a).
Definition geb (a b : datetime) : bool := negb (ltb a b).

(** [max(a, b)] and [min(a, b)]: Python keeps the first argument unless
    the second is strictly greater (resp. smaller). *)
Definition max (a b : datetime) : datetime := if gtb b a then b else a.
Definition min (a b : datetime) : datetime := if ltb b a then b else a.

(** [strftime] for the directives the script uses; [%Y] as Python
    prints the years from 1000 on, in four digits. *)
Fixpoint strftime (fmt : string) (d : datetime) : string :=
  match fmt with
  | EmptyString => ""
  | String "%" (String c rest) =>
      (if Ascii.eqb c "Y" then PyStr.zero_pad 4 (dt_year d)
       else if Ascii.eqb c "m" then PyStr.zero_pad 2 (dt_month d)
       else if Ascii.eqb c "d" then PyStr.zero_pad 2 (dt_day d)
       else if Ascii.eqb c "H" then PyStr.zero_pad 2 (dt_hour d)
       else if Ascii.eqb c "M" then PyStr.zero_pad 2 (dt_minute d)
       else if Ascii.eqb c "S" then PyStr.zero_pad 2 (dt_second d)
       else String "%" (String c ""))
      +:+ strftime rest d
  | String c rest => String c (strftime rest d)
  end.

(** [str(d)] *)
Definition to_string (d : datetime) : string :=
  strftime "%Y-%m-%d %H:%M:%S" d.

End PyDate.

(** ** Exceptions

    [ValueError], [ReolinkError] and [OSError] are subclasses of
    [Exception]; [KeyboardInterrupt] is not, so [except Exception] lets it
    through. *)

Inductive exn :=
| ValueError (msg : string)
| ReolinkError (msg : string)
| OSError (msg : string)
| KeyboardInterrupt.

Definition is_Exception (e : exn) : bool :=
  match e with
  | KeyboardInterrupt => false
  | _ => true
  end.

(** [str(e)] *)
Definition exn_str (e : exn) : string :=
  match e with
  | ValueError m | ReolinkError m | OSError m => m
  | KeyboardInterrupt => ""
  end.

(** [datetime(year, month, day, hour, minute, second)]: the constructor
    checks its fields and raises [ValueError]. *)
Definition datetime_new (y m d hh mm ss : Z) : exn + datetime :=
  if negb ((1 <=? y) && (y <=? 9999)) then
    inl (ValueError ("year " +:+ PyStr.of_int y +:+ " is out of range"))
  else if negb ((1 <=? m) && (m <=? 12)) then
    inl (ValueError "month must be in 1..12")
  else if negb ((1 <=? d) && (d <=? PyDate.days_in_month y m)) then
    inl (ValueError "day is out of range for month")
  else if negb ((0 <=? hh) && (hh <=? 23)) then
    inl (ValueError "hour must be in 0..23")
  else if negb ((0 <=? mm) && (mm <=? 59)) then
    inl (ValueError "minute must be in 0..59")
  else if negb ((0 <=? ss) && (ss <=? 59)) then
    inl (ValueError "second must be in 0..59")
  else inr (DateTime y m d hh mm ss).

(** ** What the camera library hands back *)

Definition bytes := list byte.

(** The attributes of [Host] the script reads after [get_host_data]. *)
Record host_data := HostData {
  nvr_name : string;
  channels : list Z
}.

(** One entry of the status list: a month and its days with recordings. *)
Record vod_status := VodStatus {
  vs_year : Z;
  vs_month : Z;
  vs_days : list Z
}.

(** One recording; [start_time] may be missing. *)
Record vod_file := VodFile {
  file_name : string;
  start_time : option datetime
}.

(** ** The calls the script issues, and the log of them *)

Inductive call :=
| Mkdir (p : path) (parents exist_ok : bool)
| HostNew (ip username password : string)
| GetHostData
| RequestVodFiles (channel : Z) (start end_ : datetime) (status_only : bool)
| DownloadVod (filename : string) (channel : Z)
| Open (p : path)
| StreamRead (n : Z)
| Write (p : path) (data : bytes)
| CloseFile (p : path)
| VodClose
| Logout.

Inductive reply :=
| RNone
| RHost (h : host_data)
| RVod (statuses : list vod_status) (files : list vod_file)
| RBytes (chunk : bytes).

(** A call that returned, with what it returned, or a call that raised. *)
Inductive event :=
| EvOk (c : call) (r : reply)
| EvErr (c : call) (e : exn).

Definition ev_call (ev : event) : call :=
  match ev with EvOk c _ | EvErr c _ => c end.

Definition ev_failed (ev : event) : bool :=
  match ev with EvOk _ _ => false | EvErr _ _ => true end.

(** ** The filesystem

    Directories and regular files, by path.  The current directory [[]]
    and the root [["/"]] always exist.  [pathlib] and [open] belong to
    Python's standard library: the operations below follow their
    documentation, and [disk_fault] of the world covers the errors the
    operating system may add (a full disk, a missing permission).

    A path is a key as it is spelled, part by part: the disk has no
    links, and [..] is not resolved.  So what is said of a path is said
    of that spelling; two spellings are known to be two files only when
    both are plain (no [..]) and both relative or both absolute, and the
    statements that tell files apart ask for that.

    [fs_files] holds, for each file, the bytes that [write] calls which
    returned have handed to the file object, since the file was last
    opened.  The file object buffers: these bytes are what the file
    holds on the disk once its [close()] has returned, and the
    statements about file contents are made of files closed that way.
    When a [write] or the [close()] raises, a part of them may never
    reach the disk. *)

Record filesystem := FS {
  fs_dirs : gset path;
  fs_files : gmap path bytes
}.

Module Disk.

Definition is_dir (fs : filesystem) (p : path) : bool :=
  bool_decide (p = []) || bool_decide (p = ["/"])
  || bool_decide (p ∈ fs_dirs fs).

Definition is_file (fs : filesystem) (p : path) : bool :=
  bool_decide (is_Some (fs_files fs !! p)).

Definition add_dir (p : path) (fs : filesystem) : filesystem :=
  FS ({[ p ]} ∪ fs_dirs fs) (fs_files fs).

(** [Path.mkdir(parents=True, exist_ok=True)]: every missing directory
    on the way is created; a directory that is already there is fine; a
    regular file in the way is an error. *)
Fixpoint mkdir_walk (fs : filesystem) (done : path) (todo : list string)
  : exn + filesystem :=
  match todo with
  | [] => inr fs
  | c :: rest =>
      let p := done ++ [c] in
      if is_dir fs p then mkdir_walk fs p rest
      else if is_file fs p then
        inl (OSError ("File exists or not a directory: "
                      +:+ PyPath.to_string p))
      else mkdir_walk (add_dir p fs) p rest
  end.

(** [Path.mkdir(parents=False, exist_ok=...)] *)
Definition mkdir_single (exist_ok : bool) (fs : filesystem) (p : path)
  : exn + filesystem :=
  if is_dir fs p then
    if exist_ok then inr fs
    else inl (OSError ("File exists: " +:+ PyPath.to_string p))
  else if is_file fs p then
    inl (OSError ("File exists: " +:+ PyPath.to_string p))
  else if is_dir fs (removelast p) then inr (add_dir p fs)
  else inl (OSError ("No such file or directory: "
                     +:+ PyPath.to_string p)).

Definition mkdir (parents exist_ok : bool) (fs : filesystem) (p : path)
  : exn + filesystem :=
  if parents then
    if is_dir fs p then
      if exist_ok then inr fs
      else inl (OSError ("File exists: " +:+ PyPath.to_string p))
    else mkdir_walk fs [] p
  else mkdir_single exist_ok fs p.

(** [open(p, "wb")]: the file is created or truncated. *)
Definition open_wb (fs : filesystem) (p : path) : exn + filesystem :=
  if is_dir fs p then
    inl (OSError ("Is a directory: " +:+ PyPath.to_string p))
  else if is_dir fs (removelast p) then
    inr (FS (fs_dirs fs) (<[ p := [] ]> (fs_files fs)))
  else
    inl (OSError ("No such file or directory: "
                  +:+ PyPath.to_string p)).

(** [f.write(data)] on the file opened at [p]: the file object takes
    the bytes; they are on the disk for sure only after a [close()]
    that returned. *)
Definition write (fs : filesystem) (p : path) (data : bytes)
  : filesystem :=
  FS (fs_dirs fs)
     (<[ p := default [] (fs_files fs !! p) ++ data ]> (fs_files fs)).

(** What a call that succeeds does to the filesystem, or the error the
    filesystem itself answers with. *)
Definition effect (c : call) (fs : filesystem) : exn + filesystem :=
  match c with
  | Mkdir p parents exist_ok => mkdir parents exist_ok fs p
  | Open p => open_wb fs p
  | Write p data => inr (write fs p data)
  | _ => inr fs
  end.

(** The filesystem after a logged event; [None] when the log says a
    call succeeded that this filesystem refuses. *)
Definition apply (fs : filesystem) (ev : event) : option filesystem :=
  match ev with
  | EvOk c _ =>
      match effect c fs with inr fs' => Some fs' | inl _ => None end
  | EvErr _ _ => Some fs
  end.

Fixpoint replay (fs : filesystem) (evs : list event)
  : option filesystem :=
  match evs with
  | [] => Some fs
  | ev :: evs' =>
      match apply fs ev with
      | Some fs' => replay fs' evs'
      | None => None
      end
  end.

End Disk.

(** ** The outside world

    Every answer of the camera library may depend on everything that
    happened before, so each oracle gets the log so far.  [disk_fault] is
    what the operating system may add to the filesystem's own errors
    (permissions, a full disk, an interrupt). *)

Record world := World {
  cam_get_host_data : list event -> exn + host_data;
  cam_request_vod_files :
    list event -> Z -> datetime -> datetime -> bool ->
    exn + (list vod_status * list vod_file);
  cam_download_vod : list event -> string -> Z -> exn + unit;
  cam_stream_read : list event -> Z -> exn + bytes;
  cam_vod_close : list event -> exn + unit;
  cam_logout : list event -> exn + unit;
  disk_fault : list event -> call -> option exn
}.

(** ** Program state: the log, the disk, and the two output streams *)

Record state := State {
  st_trace : list event;
  st_fs : filesystem;
  st_out : list string;
  st_err : list string
}.

Definition boot (fs : filesystem) : state := State [] fs [] [].

Definition log (ev : event) (s : state) : state :=
  State (st_trace s ++ [ev]) (st_fs s) (st_out s) (st_err s).

Definition set_fs (fs : filesystem) (s : state) : state :=
  State (st_trace s) fs (st_out s) (st_err s).

(** ** The monad

    A computation returns, raises, or is still running when the fuel of
    the one unbounded loop is used up ([Pending]). *)

Inductive outcome (A : Type) :=
| Returned (a : A)
| Raised (e : exn)
| Pending.
Arguments Returned {A} a.
Arguments Raised {A} e.
Arguments Pending {A}.

Definition M (A : Type) : Type := state -> state * outcome A.

Definition ret {A} (a : A) : M A := fun s => (s, Returned a).

Definition raise {A} (e : exn) : M A := fun s => (s, Raised e).

Definition pending {A} : M A := fun s => (s, Pending).

Definition bind {A B} (m : M A) (k : A -> M B) : M B :=
  fun s =>
    match m s with
    | (s1, Returned a) => k a s1
    | (s1, Raised e) => (s1, Raised e)
    | (s1, Pending) => (s1, Pending)
    end.

Declare Scope py_scope.
Delimit Scope py_scope with py.
Notation "x <- m ;; k" := (bind m (fun x => k))
  (at level 100, m at next level, right associativity) : py_scope.
Notation "m ;; k" := (bind m (fun _ => k))
  (at level 100, right associativity) : py_scope.
Local Open Scope py_scope.

(** [try: body finally: cleanup].  The cleanup runs when the body returns
    or raises; an exception of the cleanup replaces the body's result. *)
Definition try_finally {A} (body : M A) (cleanup : M unit) : M A :=
  fun s =>
    match body s with
    | (s1, Pending) => (s1, Pending)
    | (s1, r) =>
        match cleanup s1 with
        | (s2, Returned _) => (s2, r)
        | (s2, Raised e) => (s2, Raised e)
        | (s2, Pending) => (s2, Pending)
        end
    end.

(** [try: body except Exception as e: handler(e)] *)
Definition try_except_Exception {A} (body : M A) (handler : exn -> M A)
  : M A :=
  fun s =>
    match body s with
    | (s1, Raised e) =>
        if is_Exception e then handler e s1 else (s1, Raised e)
    | sr => sr
    end.

(** [for x in xs: acc = body(acc, x)] *)
Fixpoint for_each {A B} (body : B -> A -> M B) (xs : list A) (acc : B)
  : M B :=
  match xs with
  | [] => ret acc
  | x :: xs' => acc' <- body acc x ;; for_each body xs' acc'
  end.

(** The result of a fallible pure computation. *)
Definition lift {A} (r : exn + A) : M A :=
  match r with
  | inl e => raise e
  | inr a => ret a
  end.

(** [print(msg)] and [print(msg, file=sys.stderr)] *)
Definition print (msg : string) : M unit :=
  fun s => (State (st_trace s) (st_fs s) (st_out s ++ [msg]) (st_err s),
            Returned tt).

Definition eprint (msg : string) : M unit :=
  fun s => (State (st_trace s) (st_fs s) (st_out s) (st_err s ++ [msg]),
            Returned tt).

Definition nl : string := String (ascii_of_nat 10) "".

Section Script.

Variable w : world.

(** A call into the camera library: ask the oracle, log the call. *)
Definition call_lib {A} (c : call) (wrap : A -> reply)
    (ask : list event -> exn + A) : M A :=
  fun s =>
    match ask (st_trace s) with
    | inl e => (log (EvErr c e) s, Raised e)
    | inr a => (log (EvOk c (wrap a)) s, Returned a)
    end.

(** A filesystem call: it fails when the system or the filesystem says
    so, and changes the disk otherwise. *)
Definition call_disk (c : call) : M unit :=
  fun s =>
    match disk_fault w (st_trace s) c with
    | Some e => (log (EvErr c e) s, Raised e)
    | None =>
        match Disk.effect c (st_fs s) with
        | inl e => (log (EvErr c e) s, Raised e)
        | inr fs' => (log (EvOk c RNone) (set_fs fs' s), Returned tt)
        end
    end.

(** [Host(ip, username, password)] builds the client object and does no
    I/O. *)
Definition host_new (ip username password : string) : M unit :=
  fun s => (log (EvOk (HostNew ip username password) RNone) s,
            Returned tt).

Definition get_host_data : M host_data :=
  call_lib GetHostData RHost (cam_get_host_data w).

Definition request_vod_files (channel : Z) (start end_ : datetime)
    (status_only : bool) : M (list vod_status * list vod_file) :=
  call_lib (RequestVodFiles channel start end_ status_only)
           (fun r => RVod (fst r) (snd r))
           (fun h => cam_request_vod_files w h channel start end_
                                           status_only).

Definition download_vod (filename : string) (channel : Z) : M unit :=
  call_lib (DownloadVod filename channel) (fun _ => RNone)
           (fun h => cam_download_vod w h filename channel).

Definition stream_read (n : Z) : M bytes :=
  call_lib (StreamRead n) RBytes (fun h => cam_stream_read w h n).

Definition vod_close : M unit :=
  call_lib VodClose (fun _ => RNone) (cam_vod_close w).

Definition logout : M unit :=
  call_lib Logout (fun _ => RNone) (cam_logout w).

(** [with open(p, "wb") as f: body] *)
Definition with_open_wb {A} (p : path) (body : M A) : M A :=
  call_disk (Open p) ;;
  try_finally body (call_disk (CloseFile p)).

(** Lines 131-135: [while True: chunk = read(8192); if not chunk: break;
    f.write(chunk)]. *)
Fixpoint copy_stream (fuel : nat) (p : path) : M unit :=
  match fuel with
  | O => pending
  | S fuel' =>
      chunk <- stream_read 8192 ;;
      match chunk with
      | [] => ret tt
      | _ => call_disk (Write p chunk) ;; copy_stream fuel' p
      end
  end.

(** Lines 111-117. *)
Definition clean_name (idx : Z) (f : vod_file) : string :=
  let clean_file_name :=
    if String.eqb (file_name f) "" then "recording_" +:+ PyStr.of_int idx
    else PyPath.name (file_name f) in
  if PyStr.endswith clean_file_name ".mp4"
  then PyStr.drop_last 4 clean_file_name
  else clean_file_name.

Definition timestamp_str (idx : Z) (f : vod_file) : string :=
  match start_time f with
  | Some t => PyDate.strftime "%Y%m%d_%H%M%S" t
  | None => "recording_" +:+ PyStr.of_int idx
  end.

Definition output_filename (idx : Z) (f : vod_file) : string :=
  timestamp_str idx f +:+ "_" +:+ clean_name idx f +:+ ".mp4".

Section Run.

Variables (fuel : nat) (ip username password : string)
          (start_time_ end_time : datetime) (output_dir : path).

(** Lines 105-140: the body of the download loop.  The accumulator
    is [idx], which [enumerate(all_vod_files, 1)] counts up. *)
Definition download_one (channel : Z) (total : nat) (idx : Z)
    (f : vod_file) : M Z :=
  let output_path := PyPath.child output_dir (output_filename idx f) in
  print ("Downloading [" +:+ PyStr.of_int idx +:+ "/"
         +:+ PyStr.of_int (Z.of_nat total) +:+ "]: "
         +:+ output_filename idx f +:+ "...") ;;
  download_vod (file_name f) channel ;;
  try_finally
    (with_open_wb output_path (copy_stream fuel output_path) ;;
     print ("  Saved to: " +:+ PyPath.to_string output_path))
    vod_close ;;
  ret (idx + 1).

(** Lines 77-95: the body of the inner loop over the days of one
    status entry.  The accumulator is [all_vod_files]. *)
Definition check_day (channel : Z) (year month : Z)
    (all_vod_files : list vod_file) (day : Z) : M (list vod_file) :=
  day_start <- lift (datetime_new year month day 0 0 0) ;;
  day_end <- lift (datetime_new year month day 23 59 59) ;;
  if PyDate.gtb day_start end_time || PyDate.ltb day_end start_time_
  then ret all_vod_files
  else
    print ("Checking " +:+ PyStr.of_int year +:+ "-"
           +:+ PyStr.zero_pad 2 month +:+ "-"
           +:+ PyStr.zero_pad 2 day +:+ "...") ;;
    r <- request_vod_files channel
           (PyDate.max day_start start_time_)
           (PyDate.min day_end end_time) false ;;
    match snd r with
    | [] => ret all_vod_files
    | day_files =>
        print ("  Found "
               +:+ PyStr.of_int (Z.of_nat (List.length day_files))
               +:+ " file(s)") ;;
        ret (all_vod_files ++ day_files)
    end.

(** Lines 73-95. *)
Definition check_status (channel : Z) (all_vod_files : list vod_file)
    (status : vod_status) : M (list vod_file) :=
  for_each (check_day channel (vs_year status) (vs_month status))
           (vs_days status) all_vod_files.

Definition collect_vod_files (channel : Z)
    (status_list : list vod_status) : M (list vod_file) :=
  for_each (check_status channel) status_list [].

(** Lines 44-142: the body of the outer [try]. *)
Definition session : M unit :=
  h <- get_host_data ;;
  print ("Successfully connected to camera: " +:+ nvr_name h) ;;
  match channels h with
  | [] => print "Error: No channels found on camera"
  | channel :: _ =>
      print ("Using channel: " +:+ PyStr.of_int channel) ;;
      print ("Searching for recordings from "
             +:+ PyDate.to_string start_time_ +:+ " to "
             +:+ PyDate.to_string end_time +:+ "...") ;;
      r <- request_vod_files channel start_time_ end_time true ;;
      match fst r with
      | [] => print "No recordings found in the specified date range"
      | status_list =>
          all_vod_files <- collect_vod_files channel status_list ;;
          match all_vod_files with
          | [] =>
              print "No recordings found in the specified date range"
          | _ =>
              let total := List.length all_vod_files in
              print (nl +:+ "Total found: "
                     +:+ PyStr.of_int (Z.of_nat total)
                     +:+ " recording(s)") ;;
              for_each (download_one channel total) all_vod_files 1 ;;
              print (nl +:+ "Successfully downloaded "
                     +:+ PyStr.of_int (Z.of_nat total)
                     +:+ " video(s) to "
                     +:+ PyPath.to_string output_dir)
          end
      end
  end.

(** Lines 17-149. *)
Definition download_videos : M unit :=
  call_disk (Mkdir output_dir true true) ;;
  print ("Connecting to camera at " +:+ ip +:+ "...") ;;
  host_new ip username password ;;
  try_finally
    (try_except_Exception session
       (fun e => eprint ("Error: " +:+ exn_str e) ;; raise e))
    logout.

End Run.

End Script.

(** ** Command line: [parse_datetime] and [main] *)

(** The namespace [parser.parse_args()] returns. *)
Record args := Args {
  arg_ip : string;
  arg_username : string;
  arg_password : string;
  arg_start_time : string;
  arg_end_time : string;
  arg_output : string
}.

(** How the process ends: [sys.exit(code)] or falling off the end of
    [main] (code 0); [Running] when the download loop has not finished
    within the fuel. *)
Inductive exit :=
| Exit (code : Z)
| Running.

Section CommandLine.

(** [datetime.strptime(date_string, fmt)], [None] when it raises
    [ValueError].  It belongs to Python's standard library; the script
    only relies on it being a function of its two arguments. *)
Variable strptime : string -> string -> option datetime.

Definition formats : list string :=
  [ "%Y-%m-%d %H:%M:%S";
    "%Y-%m-%d %H:%M";
    "%Y-%m-%d";
    "%Y/%m/%d %H:%M:%S";
    "%Y/%m/%d %H:%M";
    "%Y/%m/%d" ].

(** Lines 166-170: the first format that parses wins. *)
Fixpoint try_formats (date_string : string) (fmts : list string)
  : option datetime :=
  match fmts with
  | [] => None
  | fmt :: rest =>
      match strptime date_string fmt with
      | Some d => Some d
      | None => try_formats date_string rest
      end
  end.

Definition unparsable (date_string : string) : exn :=
  ValueError
    ("Unable to parse date '" +:+ date_string +:+ "'. "
     +:+ "Supported formats: YYYY-MM-DD [HH:MM[:SS]] or "
     +:+ "YYYY/MM/DD [HH:MM[:SS]]").

(** Lines 152-175. *)
Definition parse_datetime (date_string : string) : exn + datetime :=
  match try_formats date_string formats with
  | Some d => inr d
  | None => inl (unparsable date_string)
  end.

Variable w : world.
Variable fuel : nat.

(** Lines 217-249, after [parse_args]. *)
Definition main (a : args) : state -> state * exit :=
  fun s =>
    match parse_datetime (arg_start_time a),
          parse_datetime (arg_end_time a) with
    | inl e, _ | inr _, inl e =>
        (fst (eprint ("Error: " +:+ exn_str e) s), Exit 1)
    | inr start_time_, inr end_time =>
        if PyDate.geb start_time_ end_time then
          (fst (eprint "Error: start-time must be before end-time" s),
           Exit 1)
        else
          let output_dir := PyPath.of_string (arg_output a) in
          match download_videos w fuel (arg_ip a) (arg_username a)
                  (arg_password a) start_time_ end_time output_dir s with
          | (s', Returned _) => (s', Exit 0)
          | (s', Raised KeyboardInterrupt) =>
              (fst (print (nl +:+ "Download cancelled by user") s'),
               Exit 1)
          | (s', Raised e) =>
              (fst (eprint ("Fatal error: " +:+ exn_str e) s'), Exit 1)
          | (s', Pending) => (s', Running)
          end
    end.

End CommandLine.

(** * Runs and their logs *)

(** [run m s evs r s']: from [s], [m] ends in [s'] with outcome [r],
    having logged exactly [evs]; these events replayed on the disk of [s]
    give the disk of [s']. *)
Definition run {A} (m : M A) (s : state) (evs : list event)
    (r : outcome A) (s' : state) : Prop :=
  m s = (s', r)
  /\ st_trace s' = st_trace s ++ evs
  /\ Disk.replay (st_fs s) evs = Some (st_fs s').

(** Calls into the camera library leave the disk alone. *)
Definition camera_call (c : call) : bool :=
  match c with
  | Mkdir _ _ _ | Open _ | Write _ _ | CloseFile _ => false
  | _ => true
  end.

(** A cleanup call: it logs itself once and returns nothing. *)
Definition cleanup_call (m : M unit) (c : call) : Prop :=
  forall s,
    (exists e s', run m s [EvErr c e] (Raised e) s')
    \/ (exists s', run m s [EvOk c RNone] (Returned tt) s').

(** * The shape of a run

    Big-step rules that describe, for each block of the script, the
    events it may log and the outcome that goes with them.  They are
    stated on logs alone; the soundness lemmas below tie them to the
    executable script. *)

Definition omap {A B} (f : A -> B) (r : outcome A) : outcome B :=
  match r with
  | Returned a => Returned (f a)
  | Raised e => Raised e
  | Pending => Pending
  end.

Definition returned {A} (r : outcome A) : bool :=
  match r with Returned _ => true | _ => false end.

(** A block followed by the cleanup call [c] of its [finally]. *)
Inductive finally_run {A} (c : call)
  : list event -> outcome A -> list event -> outcome A -> Prop :=
| fin_pending evs :
    finally_run c evs Pending evs Pending
| fin_ok evs r :
    r <> Pending -> finally_run c evs r (evs ++ [EvOk c RNone]) r
| fin_err evs r e :
    r <> Pending -> finally_run c evs r (evs ++ [EvErr c e]) (Raised e).

(** A [for] loop that threads an accumulator: it stops at the first
    iteration that does not return. *)
Inductive loop_run {A B}
    (body : B -> A -> list event -> outcome B -> Prop)
  : list A -> B -> list event -> outcome B -> Prop :=
| loop_done acc :
    loop_run body [] acc [] (Returned acc)
| loop_stop x xs acc evs r :
    body acc x evs r -> returned r = false ->
    loop_run body (x :: xs) acc evs r
| loop_next x xs acc evs acc' evs' r :
    body acc x evs (Returned acc') ->
    loop_run body xs acc' evs' r ->
    loop_run body (x :: xs) acc (evs ++ evs') r.

(** Lines 131-135. *)
Inductive copy_run (p : path) : list event -> outcome unit -> Prop :=
| copy_pending :
    copy_run p [] Pending
| copy_eof :
    copy_run p [EvOk (StreamRead 8192) (RBytes [])] (Returned tt)
| copy_read_err e :
    copy_run p [EvErr (StreamRead 8192) e] (Raised e)
| copy_write_err chunk e :
    chunk <> [] ->
    copy_run p [EvOk (StreamRead 8192) (RBytes chunk);
                EvErr (Write p chunk) e] (Raised e)
| copy_more chunk evs r :
    chunk <> [] ->
    copy_run p evs r ->
    copy_run p (EvOk (StreamRead 8192) (RBytes chunk)
                :: EvOk (Write p chunk) RNone :: evs) r.

(** Lines 130-137. *)
Inductive save_run (p : path) : list event -> outcome unit -> Prop :=
| save_open_err e :
    save_run p [EvErr (Open p) e] (Raised e)
| save_opened evs r evs' r' :
    copy_run p evs r ->
    finally_run (CloseFile p) evs r evs' r' ->
    save_run p (EvOk (Open p) RNone :: evs') r'.

Definition day_start (y m d : Z) : datetime := DateTime y m d 0 0 0.
Definition day_end (y m d : Z) : datetime := DateTime y m d 23 59 59.

(** A date the [datetime] constructor accepts. *)
Definition valid_date (y m d : Z) : bool :=
  (1 <=? y) && (y <=? 9999) && (1 <=? m) && (m <=? 12)
  && (1 <=? d) && (d <=? PyDate.days_in_month y m).

Section Shape.

Variables (start_time_ end_time : datetime) (output_dir : path).

(** Line 82, negated: the day is processed. *)
Definition in_range (y m d : Z) : bool :=
  negb (PyDate.gtb (day_start y m d) end_time
        || PyDate.ltb (day_end y m d) start_time_).

(** The per-day query of lines 86-91. *)
Definition day_query (channel y m d : Z) : call :=
  RequestVodFiles channel
    (PyDate.max (day_start y m d) start_time_)
    (PyDate.min (day_end y m d) end_time) false.

(** Lines 77-95. *)
Inductive day_run (channel y m : Z) (acc : list vod_file) (d : Z)
  : list event -> outcome (list vod_file) -> Prop :=
| day_invalid e :
    valid_date y m d = false ->
    day_run channel y m acc d [] (Raised (ValueError e))
| day_skipped :
    valid_date y m d = true -> in_range y m d = false ->
    day_run channel y m acc d [] (Returned acc)
| day_query_err e :
    valid_date y m d = true -> in_range y m d = true ->
    day_run channel y m acc d
            [EvErr (day_query channel y m d) e] (Raised e)
| day_queried sts files :
    valid_date y m d = true -> in_range y m d = true ->
    day_run channel y m acc d
            [EvOk (day_query channel y m d) (RVod sts files)]
            (Returned (acc ++ files)).

Definition status_run (channel : Z) (acc : list vod_file)
    (st : vod_status) : list event -> outcome (list vod_file) -> Prop :=
  loop_run (day_run channel (vs_year st) (vs_month st)) (vs_days st) acc.

Definition collect_run (channel : Z) (sts : list vod_status)
  : list event -> outcome (list vod_file) -> Prop :=
  loop_run (status_run channel) sts [].

Definition output_path (idx : Z) (f : vod_file) : path :=
  PyPath.child output_dir (output_filename idx f).

(** Lines 105-140. *)
Inductive file_run (channel : Z) (idx : Z) (f : vod_file)
  : list event -> outcome Z -> Prop :=
| file_download_err e :
    file_run channel idx f
             [EvErr (DownloadVod (file_name f) channel) e] (Raised e)
| file_downloaded evs r evs' r' :
    save_run (output_path idx f) evs r ->
    finally_run VodClose evs r evs' r' ->
    file_run channel idx f
             (EvOk (DownloadVod (file_name f) channel) RNone :: evs')
             (omap (fun _ => idx + 1) r').

Definition download_run (channel : Z) (files : list vod_file)
  : list event -> outcome Z -> Prop :=
  loop_run (file_run channel) files 1.

Definition status_query (channel : Z) : call :=
  RequestVodFiles channel start_time_ end_time true.

(** Lines 44-142. *)
Inductive session_run : list event -> outcome unit -> Prop :=
| ses_connect_err e :
    session_run [EvErr GetHostData e] (Raised e)
| ses_no_channel h :
    channels h = [] ->
    session_run [EvOk GetHostData (RHost h)] (Returned tt)
| ses_status_err h ch e :
    head (channels h) = Some ch ->
    session_run [EvOk GetHostData (RHost h);
                 EvErr (status_query ch) e] (Raised e)
| ses_no_status h ch files :
    head (channels h) = Some ch ->
    session_run [EvOk GetHostData (RHost h);
                 EvOk (status_query ch) (RVod [] files)] (Returned tt)
| ses_collect_stop h ch sts files evs r :
    head (channels h) = Some ch -> sts <> [] ->
    collect_run ch sts evs r -> returned r = false ->
    session_run (EvOk GetHostData (RHost h)
                 :: EvOk (status_query ch) (RVod sts files) :: evs)
                (omap (fun _ => tt) r)
| ses_no_file h ch sts files evs :
    head (channels h) = Some ch -> sts <> [] ->
    collect_run ch sts evs (Returned []) ->
    session_run (EvOk GetHostData (RHost h)
                 :: EvOk (status_query ch) (RVod sts files) :: evs)
                (Returned tt)
| ses_download h ch sts files evs all evs' r :
    head (channels h) = Some ch -> sts <> [] ->
    collect_run ch sts evs (Returned all) -> all <> [] ->
    download_run ch all evs' r ->
    session_run (EvOk GetHostData (RHost h)
                 :: EvOk (status_query ch) (RVod sts files)
                 :: evs ++ evs')
                (omap (fun _ => tt) r).

(** Lines 17-149. *)
Inductive videos_run (ip username password : string)
  : list event -> outcome unit -> Prop :=
| vid_mkdir_err e :
    videos_run ip username password
               [EvErr (Mkdir output_dir true true) e] (Raised e)
| vid_session evs r evs' r' :
    session_run evs r ->
    finally_run Logout evs r evs' r' ->
    videos_run ip username password
               (EvOk (Mkdir output_dir true true) RNone
                :: EvOk (HostNew ip username password) RNone :: evs')
               r'.

End Shape.


(** * Notions the statements below are phrased in *)

(** [stem] is [s] with one trailing [suffix] removed if there is one. *)
Definition without_suffix (suffix s stem : string) : Prop :=
  s = stem +:+ suffix
  \/ ((forall p, s <> p +:+ suffix) /\ stem = s).

(** [ev] opens nothing but an output file named by [output_filename]. *)
Definition opens_output (output_dir : path) (ev : event) : Prop :=
  forall q, ev_call ev = Open q ->
            exists idx f, q = PyPath.child output_dir (output_filename idx f).

(** The log of a run of [download_videos] started on disk [fs0], and how
    the run ends. *)
Definition videos_log (w : world) (fuel : nat) (ip username password : string)
    (start_time_ end_time : datetime) (output_dir : path)
    (fs0 : filesystem) : list event :=
  st_trace (fst (download_videos w fuel ip username password start_time_
                                 end_time output_dir (boot fs0))).

Definition videos_disk (w : world) (fuel : nat) (ip username password : string)
    (start_time_ end_time : datetime) (output_dir : path)
    (fs0 : filesystem) : filesystem :=
  st_fs (fst (download_videos w fuel ip username password start_time_
                              end_time output_dir (boot fs0))).

Definition videos_outcome (w : world) (fuel : nat)
    (ip username password : string)
    (start_time_ end_time : datetime) (output_dir : path)
    (fs0 : filesystem) : outcome unit :=
  snd (download_videos w fuel ip username password start_time_
                       end_time output_dir (boot fs0)).

(** On a disk every directory sits in a directory: the parent of a
    directory of [fs] is a directory of [fs]. *)
Definition parents_exist (fs : filesystem) : Prop :=
  forall p, Disk.is_dir fs p = true -> Disk.is_dir fs (removelast p) = true.

(** The calls that talk to the camera. *)
Definition network_call (c : call) : bool :=
  match c with
  | GetHostData | RequestVodFiles _ _ _ _ | DownloadVod _ _
  | StreamRead _ | VodClose | Logout => true
  | _ => false
  end.

(** A per-day file-list query (line 86): [status_only=False]. *)
Definition is_day_query (c : call) : bool :=
  match c with
  | RequestVodFiles _ _ _ false => true
  | _ => false
  end.

(** The calls of the download loop (lines 123-140): the download itself,
    the reads from its stream, the writes to disk, and the two closes. *)
Definition is_transfer (c : call) : bool :=
  match c with
  | DownloadVod _ _ | Open _ | StreamRead _ | Write _ _ | CloseFile _
  | VodClose => true
  | _ => false
  end.

(** The calls that work on an open download: opening, writing and
    closing its output file, and reading its stream. *)
Definition uses_stream (c : call) : bool :=
  match c with
  | Open _ | StreamRead _ | Write _ _ | CloseFile _ => true
  | _ => false
  end.

(** Following the download streams through a log.  The state says
    whether a stream is open; [None] marks a log that breaks the
    discipline: a download started or a logout issued while a stream is
    open, or a read, a file operation or a [close()] with no stream open.
    A download that raised opened no stream. *)
Definition stream_step (st : option bool) (ev : event) : option bool :=
  match st with
  | None => None
  | Some open =>
      match ev_call ev with
      | DownloadVod _ _ =>
          if open then None else Some (negb (ev_failed ev))
      | Open _ | StreamRead _ | Write _ _ | CloseFile _ =>
          if open then Some true else None
      | VodClose => if open then Some false else None
      | Logout => if open then None else Some false
      | _ => Some open
      end
  end.

Definition streams_after (st : option bool) (evs : list event)
  : option bool :=
  fold_left stream_step evs st.

(** [a] is before [b]: the six fields compared lexicographically. *)
Definition lex_lt (a b : datetime) : Prop :=
  dt_year a < dt_year b
  \/ (dt_year a = dt_year b
      /\ (dt_month a < dt_month b
          \/ (dt_month a = dt_month b
              /\ (dt_day a < dt_day b
                  \/ (dt_day a = dt_day b
                      /\ (dt_hour a < dt_hour b
                          \/ (dt_hour a = dt_hour b
                              /\ (dt_minute a < dt_minute b
                                  \/ (dt_minute a = dt_minute b
                                      /\ dt_second a < dt_second b))))))))).

(** The per-day queries a status list calls for, in the order of the two
    nested loops: one for each listed day that is in range. *)
Definition planned_day (start_time_ end_time : datetime) (channel y m : Z)
    (d : Z) : list call :=
  if in_range start_time_ end_time y m d
  then [day_query start_time_ end_time channel y m d]
  else [].

Definition planned_status (start_time_ end_time : datetime) (channel : Z)
    (st : vod_status) : list call :=
  flat_map (planned_day start_time_ end_time channel
                        (vs_year st) (vs_month st))
           (vs_days st).

Definition planned_queries (start_time_ end_time : datetime) (channel : Z)
    (status_list : list vod_status) : list call :=
  flat_map (planned_status start_time_ end_time channel) status_list.

(** The per-day queries a log holds, in order. *)
Definition day_queries_of (log : list event) : list call :=
  List.filter is_day_query (map ev_call log).

(** The closed intervals [[a, b]] and [[c, d]] share a point. *)
Definition intersects (a b c d : datetime) : Prop :=
  exists t,
    PyDate.leb a t = true /\ PyDate.leb t b = true
    /\ PyDate.leb c t = true /\ PyDate.leb t d = true.

(** What the download loop logs for one recording when nothing raises:
    the download, the opening of the output file, one read and one write
    per chunk, the read that returns the empty chunk, and the two
    closes. *)
Definition chunk_events (p : path) (chunk : bytes) : list event :=
  [EvOk (StreamRead 8192) (RBytes chunk); EvOk (Write p chunk) RNone].

Definition file_events (p : path) (filename : string) (channel : Z)
    (chunks : list bytes) : list event :=
  EvOk (DownloadVod filename channel) RNone
  :: EvOk (Open p) RNone
  :: flat_map (chunk_events p) chunks
  ++ [EvOk (StreamRead 8192) (RBytes []);
      EvOk (CloseFile p) RNone;
      EvOk VodClose RNone].

(** The same for a list of recordings, numbered from [idx], each with the
    chunks its stream delivered. *)
Fixpoint downloads_log (output_dir : path) (channel : Z) (idx : Z)
    (files : list vod_file) (chunks : list (list bytes)) : list event :=
  match files, chunks with
  | f :: files', cs :: chunks' =>
      file_events (PyPath.child output_dir (output_filename idx f))
                  (file_name f) channel cs
      ++ downloads_log output_dir channel (idx + 1) files' chunks'
  | _, _ => []
  end.

(** [all_vod_files] as the log shows it: the files the per-day queries
    returned, in order. *)
Definition files_of (ev : event) : list vod_file :=
  match ev with
  | EvOk (RequestVodFiles _ _ _ false) (RVod _ files) => files
  | _ => []
  end.

Definition collected (log : list event) : list vod_file :=
  flat_map files_of log.

Definition is_download (c : call) : bool :=
  match c with
  | DownloadVod _ _ => true
  | _ => false
  end.

(** ** Failures *)

(** The three cleanup calls, in the order the nested [finally] blocks run
    them: closing the output file (leaving [with]), closing the download
    (line 140), logging out (line 149).  Every other call has rank 0. *)
Definition cleanup_rank (c : call) : nat :=
  match c with
  | CloseFile _ => 1
  | VodClose => 2
  | Logout => 3
  | _ => 0
  end.

Definition is_cleanup (c : call) : bool := (0 <? cleanup_rank c)%nat.

(** Calls in cleanup order after a call of rank [k]: their ranks increase
    strictly from [k].  So they are cleanup calls, each kind at most
    once, the file close before the close of the download before the
    logout, and all of a later kind than a cleanup call of rank [k]. *)
Fixpoint in_cleanup_order (k : nat) (evs : list event) : bool :=
  match evs with
  | [] => true
  | ev :: evs' =>
      (k <? cleanup_rank (ev_call ev))%nat
      && in_cleanup_order (cleanup_rank (ev_call ev)) evs'
  end.

(** The exception of the last call that raised. *)
Definition last_error (log : list event) : option exn :=
  fold_left (fun acc ev => match ev with
                           | EvErr _ e => Some e
                           | EvOk _ _ => acc
                           end) log None.

(** A log from its first failure on: the call that raised, then cleanup
    calls of strictly increasing rank, each of which may raise in turn.
    [failed_tail k t e]: [k] is the rank of the last call of [t] and [e]
    the exception of the last call of [t] that raised. *)
Inductive failed_tail : nat -> list event -> exn -> Prop :=
| ft_first c e :
    failed_tail (cleanup_rank c) [EvErr c e] e
| ft_cleanup_ok k t e c :
    failed_tail k t e -> (k < cleanup_rank c)%nat ->
    failed_tail (cleanup_rank c) (t ++ [EvOk c RNone]) e
| ft_cleanup_err k t e c e' :
    failed_tail k t e -> (k < cleanup_rank c)%nat ->
    failed_tail (cleanup_rank c) (t ++ [EvErr c e']) e'.

(** A block is fail-stop up to rank [k]: either every call it logged
    returned, or the log is calls that returned followed by a failed tail
    of rank at most [k], and the block raises the tail's exception. *)
Definition fail_stop {A} (k : nat) (evs : list event) (r : outcome A)
  : Prop :=
  Forall (fun ev => ev_failed ev = false) evs
  \/ exists b t j e,
      evs = b ++ t
      /\ Forall (fun ev => ev_failed ev = false) b
      /\ failed_tail j t e /\ (j <= k)%nat
      /\ r = Raised e.

(** The exit status that goes with an outcome of [download_videos]
    (lines 233-249). *)
Definition exit_status (r : outcome unit) : exit :=
  match r with
  | Returned _ => Exit 0
  | Raised _ => Exit 1
  | Pending => Running
  end.

(** The three ways a run finds nothing to download, read off its log:
    the camera reports no channel; the status-only query returns an empty
    status list; or every listed day is a date, and every per-day query
    returned, with no file. *)
Definition no_recordings (start_time_ end_time : datetime)
    (log : list event) : Prop :=
  (exists h, In (EvOk GetHostData (RHost h)) log /\ channels h = [])
  \/ (exists ch files,
         In (EvOk (RequestVodFiles ch start_time_ end_time true)
                  (RVod [] files)) log)
  \/ (exists ch sts files,
         In (EvOk (RequestVodFiles ch start_time_ end_time true)
                  (RVod sts files)) log
         /\ Forall (fun s =>
                      Forall (fun d =>
                                valid_date (vs_year s) (vs_month s) d = true)
                             (vs_days s)) sts
         /\ Forall (fun ev =>
                      is_day_query (ev_call ev) = true ->
                      ev_failed ev = false /\ files_of ev = []) log).

(** ** Fuel *)

(** [m2] does what [m1] does wherever [m1] finishes. *)
Definition finishes_as {A} (m1 m2 : M A) : Prop :=
  forall s, snd (m1 s) <> Pending -> m2 s = m1 s.

(** ** Further notions *)

(** A per-day query in the log is the clamped query of a day in range. *)
Definition day_query_of_a_day (start_time_ end_time : datetime)
    (ev : event) : Prop :=
  forall ch a b,
    ev_call ev = RequestVodFiles ch a b false ->
    exists y m d,
      in_range start_time_ end_time y m d = true
      /\ a = PyDate.max (day_start y m d) start_time_
      /\ b = PyDate.min (day_end y m d) end_time.

(** The channel a call names, for the calls that name one. *)
Definition call_channel (c : call) : option Z :=
  match c with
  | RequestVodFiles ch _ _ _ | DownloadVod _ ch => Some ch
  | _ => None
  end.

(** A day of a status list that is no date: [datetime(year, month, day)]
    raises [ValueError] for it. *)
Definition lists_no_date (status_list : list vod_status) : Prop :=
  Exists (fun s =>
            Exists (fun d => valid_date (vs_year s) (vs_month s) d = false)
                   (vs_days s))
         status_list.

(** The file a call opens or writes. *)
Definition touched_file (c : call) : option path :=
  match c with
  | Open q | Write q _ => Some q
  | _ => None
  end.

(** [ev] opens or writes nothing but an output file named by
    [output_filename]. *)
Definition touches_output (output_dir : path) (ev : event) : Prop :=
  forall q, touched_file (ev_call ev) = Some q ->
            exists idx f, q = PyPath.child output_dir (output_filename idx f).

(** The character [c] occurs in [s]. *)
Fixpoint occurs (c : ascii) (s : string) : bool :=
  match s with
  | EmptyString => false
  | String a s' => Ascii.eqb a c || occurs c s'
  end.

(** A path component that names an entry of its directory: not empty,
    no [/] inside, and neither [.] nor [..]. *)
Definition plain_name (c : string) : bool :=
  negb (String.eqb c "") && negb (String.eqb c ".")
  && negb (String.eqb c "..") && negb (occurs "/" c).

Definition is_absolute (p : path) : bool :=
  match p with
  | c :: _ => String.eqb c "/"
  | [] => false
  end.

(** A path spelled plainly: after the root, if it has one, nothing but
    plain names.  On a disk without links two plain paths, both relative
    or both absolute, are one file only if they are the same list of
    parts. *)
Definition plain_path (p : path) : bool :=
  forallb plain_name (if is_absolute p then tail p else p).

(** [m] writes nothing to the standard error stream. *)
Definition quiet {A} (m : M A) : Prop :=
  forall s, st_err (fst (m s)) = st_err s.

(** ** Streams that end *)

(** The number of reads that returned since the last download started. *)
Definition count_read (n : nat) (ev : event) : nat :=
  match ev with
  | EvOk (DownloadVod _ _) _ => 0
  | EvOk (StreamRead _) _ => S n
  | _ => n
  end.

Definition reads_since_download (h : list event) : nat :=
  fold_left count_read h 0%nat.

(** Every stream of [w] ends within [n] reads: once [n] reads of a
    download have returned, the next one returns the empty chunk or
    raises. *)
Definition streams_end_within (w : world) (n : nat) : Prop :=
  forall h c cs,
    (n <= reads_since_download h)%nat ->
    cam_stream_read w h 8192 <> inr (c :: cs).

(** [m] ends, by returning or by raising, from every state. *)
Definition finishes {A} (m : M A) : Prop :=
  forall s, snd (m s) <> Pending.

(** ** The standard output *)

(** What a run of [download_videos] started on disk [fs0] has printed on
    the standard output. *)
Definition videos_out (w : world) (fuel : nat) (ip username password : string)
    (start_time_ end_time : datetime) (output_dir : path)
    (fs0 : filesystem) : list string :=
  st_out (fst (download_videos w fuel ip username password start_time_
                               end_time output_dir (boot fs0))).

(** The three lines a run that returns can end its output with (lines
    50, 68 and 98, 142). *)
Definition no_channel_line : string := "Error: No channels found on camera".

Definition no_recording_line : string :=
  "No recordings found in the specified date range".

Definition success_line (n : nat) (output_dir : path) : string :=
  nl +:+ "Successfully downloaded " +:+ PyStr.of_int (Z.of_nat n)
  +:+ " video(s) to " +:+ PyPath.to_string output_dir.

(** ** Reading a file name back *)

Definition digit_value (c : ascii) : Z := Z.of_nat (nat_of_ascii c) - 48.

(** The number a string of decimal digits spells, continuing [acc]. *)
Fixpoint decimal (acc : Z) (s : string) : Z :=
  match s with
  | EmptyString => acc
  | String c s' => decimal (10 * acc + digit_value c) s'
  end.

(** The time the first fifteen characters of a file name spell, read as
    [YYYYmmdd_HHMMSS]. *)
Definition stamp_of (name : string) : datetime :=
  DateTime (decimal 0 (substring 0 4 name))
           (decimal 0 (substring 4 2 name))
           (decimal 0 (substring 6 2 name))
           (decimal 0 (substring 9 2 name))
           (decimal 0 (substring 11 2 name))
           (decimal 0 (substring 13 2 name)).

(** A datetime that [%Y%m%d_%H%M%S] prints in fifteen characters: every
    datetime of the years 1000 to 9999 is one. *)
Definition fixed_width (t : datetime) : Prop :=
  1000 <= dt_year t <= 9999
  /\ 0 <= dt_month t <= 99 /\ 0 <= dt_day t <= 99
  /\ 0 <= dt_hour t <= 99 /\ 0 <= dt_minute t <= 99
  /\ 0 <= dt_second t <= 99.

(** ** The output file that is open *)

(** Following the open output file through a log.  The state is the path
    of the file that is open, if one is; [None] marks a log that breaks
    the discipline of [with open(...)]: a second file opened while one is
    open, a write to a file that is not the open one, a read or a close
    with no file open, or any other call while a file is open.  An
    [open] that raised opened nothing; a close ends the [with] whether
    it returned or raised. *)
Definition file_step (st : option (option path)) (ev : event)
  : option (option path) :=
  match st with
  | None => None
  | Some None =>
      match ev_call ev with
      | Open p => Some (if ev_failed ev then None else Some p)
      | Write _ _ | StreamRead _ | CloseFile _ => None
      | _ => Some None
      end
  | Some (Some q) =>
      match ev_call ev with
      | StreamRead _ => Some (Some q)
      | Write p _ => if decide (p = q) then Some (Some q) else None
      | CloseFile p => if decide (p = q) then Some None else None
      | _ => None
      end
  end.

Definition files_after (st : option (option path)) (evs : list event)
  : option (option path) :=
  fold_left file_step evs st.

(** A block whose calls keep to the discipline and leave no file open
    once it has ended. *)
Definition keeps_files {A} (evs : list event) (r : outcome A) : Prop :=
  exists cur,
    files_after (Some None) evs = Some cur
    /\ (r <> Pending -> cur = None).

(** * A sample world

    Concrete instances to run the script on: a [strptime] for ASCII input
    (the directives of the six formats, with the alternatives Python's
    pattern for each directive tries, in its order), and a camera with one
    channel, three recorded days and one two-chunk recording per day. *)

Module Sample.

Definition digit (c : ascii) : option Z :=
  let n := Z.of_nat (nat_of_ascii c) in
  if (48 <=? n) && (n <=? 57) then Some (n - 48) else None.

(** The two-digit alternatives of a directive's pattern, e.g.
    [1[0-2]|0[1-9]] for [%m]. *)
Definition two_digits_ok (c : ascii) (x y : Z) : bool :=
  if Ascii.eqb c "m" then ((x =? 1) && (y <=? 2)) || ((x =? 0) && (1 <=? y))
  else if Ascii.eqb c "d" then
    ((x =? 3) && (y <=? 1)) || (x =? 1) || (x =? 2) || ((x =? 0) && (1 <=? y))
  else if Ascii.eqb c "H" then ((x =? 2) && (y <=? 3)) || (x <=? 1)
  else if Ascii.eqb c "M" then x <=? 5
  else if Ascii.eqb c "S" then ((x =? 6) && (y <=? 1)) || (x <=? 5)
  else false.

(** The one-digit alternative: [[1-9]] for month and day, [\d] for the
    time fields. *)
Definition one_digit_ok (c : ascii) (x : Z) : bool :=
  if Ascii.eqb c "m" || Ascii.eqb c "d" then 1 <=? x
  else Ascii.eqb c "H" || Ascii.eqb c "M" || Ascii.eqb c "S".

Definition set_field (c : ascii) (v : Z) (d : datetime) : datetime :=
  if Ascii.eqb c "Y" then
    DateTime v (dt_month d) (dt_day d) (dt_hour d) (dt_minute d) (dt_second d)
  else if Ascii.eqb c "m" then
    DateTime (dt_year d) v (dt_day d) (dt_hour d) (dt_minute d) (dt_second d)
  else if Ascii.eqb c "d" then
    DateTime (dt_year d) (dt_month d) v (dt_hour d) (dt_minute d) (dt_second d)
  else if Ascii.eqb c "H" then
    DateTime (dt_year d) (dt_month d) (dt_day d) v (dt_minute d) (dt_second d)
  else if Ascii.eqb c "M" then
    DateTime (dt_year d) (dt_month d) (dt_day d) (dt_hour d) v (dt_second d)
  else
    DateTime (dt_year d) (dt_month d) (dt_day d) (dt_hour d) (dt_minute d) v.

Fixpoint skip_spaces (s : string) : string :=
  match s with
  | String " " s' => skip_spaces s'
  | _ => s
  end.

Definition or_else {A} (x y : option A) : option A :=
  match x with Some _ => x | None => y end.

Fixpoint match_format (fmt s : string) (acc : datetime) : option datetime :=
  match fmt with
  | EmptyString => match s with EmptyString => Some acc | _ => None end
  | String "%" (String c rest) =>
      if Ascii.eqb c "Y" then
        match s with
        | String a (String b (String c' (String d' s'))) =>
            match digit a, digit b, digit c', digit d' with
            | Some x, Some y, Some z, Some t =>
                match_format rest s'
                  (set_field c (1000 * x + 100 * y + 10 * z + t) acc)
            | _, _, _, _ => None
            end
        | _ => None
        end
      else
        or_else
          match s with
          | String a (String b s') =>
              match digit a, digit b with
              | Some x, Some y =>
                  if two_digits_ok c x y
                  then match_format rest s' (set_field c (10 * x + y) acc)
                  else None
              | _, _ => None
              end
          | _ => None
          end
          match s with
          | String a s' =>
              match digit a with
              | Some x =>
                  if one_digit_ok c x
                  then match_format rest s' (set_field c x acc)
                  else None
              | None => None
              end
          | _ => None
          end
  | String " " rest =>
      match s with
      | String " " s' => match_format rest (skip_spaces s') acc
      | _ => None
      end
  | String c rest =>
      match s with
      | String c' s' =>
          if Ascii.eqb c c' then match_format rest s' acc else None
      | _ => None
      end
  end.

(** [datetime.strptime(s, fmt)], [None] for [ValueError].  Fields the
    format does not mention default to 1900-01-01 00:00:00. *)
Definition strptime (s fmt : string) : option datetime :=
  match match_format fmt s (DateTime 1900 1 1 0 0 0) with
  | Some d =>
      match datetime_new (dt_year d) (dt_month d) (dt_day d)
                         (dt_hour d) (dt_minute d) (dt_second d) with
      | inr d' => Some d'
      | inl _ => None
      end
  | None => None
  end.

(** How many reads the log holds since the last download started. *)
Fixpoint reads_so_far (h : list event) (n : nat) : nat :=
  match h with
  | [] => n
  | EvOk (DownloadVod _ _) _ :: h' => reads_so_far h' 0
  | EvOk (StreamRead _) _ :: h' => reads_so_far h' (S n)
  | _ :: h' => reads_so_far h' n
  end.

Definition recording (d : datetime) : vod_file :=
  VodFile ("Mp4Record/" +:+ PyDate.strftime "%Y-%m-%d" d +:+ "/RecM01_"
           +:+ PyDate.strftime "%H%M%S" d +:+ ".mp4")
          (Some d).

(** One channel; January 2024 has recordings on the 1st, 2nd and 3rd;
    each day holds one recording, which streams as two chunks. *)
Definition camera : world :=
  {| cam_get_host_data := fun _ => inr (HostData "Front door" [0]);
     cam_request_vod_files := fun _ _ start _ status_only =>
       if status_only then inr ([VodStatus 2024 1 [1; 2; 3]], [])
       else inr ([], [recording start]);
     cam_download_vod := fun _ _ _ => inr tt;
     cam_stream_read := fun h _ =>
       match reads_so_far h 0 with
       | O => inr [x01; x02]%byte
       | S O => inr [x03]%byte
       | _ => inr []
       end;
     cam_vod_close := fun _ => inr tt;
     cam_logout := fun _ => inr tt;
     disk_fault := fun _ _ => None |}.

(** The same camera behind a network that drops the logout request. *)
Definition camera_logout_fails : world :=
  {| cam_get_host_data := cam_get_host_data camera;
     cam_request_vod_files := cam_request_vod_files camera;
     cam_download_vod := cam_download_vod camera;
     cam_stream_read := cam_stream_read camera;
     cam_vod_close := cam_vod_close camera;
     cam_logout := fun _ => inl (ReolinkError "logout timed out");
     disk_fault := disk_fault camera |}.

(** A camera that reports no channel. *)
Definition camera_no_channel : world :=
  {| cam_get_host_data := fun _ => inr (HostData "Front door" []);
     cam_request_vod_files := cam_request_vod_files camera;
     cam_download_vod := cam_download_vod camera;
     cam_stream_read := cam_stream_read camera;
     cam_vod_close := cam_vod_close camera;
     cam_logout := cam_logout camera;
     disk_fault := disk_fault camera |}.

(** A camera that cannot be reached. *)
Definition camera_unreachable : world :=
  {| cam_get_host_data := fun _ => inl (ReolinkError "connection refused");
     cam_request_vod_files := cam_request_vod_files camera;
     cam_download_vod := cam_download_vod camera;
     cam_stream_read := cam_stream_read camera;
     cam_vod_close := cam_vod_close camera;
     cam_logout := cam_logout camera;
     disk_fault := disk_fault camera |}.

(** A camera that cannot be reached, and whose logout fails too. *)
Definition camera_unreachable_logout_fails : world :=
  {| cam_get_host_data := fun _ => inl (ReolinkError "connection refused");
     cam_request_vod_files := cam_request_vod_files camera;
     cam_download_vod := cam_download_vod camera;
     cam_stream_read := cam_stream_read camera;
     cam_vod_close := cam_vod_close camera;
     cam_logout := fun _ => inl (ReolinkError "logout timed out");
     disk_fault := disk_fault camera |}.

(** A camera that reports no channel, and whose logout fails. *)
Definition camera_no_channel_logout_fails : world :=
  {| cam_get_host_data := fun _ => inr (HostData "Front door" []);
     cam_request_vod_files := cam_request_vod_files camera;
     cam_download_vod := cam_download_vod camera;
     cam_stream_read := cam_stream_read camera;
     cam_vod_close := cam_vod_close camera;
     cam_logout := fun _ => inl (ReolinkError "logout timed out");
     disk_fault := disk_fault camera |}.

(** The same camera, and a disk on which every write fails. *)
Definition camera_disk_full : world :=
  {| cam_get_host_data := cam_get_host_data camera;
     cam_request_vod_files := cam_request_vod_files camera;
     cam_download_vod := cam_download_vod camera;
     cam_stream_read := cam_stream_read camera;
     cam_vod_close := cam_vod_close camera;
     cam_logout := cam_logout camera;
     disk_fault := fun _ c =>
       match c with
       | Write _ _ => Some (OSError "No space left on device")
       | _ => None
       end |}.

(** An empty disk. *)
Definition empty_disk : filesystem := FS ∅ ∅.

Definition jan (d hh mm ss : Z) : datetime := DateTime 2024 1 d hh mm ss.

Definition cli (start end_ : string) : args :=
  Args "192.168.1.10" "admin" "secret" start end_ "./downloads".

End Sample.

(** * More sample worlds *)

Module Faults.

(** The sample camera with a status list that names the 30th of
    February. *)
Definition camera_lists_feb_30 : world :=
  {| cam_get_host_data := cam_get_host_data Sample.camera;
     cam_request_vod_files := fun _ _ start _ status_only =>
       if status_only then inr ([VodStatus 2024 2 [29; 30]], [])
       else inr ([], [Sample.recording start]);
     cam_download_vod := cam_download_vod Sample.camera;
     cam_stream_read := cam_stream_read Sample.camera;
     cam_vod_close := cam_vod_close Sample.camera;
     cam_logout := cam_logout Sample.camera;
     disk_fault := disk_fault Sample.camera |}.

(** The sample camera with streams that break after their first
    chunk. *)
Definition camera_stream_breaks : world :=
  {| cam_get_host_data := cam_get_host_data Sample.camera;
     cam_request_vod_files := cam_request_vod_files Sample.camera;
     cam_download_vod := cam_download_vod Sample.camera;
     cam_stream_read := fun h _ =>
       match Sample.reads_so_far h 0 with
       | O => inr [x01; x02]%byte
       | _ => inl (ReolinkError "connection reset")
       end;
     cam_vod_close := cam_vod_close Sample.camera;
     cam_logout := cam_logout Sample.camera;
     disk_fault := disk_fault Sample.camera |}.

(** A disk that holds one file outside the output directory. *)
Definition disk_with_notes : filesystem :=
  FS ∅ {[ ["notes.txt"] := [x68; x69]%byte ]}.

(** A disk on which [downloads] is a regular file. *)
Definition disk_with_file_downloads : filesystem :=
  FS ∅ {[ ["downloads"] := [x68; x69]%byte ]}.

End Faults.
(** * Reasoning about runs *)

Lemma replay_app fs e1 fs1 e2 fs2 :
  Disk.replay fs e1 = Some fs1 ->
  Disk.replay fs1 e2 = Some fs2 ->
  Disk.replay fs (e1 ++ e2) = Some fs2.
Proof.
  revert fs. induction e1 as [|ev e1 IH]; intros fs H1 H2; simpl in *.
  - now inversion H1; subst.
  - destruct (Disk.apply fs ev); [eauto | discriminate].
Qed.

Lemma replay_app_inv fs e1 e2 fs2 :
  Disk.replay fs (e1 ++ e2) = Some fs2 ->
  exists fs1, Disk.replay fs e1 = Some fs1 /\ Disk.replay fs1 e2 = Some fs2.
Proof.
  revert fs. induction e1 as [|ev e1 IH]; intros fs H; simpl in *.
  - eauto.
  - destruct (Disk.apply fs ev); [eauto | discriminate].
Qed.

Lemma apply_camera_call fs c r :
  camera_call c = true -> Disk.apply fs (EvOk c r) = Some fs.
Proof. destruct c; simpl; intros; congruence. Qed.

Lemma run_ret {A} (a : A) s : run (ret a) s [] (Returned a) s.
Proof. unfold run, ret. rewrite app_nil_r. auto. Qed.

Lemma run_raise {A} e s : run (@raise A e) s [] (Raised e) s.
Proof. unfold run, raise. rewrite app_nil_r. auto. Qed.

Lemma run_pending {A} s : run (@pending A) s [] Pending s.
Proof. unfold run, pending. rewrite app_nil_r. auto. Qed.

Lemma run_print msg s : run (print msg) s [] (Returned tt) (fst (print msg s)).
Proof. unfold run, print. simpl. rewrite app_nil_r. auto. Qed.

Lemma run_bind {A B} (m : M A) (k : A -> M B) s e1 a s1 e2 r s2 :
  run m s e1 (Returned a) s1 ->
  run (k a) s1 e2 r s2 ->
  run (bind m k) s (e1 ++ e2) r s2.
Proof.
  intros (Hm & Ht1 & Hf1) (Hk & Ht2 & Hf2). unfold run, bind.
  rewrite Hm, Ht2, Ht1, app_assoc. eauto using replay_app.
Qed.

Lemma run_bind_raised {A B} (m : M A) (k : A -> M B) s e1 e s1 :
  run m s e1 (Raised e) s1 -> run (bind m k) s e1 (Raised e) s1.
Proof. intros (Hm & Ht & Hf). unfold run, bind. rewrite Hm. auto. Qed.

Lemma run_bind_pending {A B} (m : M A) (k : A -> M B) s e1 s1 :
  run m s e1 Pending s1 -> run (bind m k) s e1 Pending s1.
Proof. intros (Hm & Ht & Hf). unfold run, bind. rewrite Hm. auto. Qed.

Section Calls.

Variable w : world.

Lemma run_call_lib {A} c (wrap : A -> reply) ask s :
  camera_call c = true ->
  match ask (st_trace s) with
  | inl e => run (call_lib c wrap ask) s [EvErr c e] (Raised e)
                 (log (EvErr c e) s)
  | inr a => run (call_lib c wrap ask) s [EvOk c (wrap a)] (Returned a)
                 (log (EvOk c (wrap a)) s)
  end.
Proof.
  intros Hc. unfold run, call_lib.
  destruct (ask (st_trace s)) as [e|a]; repeat split; auto.
  cbn [Disk.replay log st_fs]. now rewrite apply_camera_call.
Qed.

(** The two ways a camera call can go. *)
Lemma call_lib_cases {A} c (wrap : A -> reply) ask s :
  camera_call c = true ->
  (exists e s', run (call_lib c wrap ask) s [EvErr c e] (Raised e) s')
  \/ (exists a s', run (call_lib c wrap ask) s [EvOk c (wrap a)]
                       (Returned a) s').
Proof.
  intros Hc. pose proof (run_call_lib c wrap ask s Hc) as H.
  destruct (ask (st_trace s)); eauto.
Qed.

Lemma call_disk_cases c s :
  (exists e s', run (call_disk w c) s [EvErr c e] (Raised e) s')
  \/ (exists s', run (call_disk w c) s [EvOk c RNone] (Returned tt) s').
Proof.
  unfold run, call_disk.
  destruct (disk_fault w (st_trace s) c) as [e|].
  { left. exists e, (log (EvErr c e) s). simpl. auto. }
  destruct (Disk.effect c (st_fs s)) as [e|fs'] eqn:He.
  { left. exists e, (log (EvErr c e) s). simpl. auto. }
  right. exists (log (EvOk c RNone) (set_fs fs' s)). simpl.
  rewrite He. auto.
Qed.

End Calls.

Lemma run_finally {A} (body : M A) (cleanup : M unit) s e1 r1 s1 e2 r2 s2 :
  run body s e1 r1 s1 ->
  r1 <> Pending ->
  run cleanup s1 e2 r2 s2 ->
  run (try_finally body cleanup) s (e1 ++ e2)
      (match r2 with
       | Returned _ => r1
       | Raised e => Raised e
       | Pending => Pending
       end) s2.
Proof.
  intros (Hb & Ht1 & Hf1) Hr (Hc & Ht2 & Hf2). unfold run, try_finally.
  rewrite Hb, Ht2, Ht1, app_assoc.
  pose proof (replay_app _ _ _ _ _ Hf1 Hf2).
  destruct r1; try congruence; rewrite Hc; destruct r2; auto.
Qed.

Lemma run_finally_pending {A} (body : M A) (cleanup : M unit) s e1 s1 :
  run body s e1 Pending s1 ->
  run (try_finally body cleanup) s e1 Pending s1.
Proof.
  intros (Hb & Ht & Hf). unfold run, try_finally. rewrite Hb. auto.
Qed.

(** The handler of lines 144-146 reports on stderr and re-raises: the
    log and the outcome are those of the body. *)
Lemma run_except_reraise {A} (body : M A) s e1 r1 s1 :
  run body s e1 r1 s1 ->
  exists s1',
    run (try_except_Exception body
           (fun e => eprint ("Error: " +:+ exn_str e) ;; raise e)%py)
        s e1 r1 s1'.
Proof.
  intros (Hb & Ht & Hf). unfold run, try_except_Exception. rewrite Hb.
  destruct r1 as [a|e|]; eauto.
  destruct (is_Exception e); eauto.
Qed.

(** * Soundness: the script's runs have that shape *)

Lemma run_bind_stop {A B} (m : M A) (k : A -> M B) (f : A -> B) s e1 r1 s1 :
  run m s e1 r1 s1 -> returned r1 = false ->
  run (bind m k) s e1 (omap f r1) s1.
Proof.
  intros H Hr. destruct r1; simpl in *; try discriminate.
  - now apply run_bind_raised.
  - now apply run_bind_pending.
Qed.

Lemma bind_ret_l {A B} (a : A) (k : A -> M B) : bind (ret a) k = k a.
Proof. reflexivity. Qed.

Lemma run_bind_cons {A B} (m : M A) (k : A -> M B) s ev a s1 e2 r s2 :
  run m s [ev] (Returned a) s1 ->
  run (k a) s1 e2 r s2 ->
  run (bind m k) s (ev :: e2) r s2.
Proof. intros H1 H2. apply (run_bind m k s [ev] a s1 e2 r s2 H1 H2). Qed.

Lemma run_print_then {A} msg (k : unit -> M A) s evs r s' :
  run (k tt) (fst (print msg s)) evs r s' ->
  run (bind (print msg) k) s evs r s'.
Proof.
  intros H.
  apply (run_bind (print msg) k s [] tt (fst (print msg s)) evs r s'); auto.
  apply run_print.
Qed.

Lemma datetime_new_valid y m d hh mm ss :
  valid_date y m d = true ->
  0 <= hh <= 23 -> 0 <= mm <= 59 -> 0 <= ss <= 59 ->
  datetime_new y m d hh mm ss = inr (DateTime y m d hh mm ss).
Proof.
  unfold valid_date, datetime_new. intros Hv Hh Hm Hs.
  repeat (apply andb_prop in Hv; destruct Hv as [Hv ?]).
  repeat match goal with
         | H : _ = true |- _ => rewrite H
         end.
  replace (0 <=? hh) with true by (symmetry; apply Z.leb_le; lia).
  replace (hh <=? 23) with true by (symmetry; apply Z.leb_le; lia).
  replace (0 <=? mm) with true by (symmetry; apply Z.leb_le; lia).
  replace (mm <=? 59) with true by (symmetry; apply Z.leb_le; lia).
  replace (0 <=? ss) with true by (symmetry; apply Z.leb_le; lia).
  replace (ss <=? 59) with true by (symmetry; apply Z.leb_le; lia).
  reflexivity.
Qed.

Lemma datetime_new_invalid y m d hh mm ss :
  valid_date y m d = false ->
  exists msg, datetime_new y m d hh mm ss = inl (ValueError msg).
Proof.
  unfold valid_date, datetime_new. intros Hv.
  destruct ((1 <=? y) && (y <=? 9999)); simpl in *; [|eauto].
  destruct ((1 <=? m) && (m <=? 12)); simpl in *; [|eauto].
  destruct ((1 <=? d) && (d <=? PyDate.days_in_month y m)); simpl in *;
    [discriminate | eauto].
Qed.

Lemma finally_sound {A} (body : M A) (cleanup : M unit) c s e1 r1 s1 :
  cleanup_call cleanup c ->
  run body s e1 r1 s1 ->
  exists evs r s',
    run (try_finally body cleanup) s evs r s' /\ finally_run c e1 r1 evs r.
Proof.
  intros Hc Hb.
  assert (r1 = Pending \/ r1 <> Pending) as [-> | Hr].
  { destruct r1; auto; right; discriminate. }
  { do 3 eexists. split; [apply run_finally_pending; eauto | constructor]. }
  destruct (Hc s1) as [(e & s2 & H2) | (s2 & H2)].
  - do 3 eexists. split; [eapply run_finally; eauto |]. now constructor.
  - do 3 eexists. split; [eapply run_finally; eauto |]. now constructor.
Qed.

Lemma for_each_sound {A B} (body : B -> A -> M B)
    (R : B -> A -> list event -> outcome B -> Prop) :
  (forall acc x s, exists evs r s',
      run (body acc x) s evs r s' /\ R acc x evs r) ->
  forall xs acc s, exists evs r s',
      run (for_each body xs acc) s evs r s' /\ loop_run R xs acc evs r.
Proof.
  intros Hbody. induction xs as [|x xs IH]; intros acc s.
  { do 3 eexists. split; [apply run_ret | constructor]. }
  cbn [for_each].
  destruct (Hbody acc x s) as (e1 & r1 & s1 & H1 & HR).
  destruct r1 as [acc'|e|] eqn:Hr1.
  - destruct (IH acc' s1) as (e2 & r2 & s2 & H2 & HL).
    do 3 eexists. split; [eapply run_bind; eauto |].
    eapply loop_next; eauto.
  - do 3 eexists. split; [eapply run_bind_raised; eauto |].
    now apply loop_stop.
  - do 3 eexists. split; [eapply run_bind_pending; eauto |].
    now apply loop_stop.
Qed.

Section Sound.

Variable w : world.

Lemma call_disk_cleanup c : cleanup_call (call_disk w c) c.
Proof. intros s. apply call_disk_cases. Qed.

Lemma vod_close_cleanup : cleanup_call (vod_close w) VodClose.
Proof.
  intros s. unfold vod_close.
  destruct (call_lib_cases VodClose (fun _ : unit => RNone)
              (cam_vod_close w) s eq_refl)
    as [(e & s' & H) | ([] & s' & H)]; eauto.
Qed.

Lemma logout_cleanup : cleanup_call (logout w) Logout.
Proof.
  intros s. unfold logout.
  destruct (call_lib_cases Logout (fun _ : unit => RNone)
              (cam_logout w) s eq_refl)
    as [(e & s' & H) | ([] & s' & H)]; eauto.
Qed.

Lemma copy_stream_sound fuel p s :
  exists evs r s',
    run (copy_stream w fuel p) s evs r s' /\ copy_run p evs r.
Proof.
  revert s. induction fuel as [|fuel IH]; intros s.
  { exists [], Pending, s. split; [apply run_pending | constructor]. }
  cbn [copy_stream]. unfold stream_read.
  destruct (call_lib_cases (StreamRead 8192) RBytes
              (fun h => cam_stream_read w h 8192) s eq_refl)
    as [(e & s1 & H1) | (chunk & s1 & H1)].
  { do 3 eexists. split; [ eapply run_bind_raised; eauto | constructor]. }
  destruct chunk as [|b chunk].
  { do 3 eexists. split; [ eapply run_bind; [eauto | apply run_ret] | ].
    constructor. }
  destruct (call_disk_cases w (Write p (b :: chunk)) s1)
    as [(e & s2 & H2) | (s2 & H2)].
  { do 3 eexists. split.
    - eapply run_bind; [eauto |]. eapply run_bind_raised; eauto.
    - now constructor. }
  destruct (IH s2) as (evs & r & s3 & H3 & Hc).
  do 3 eexists. split.
  - eapply run_bind; [eauto |]. eapply run_bind; eauto.
  - now constructor.
Qed.

(** Lines 130-137, with the message of line 137. *)
Lemma save_sound fuel p msg s :
  exists evs r s',
    run (with_open_wb w p (copy_stream w fuel p) ;; print msg)%py
        s evs r s'
    /\ save_run p evs r.
Proof.
  unfold with_open_wb.
  destruct (call_disk_cases w (Open p) s) as [(e & s1 & H1) | (s1 & H1)].
  { do 3 eexists. split; [| apply save_open_err].
    apply run_bind_raised. eapply run_bind_raised; eauto. }
  destruct (copy_stream_sound fuel p s1) as (e2 & r2 & s2 & H2 & Hc).
  destruct (finally_sound _ _ _ _ _ _ _ (call_disk_cleanup (CloseFile p)) H2)
    as (e3 & r3 & s3 & H3 & Hf).
  assert (Hopen : run (call_disk w (Open p) ;;
                       try_finally (copy_stream w fuel p)
                         (call_disk w (CloseFile p)))%py
                      s (EvOk (Open p) RNone :: e3) r3 s3).
  { change (EvOk (Open p) RNone :: e3) with ([EvOk (Open p) RNone] ++ e3).
    eapply run_bind; eauto. }
  destruct r3 as [[]|e|].
  - do 3 eexists. split.
    + eapply run_bind; [eauto | apply run_print].
    + rewrite app_nil_r. econstructor; eauto.
  - do 3 eexists. split; [eapply run_bind_raised; eauto |].
    econstructor; eauto.
  - do 3 eexists. split; [eapply run_bind_pending; eauto |].
    econstructor; eauto.
Qed.

Section Run.

Variables (fuel : nat) (ip username password : string)
          (start_time_ end_time : datetime) (output_dir : path).

Lemma download_one_sound channel total idx f s :
  exists evs r s',
    run (download_one w fuel output_dir channel total idx f) s evs r s'
    /\ file_run output_dir channel idx f evs r.
Proof.
  unfold download_one.
  set (msg := "Downloading [" +:+ _).
  set (s0 := fst (print msg s)).
  unfold download_vod at 1.
  destruct (call_lib_cases (DownloadVod (file_name f) channel)
              (fun _ : unit => RNone)
              (fun h => cam_download_vod w h (file_name f) channel)
              s0 eq_refl)
    as [(e & s1 & H1) | ([] & s1 & H1)].
  { do 3 eexists. split; [| apply file_download_err].
    apply run_print_then. eapply run_bind_raised; eauto. }
  destruct (save_sound fuel
              (PyPath.child output_dir (output_filename idx f))
              ("  Saved to: " +:+ PyPath.to_string
                 (PyPath.child output_dir (output_filename idx f))) s1)
    as (e2 & r2 & s2 & H2 & Hs).
  destruct (finally_sound _ _ _ _ _ _ _ vod_close_cleanup H2)
    as (e3 & r3 & s3 & H3 & Hf).
  exists (EvOk (DownloadVod (file_name f) channel) RNone :: e3),
         (omap (fun _ => idx + 1) r3), s3.
  split; [| econstructor; eauto].
  apply run_print_then. eapply run_bind_cons; [eauto |].
  destruct r3 as [[]|e|]; simpl.
  - rewrite <- (app_nil_r e3). eapply run_bind; [eauto | apply run_ret].
  - eapply run_bind_raised; eauto.
  - eapply run_bind_pending; eauto.
Qed.

Lemma check_day_sound channel y m acc d s :
  exists evs r s',
    run (check_day w start_time_ end_time channel y m acc d) s evs r s'
    /\ day_run start_time_ end_time channel y m acc d evs r.
Proof.
  unfold check_day.
  destruct (valid_date y m d) eqn:Hv.
  2:{ destruct (datetime_new_invalid y m d 0 0 0 Hv) as (msg & ->).
      do 3 eexists. split; [| apply day_invalid; exact Hv].
      apply run_bind_raised. apply run_raise. }
  rewrite !datetime_new_valid by (auto; lia).
  cbn [lift]. rewrite !bind_ret_l.
  fold (day_start y m d) (day_end y m d).
  destruct (PyDate.gtb (day_start y m d) end_time
            || PyDate.ltb (day_end y m d) start_time_) eqn:Hout.
  { do 3 eexists. split; [apply run_ret |].
    apply day_skipped; auto. unfold in_range. now rewrite Hout. }
  assert (Hin : in_range start_time_ end_time y m d = true)
    by (unfold in_range; now rewrite Hout).
  set (msg := "Checking " +:+ _).
  unfold request_vod_files.
  destruct (call_lib_cases
              (day_query start_time_ end_time channel y m d)
              (fun r => RVod (fst r) (snd r))
              (fun h => cam_request_vod_files w h channel
                          (PyDate.max (day_start y m d) start_time_)
                          (PyDate.min (day_end y m d) end_time) false)
              (fst (print msg s)) eq_refl)
    as [(e & s1 & H1) | ([sts files] & s1 & H1)].
  { do 3 eexists. split; [| apply day_query_err; auto].
    cbv beta iota. apply run_print_then.
    eapply run_bind_raised; eauto. }
  exists [EvOk (day_query start_time_ end_time channel y m d)
               (RVod sts files)],
         (Returned (acc ++ files)).
  simpl in H1.
  destruct files as [|f files].
  - exists s1. split; [| apply day_queried; auto].
    cbv beta iota. apply run_print_then.
    eapply run_bind_cons; [eauto |]. simpl.
    rewrite app_nil_r. apply run_ret.
  - eexists. split; [| apply day_queried; auto].
    cbv beta iota. apply run_print_then.
    eapply run_bind_cons; [eauto |]. simpl.
    apply run_print_then. apply run_ret.
Qed.

Lemma collect_sound channel sts s :
  exists evs r s',
    run (collect_vod_files w start_time_ end_time channel sts)
        s evs r s'
    /\ collect_run start_time_ end_time channel sts evs r.
Proof.
  unfold collect_vod_files, collect_run.
  apply for_each_sound. intros acc st s0.
  unfold check_status, status_run.
  apply for_each_sound. intros acc' d s1. apply check_day_sound.
Qed.

Lemma download_all_sound channel total files idx s :
  exists evs r s',
    run (for_each (download_one w fuel output_dir channel total)
                  files idx) s evs r s'
    /\ loop_run (file_run output_dir channel) files idx evs r.
Proof.
  apply for_each_sound. intros acc f s0. apply download_one_sound.
Qed.

Lemma session_sound s :
  exists evs r s',
    run (session w fuel start_time_ end_time output_dir) s evs r s'
    /\ session_run start_time_ end_time output_dir evs r.
Proof.
  unfold session, get_host_data.
  destruct (call_lib_cases GetHostData RHost (cam_get_host_data w)
              s eq_refl) as [(e & s1 & H1) | (h & s1 & H1)].
  { do 3 eexists. split; [eapply run_bind_raised; eauto |].
    constructor. }
  destruct (channels h) as [|ch rest] eqn:Hch.
  { do 3 eexists. split.
    - eapply run_bind_cons; [eauto |]. apply run_print_then.
      cbv beta. rewrite Hch. apply run_print.
    - now constructor. }
  assert (Hhd : head (channels h) = Some ch) by now rewrite Hch.
  pose (m1 := "Successfully connected to camera: " +:+ nvr_name h).
  pose (m2 := "Using channel: " +:+ PyStr.of_int ch).
  pose (m3 := "Searching for recordings from "
              +:+ PyDate.to_string start_time_ +:+ " to "
              +:+ PyDate.to_string end_time +:+ "...").
  pose (s2 := fst (print m3 (fst (print m2 (fst (print m1 s1)))))).
  unfold request_vod_files at 1.
  destruct (call_lib_cases (status_query start_time_ end_time ch)
              (fun r => RVod (fst r) (snd r))
              (fun h => cam_request_vod_files w h ch start_time_
                          end_time true) s2 eq_refl)
    as [(e & s3 & H3) | ([sts files] & s3 & H3)].
  { do 3 eexists. split.
    - eapply run_bind_cons; [eauto |]. apply run_print_then.
      cbv beta. rewrite Hch. do 2 apply run_print_then.
      eapply run_bind_raised; eauto.
    - now constructor. }
  simpl in H3.
  destruct sts as [|st sts].
  { do 3 eexists. split.
    - eapply run_bind_cons; [eauto |]. apply run_print_then.
      cbv beta. rewrite Hch. do 2 apply run_print_then.
      eapply run_bind_cons; [eauto |]. simpl. apply run_print.
    - now constructor. }
  destruct (collect_sound ch (st :: sts) s3)
    as (e4 & r4 & s4 & H4 & Hc).
  destruct r4 as [[|f all]|e|].
  - exists (EvOk GetHostData (RHost h)
            :: EvOk (status_query start_time_ end_time ch)
                    (RVod (st :: sts) files) :: e4).
    do 2 eexists. split.
    + eapply run_bind_cons; [eauto |]. apply run_print_then.
      cbv beta. rewrite Hch. do 2 apply run_print_then.
      eapply run_bind_cons; [eauto |]. simpl.
      rewrite <- (app_nil_r e4). eapply run_bind; [eauto |].
      apply run_print.
    + eapply ses_no_file; eauto; discriminate.
  - destruct (download_all_sound ch (List.length (f :: all))
                (f :: all) 1 (fst (print
                   (nl +:+ "Total found: "
                    +:+ PyStr.of_int (Z.of_nat (List.length (f :: all)))
                    +:+ " recording(s)") s4)))
      as (e5 & r5 & s5 & H5 & Hd).
    exists (EvOk GetHostData (RHost h)
            :: EvOk (status_query start_time_ end_time ch)
                    (RVod (st :: sts) files) :: e4 ++ e5),
           (omap (fun _ => tt) r5).
    assert (Hshape : session_run start_time_ end_time output_dir
              (EvOk GetHostData (RHost h)
               :: EvOk (status_query start_time_ end_time ch)
                       (RVod (st :: sts) files) :: e4 ++ e5)
              (omap (fun _ => tt) r5)).
    { eapply ses_download; eauto; discriminate. }
    destruct r5 as [n|e|]; eexists; (split; [| exact Hshape]);
      (eapply run_bind_cons; [eauto |]); apply run_print_then;
      cbv beta; rewrite Hch; do 2 apply run_print_then;
      (eapply run_bind_cons; [eauto |]); simpl;
      (eapply run_bind; [eauto |]); apply run_print_then.
    * rewrite <- (app_nil_r e5). eapply run_bind; [eauto |].
      apply run_print.
    * eapply run_bind_raised; eauto.
    * eapply run_bind_pending; eauto.
  - exists (EvOk GetHostData (RHost h)
            :: EvOk (status_query start_time_ end_time ch)
                    (RVod (st :: sts) files) :: e4),
           (Raised e).
    eexists. split.
    + eapply run_bind_cons; [eauto |]. apply run_print_then.
      cbv beta. rewrite Hch. do 2 apply run_print_then.
      eapply run_bind_cons; [eauto |]. simpl.
      eapply run_bind_raised; eauto.
    + apply (ses_collect_stop start_time_ end_time output_dir h ch
               (st :: sts) files e4 (Raised e)); auto; discriminate.
  - exists (EvOk GetHostData (RHost h)
            :: EvOk (status_query start_time_ end_time ch)
                    (RVod (st :: sts) files) :: e4),
           Pending.
    eexists. split.
    + eapply run_bind_cons; [eauto |]. apply run_print_then.
      cbv beta. rewrite Hch. do 2 apply run_print_then.
      eapply run_bind_cons; [eauto |]. simpl.
      eapply run_bind_pending; eauto.
    + apply (ses_collect_stop start_time_ end_time output_dir h ch
               (st :: sts) files e4 Pending); auto; discriminate.
Qed.

(** Lines 40-149: what follows the creation of the directory. *)
Lemma connected_sound s :
  exists evs r s',
    run (print ("Connecting to camera at " +:+ ip +:+ "...") ;;
         host_new ip username password ;;
         try_finally
           (try_except_Exception
              (session w fuel start_time_ end_time output_dir)
              (fun e => eprint ("Error: " +:+ exn_str e) ;; raise e))
           (logout w))%py s evs r s'
    /\ exists evs0 r0 evs',
        evs = EvOk (HostNew ip username password) RNone :: evs'
        /\ session_run start_time_ end_time output_dir evs0 r0
        /\ finally_run Logout evs0 r0 evs' r.
Proof.
  set (msg := "Connecting to camera at " +:+ _).
  set (s2 := log (EvOk (HostNew ip username password) RNone)
                 (fst (print msg s))).
  assert (Hhost : run (host_new ip username password)
                      (fst (print msg s))
                      [EvOk (HostNew ip username password) RNone]
                      (Returned tt) s2).
  { unfold run, host_new. auto. }
  destruct (session_sound s2) as (e3 & r3 & s3 & H3 & Hs).
  destruct (run_except_reraise _ _ _ _ _ H3) as (s3' & H3').
  destruct (finally_sound _ _ _ _ _ _ _ logout_cleanup H3')
    as (e4 & r4 & s4 & H4 & Hf).
  exists (EvOk (HostNew ip username password) RNone :: e4), r4, s4.
  split; [| eauto 6].
  apply run_print_then. eapply run_bind_cons; eauto.
Qed.

(** Every run of [download_videos] has the shape [videos_run]. *)
Theorem download_videos_sound s :
  exists evs r s',
    run (download_videos w fuel ip username password start_time_
                         end_time output_dir) s evs r s'
    /\ videos_run start_time_ end_time output_dir ip username password
                  evs r.
Proof.
  unfold download_videos.
  destruct (call_disk_cases w (Mkdir output_dir true true) s)
    as [(e & s1 & H1) | (s1 & H1)].
  { do 3 eexists. split; [eapply run_bind_raised; eauto |].
    constructor. }
  destruct (connected_sound s1)
    as (evs & r & s' & Hrun & e0 & r0 & evs' & -> & Hs & Hf).
  do 3 eexists. split; [eapply run_bind_cons; eauto |].
  econstructor; eauto.
Qed.

(** When neither the system nor the filesystem objects, the first
    event of the log is the directory creation that succeeded. *)
Lemma download_videos_mkdir_ok s fs' :
  disk_fault w (st_trace s) (Mkdir output_dir true true) = None ->
  Disk.mkdir true true (st_fs s) output_dir = inr fs' ->
  exists rest,
    st_trace (fst (download_videos w fuel ip username password
                     start_time_ end_time output_dir s))
    = st_trace s ++ EvOk (Mkdir output_dir true true) RNone :: rest.
Proof.
  intros Hfault Hmk.
  assert (H1 : run (call_disk w (Mkdir output_dir true true)) s
                   [EvOk (Mkdir output_dir true true) RNone]
                   (Returned tt)
                   (log (EvOk (Mkdir output_dir true true) RNone)
                        (set_fs fs' s))).
  { unfold run, call_disk. rewrite Hfault.
    cbn [Disk.effect Disk.replay Disk.apply]. rewrite Hmk. auto. }
  destruct (connected_sound
              (log (EvOk (Mkdir output_dir true true) RNone)
                   (set_fs fs' s)))
    as (evs & r & s' & Hrun & _).
  assert (Hall : run (download_videos w fuel ip username password
                        start_time_ end_time output_dir) s
                     (EvOk (Mkdir output_dir true true) RNone :: evs)
                     r s').
  { unfold download_videos. eapply run_bind_cons; eauto. }
  destruct Hall as (Hd & Ht & _). rewrite Hd. simpl. eauto.
Qed.

End Run.

End Sound.

(** * From runs to logs *)

Section ShapeFacts.

Variables (w : world) (fuel : nat) (ip username password : string)
          (start_time_ end_time : datetime) (output_dir : path).

(** A run started on [fs0]: its log has the shape [videos_run], and
    replaying the log on [fs0] gives the final disk. *)
Lemma videos_log_shape fs0 :
  videos_run start_time_ end_time output_dir ip username password
    (videos_log w fuel ip username password start_time_ end_time
                output_dir fs0)
    (videos_outcome w fuel ip username password start_time_ end_time
                    output_dir fs0)
  /\ Disk.replay fs0
       (videos_log w fuel ip username password start_time_ end_time
                   output_dir fs0)
     = Some (videos_disk w fuel ip username password start_time_ end_time
                         output_dir fs0).
Proof.
  unfold videos_log, videos_outcome, videos_disk.
  destruct (download_videos_sound w fuel ip username password start_time_
              end_time output_dir (boot fs0))
    as (evs & r & s' & (Hrun & Htr & Hfs) & Hshape).
  rewrite Hrun. simpl in *. subst. auto.
Qed.

End ShapeFacts.

Lemma loop_run_Forall {A B}
    (R : B -> A -> list event -> outcome B -> Prop) (P : event -> Prop) :
  (forall acc x evs r, R acc x evs r -> Forall P evs) ->
  forall xs acc evs r, loop_run R xs acc evs r -> Forall P evs.
Proof.
  intros HR xs acc evs r H. induction H; eauto.
  apply Forall_app. eauto.
Qed.

Lemma finally_run_inv {A} c (e1 : list event) (r1 : outcome A) evs r :
  finally_run c e1 r1 evs r ->
  (r1 = Pending /\ evs = e1 /\ r = Pending)
  \/ (r1 <> Pending /\ evs = e1 ++ [EvOk c RNone] /\ r = r1)
  \/ (r1 <> Pending /\ exists e, evs = e1 ++ [EvErr c e] /\ r = Raised e).
Proof. destruct 1; eauto 8. Qed.

(** ** Which calls each block issues *)

Section Calls.

Variables (start_time_ end_time : datetime) (output_dir : path).

Lemma copy_run_transfers p evs r :
  copy_run p evs r -> Forall (fun ev => is_transfer (ev_call ev) = true) evs.
Proof. induction 1; repeat constructor; auto. Qed.

Lemma save_run_transfers p evs r :
  save_run p evs r -> Forall (fun ev => is_transfer (ev_call ev) = true) evs.
Proof.
  destruct 1 as [e | evs r evs' r' Hc Hf]; repeat constructor.
  apply copy_run_transfers in Hc.
  destruct Hf; auto; apply Forall_app; split; auto; repeat constructor.
Qed.

Lemma file_run_transfers ch idx f evs r :
  file_run output_dir ch idx f evs r ->
  Forall (fun ev => is_transfer (ev_call ev) = true) evs.
Proof.
  destruct 1 as [e | evs r evs' r' Hs Hf]; repeat constructor.
  apply save_run_transfers in Hs.
  destruct Hf; auto; apply Forall_app; split; auto; repeat constructor.
Qed.

Lemma download_run_transfers ch files idx evs r :
  loop_run (file_run output_dir ch) files idx evs r ->
  Forall (fun ev => is_transfer (ev_call ev) = true) evs.
Proof.
  apply loop_run_Forall. intros. eapply file_run_transfers; eauto.
Qed.

Lemma day_run_queries ch y m acc d evs r :
  day_run start_time_ end_time ch y m acc d evs r ->
  Forall (fun ev => is_day_query (ev_call ev) = true) evs.
Proof. destruct 1; repeat constructor. Qed.

Lemma collect_run_queries ch sts evs r :
  collect_run start_time_ end_time ch sts evs r ->
  Forall (fun ev => is_day_query (ev_call ev) = true) evs.
Proof.
  apply loop_run_Forall. intros acc st evs' r'.
  apply loop_run_Forall. intros. eapply day_run_queries; eauto.
Qed.

(** The calls of the body of the outer [try], in order. *)
Lemma session_run_calls evs r :
  session_run start_time_ end_time output_dir evs r ->
  exists status days downloads,
    map ev_call evs = GetHostData :: status ++ days ++ downloads
    /\ (status = []
        \/ exists ch, status = [RequestVodFiles ch start_time_ end_time true])
    /\ Forall (fun c => is_day_query c = true) days
    /\ Forall (fun c => is_transfer c = true) downloads
    /\ (status = [] -> days = [] /\ downloads = []).
Proof.
  assert (Hmap : forall (P : call -> bool) l,
             Forall (fun ev => P (ev_call ev) = true) l ->
             Forall (fun c => P c = true) (map ev_call l)).
  { intros P l. rewrite Forall_map. auto. }
  destruct 1 as [e | h Hh | h ch e Hh | h ch files Hh
                 | h ch sts files evs r Hh Hs Hc Hr
                 | h ch sts files evs Hh Hs Hc
                 | h ch sts files evs all evs' r Hh Hs Hc Hall Hd].
  - exists [], [], []. simpl. auto 10.
  - exists [], [], []. simpl. auto 10.
  - exists [status_query start_time_ end_time ch], [], []. simpl.
    repeat split; eauto; discriminate.
  - exists [status_query start_time_ end_time ch], [], []. simpl.
    repeat split; eauto; discriminate.
  - exists [status_query start_time_ end_time ch], (map ev_call evs), [].
    simpl. rewrite app_nil_r. repeat split; eauto; try discriminate.
    apply Hmap. eapply collect_run_queries; eauto.
  - exists [status_query start_time_ end_time ch], (map ev_call evs), [].
    simpl. rewrite app_nil_r. repeat split; eauto; try discriminate.
    apply Hmap. eapply collect_run_queries; eauto.
  - exists [status_query start_time_ end_time ch], (map ev_call evs),
           (map ev_call evs').
    simpl. rewrite map_app. repeat split; eauto; try discriminate.
    + apply Hmap. eapply collect_run_queries; eauto.
    + apply Hmap. eapply download_run_transfers; eauto.
Qed.

End Calls.

(** * The command line: [parse_datetime] and the checks of [main] *)

Section CommandLineFacts.

Variable strptime : string -> string -> option datetime.

(** [try_formats] returns what the first format that parses returns. *)
Lemma try_formats_first s fmts d :
  try_formats strptime s fmts = Some d <->
  exists i fmt,
    fmts !! i = Some fmt /\ strptime s fmt = Some d
    /\ forall j fmt', (j < i)%nat -> fmts !! j = Some fmt' ->
                      strptime s fmt' = None.
Proof.
  induction fmts as [|f fmts IH]; simpl.
  { split; [discriminate | intros (i & fmt & H & _); destruct i; discriminate]. }
  destruct (strptime s f) as [d'|] eqn:Hf.
  - split.
    + intros [= ->]. exists 0%nat, f. repeat split; auto. intros; lia.
    + intros (i & fmt & Hi & Hd & Hmin). destruct i as [|i].
      * simpl in Hi. congruence.
      * specialize (Hmin 0%nat f ltac:(lia) eq_refl). congruence.
  - rewrite IH. split.
    + intros (i & fmt & Hi & Hd & Hmin). exists (S i), fmt.
      repeat split; auto. intros [|j] fmt' Hj Hl; simpl in Hl.
      * congruence.
      * apply (Hmin j); auto; lia.
    + intros (i & fmt & Hi & Hd & Hmin). destruct i as [|i].
      * simpl in Hi. congruence.
      * exists i, fmt. repeat split; auto. intros j fmt' Hj Hl.
        apply (Hmin (S j)); auto; lia.
Qed.

Lemma try_formats_none s fmts :
  try_formats strptime s fmts = None <->
  forall fmt, In fmt fmts -> strptime s fmt = None.
Proof.
  induction fmts as [|f fmts IH]; simpl.
  { split; [intros _ fmt [] | auto]. }
  destruct (strptime s f) as [d'|] eqn:Hf.
  - split; [discriminate |]. intros H. rewrite (H f) in Hf by auto.
    discriminate.
  - rewrite IH. split.
    + intros H fmt [<- | Hin]; auto.
    + intros H fmt Hin. apply H. auto.
Qed.

Variable w : world.
Variable fuel : nat.

(** What [main] does when one of the two dates does not parse: the
    message goes to stderr, the exit status is 1, nothing else happens. *)
Lemma main_unparsable a s e :
  parse_datetime strptime (arg_start_time a) = inl e
  \/ ((exists d, parse_datetime strptime (arg_start_time a) = inr d)
      /\ parse_datetime strptime (arg_end_time a) = inl e) ->
  main strptime w fuel a s
  = (State (st_trace s) (st_fs s) (st_out s)
           (st_err s ++ ["Error: " +:+ exn_str e]),
     Exit 1).
Proof.
  unfold main. intros [-> | [(d & ->) ->]]; [| reflexivity].
  destruct (parse_datetime strptime (arg_end_time a)); reflexivity.
Qed.

(** C6. [parse_datetime] goes through the six formats
    ['%Y-%m-%d %H:%M:%S'], ['%Y-%m-%d %H:%M'], ['%Y-%m-%d'],
    ['%Y/%m/%d %H:%M:%S'], ['%Y/%m/%d %H:%M'], ['%Y/%m/%d'] in that order
    and returns what the first one that parses returns; it raises, and
    then a [ValueError], exactly when none parses; and [main] then writes
    the error to stderr and exits with status 1 without issuing any
    call. *)
Theorem parse_datetime_first_format (s : string) :
  formats = [ "%Y-%m-%d %H:%M:%S"; "%Y-%m-%d %H:%M"; "%Y-%m-%d";
              "%Y/%m/%d %H:%M:%S"; "%Y/%m/%d %H:%M"; "%Y/%m/%d" ]
  /\ (forall d,
        parse_datetime strptime s = inr d <->
        exists i fmt,
          formats !! i = Some fmt /\ strptime s fmt = Some d
          /\ forall j fmt', (j < i)%nat -> formats !! j = Some fmt' ->
                            strptime s fmt' = None)
  /\ ((exists e, parse_datetime strptime s = inl e) <->
      forall fmt, In fmt formats -> strptime s fmt = None)
  /\ (forall e, parse_datetime strptime s = inl e ->
                exists msg, e = ValueError msg)
  /\ (forall a st e,
        (arg_start_time a = s
         /\ parse_datetime strptime (arg_start_time a) = inl e)
        \/ (arg_end_time a = s
            /\ (exists d, parse_datetime strptime (arg_start_time a)
                          = inr d)
            /\ parse_datetime strptime (arg_end_time a) = inl e) ->
        snd (main strptime w fuel a st) = Exit 1
        /\ st_trace (fst (main strptime w fuel a st)) = st_trace st
        /\ st_fs (fst (main strptime w fuel a st)) = st_fs st
        /\ st_err (fst (main strptime w fuel a st))
           = st_err st ++ ["Error: " +:+ exn_str e]).
Proof.
  split; [reflexivity |]. unfold parse_datetime.
  split; [| split; [| split]].
  - intros d. rewrite <- try_formats_first.
    destruct (try_formats strptime s formats); split; congruence.
  - rewrite <- try_formats_none.
    destruct (try_formats strptime s formats); split;
      try discriminate; eauto.
    intros (e & He). discriminate.
  - intros e. destruct (try_formats strptime s formats); intros [= <-].
    unfold unparsable. eauto.
  - intros a st e H.
    rewrite (main_unparsable a st e); [simpl; auto |].
    destruct H as [[_ H] | (_ & H1 & H2)]; auto.
Qed.

(** C5. When the parsed start time is not before the parsed end time,
    [main] writes its error to stderr and exits with status 1; the log
    stays as it was: no camera object is built, no network call and no
    filesystem call is issued, and the disk is untouched. *)
Theorem main_rejects_empty_range (a : args) (s : state)
    (start_time_ end_time : datetime) :
  parse_datetime strptime (arg_start_time a) = inr start_time_ ->
  parse_datetime strptime (arg_end_time a) = inr end_time ->
  PyDate.geb start_time_ end_time = true ->
  main strptime w fuel a s
  = (State (st_trace s) (st_fs s) (st_out s)
           (st_err s ++ ["Error: start-time must be before end-time"]),
     Exit 1).
Proof.
  intros Hs He Hge. unfold main. rewrite Hs, He, Hge. reflexivity.
Qed.

End CommandLineFacts.

(** ["yesterday"] is no date: [main] exits with status 1. *)
Lemma parse_datetime_first_format_witness :
  snd (main Sample.strptime Sample.camera 0
            (Sample.cli "yesterday" "2024-01-02") (boot Sample.empty_disk))
  = Exit 1.
Proof.
  refine (proj1 (proj2 (proj2 (proj2 (proj2
    (parse_datetime_first_format Sample.strptime Sample.camera 0
       "yesterday"))))
    (Sample.cli "yesterday" "2024-01-02") (boot Sample.empty_disk)
    (unparsable "yesterday") _)).
  left. split; [reflexivity | vm_compute; reflexivity].
Defined.

(** A range that ends where it starts is rejected before anything is
    done. *)
Lemma main_rejects_empty_range_witness :
  main Sample.strptime Sample.camera 0
       (Sample.cli "2024-01-02" "2024/01/02 00:00") (boot Sample.empty_disk)
  = (State [] Sample.empty_disk []
           ["Error: start-time must be before end-time"],
     Exit 1).
Proof.
  apply (main_rejects_empty_range Sample.strptime Sample.camera 0
           (Sample.cli "2024-01-02" "2024/01/02 00:00")
           (boot Sample.empty_disk)
           (Sample.jan 2 0 0 0) (Sample.jan 2 0 0 0));
    vm_compute; reflexivity.
Defined.

(** * Output file names *)

Lemma length_append (p q : string) :
  String.length (p +:+ q) = (String.length p + String.length q)%nat.
Proof. induction p; simpl; auto. Qed.

Lemma append_assoc (p q r : string) : (p +:+ q) +:+ r = p +:+ (q +:+ r).
Proof.
  induction p as [|c p IH]; [reflexivity |].
  change (String c ((p +:+ q) +:+ r) = String c (p +:+ (q +:+ r))).
  now rewrite IH.
Qed.

Lemma substring_all (s : string) : substring 0 (String.length s) s = s.
Proof. induction s; simpl; congruence. Qed.

Lemma substring_head (p q : string) :
  substring 0 (String.length p) (p +:+ q) = p.
Proof.
  induction p as [|c p IH]; simpl.
  - destruct q; reflexivity.
  - now rewrite IH.
Qed.

Lemma substring_skip (p q : string) (n : nat) :
  substring (String.length p) n (p +:+ q) = substring 0 n q.
Proof. induction p; simpl; auto. Qed.

Lemma substring_split (s : string) (n : nat) :
  (n <= String.length s)%nat ->
  s = substring 0 n s +:+ substring n (String.length s - n) s.
Proof.
  revert n. induction s as [|c s IH]; intros n Hn; simpl in *.
  - destruct n; [reflexivity | lia].
  - destruct n as [|n]; simpl.
    + now rewrite substring_all.
    + change (String c s
              = String c (substring 0 n s
                          +:+ substring n (String.length s - n) s)).
      f_equal. apply IH. lia.
Qed.

(** [endswith] is the suffix test. *)
Lemma endswith_iff (s suffix : string) :
  PyStr.endswith s suffix = true <-> exists p, s = p +:+ suffix.
Proof.
  unfold PyStr.endswith. rewrite andb_true_iff, Nat.leb_le, String.eqb_eq.
  split.
  - intros [Hlen Hsub].
    exists (substring 0 (String.length s - String.length suffix) s).
    pose proof (substring_split s
                  (String.length s - String.length suffix)
                  ltac:(lia)) as Hsp.
    replace (String.length s - (String.length s - String.length suffix))%nat
      with (String.length suffix) in Hsp by lia.
    now rewrite Hsub in Hsp.
  - intros [p ->]. rewrite length_append. split; [lia |].
    replace (String.length p + String.length suffix - String.length suffix)%nat
      with (String.length p) by lia.
    rewrite substring_skip. apply substring_all.
Qed.

(** [s[:-n]] removes a suffix of length [n]. *)
Lemma drop_last_append (p suffix : string) :
  PyStr.drop_last (String.length suffix) (p +:+ suffix) = p.
Proof.
  unfold PyStr.drop_last. rewrite length_append.
  replace (String.length p + String.length suffix - String.length suffix)%nat
    with (String.length p) by lia.
  apply substring_head.
Qed.

(** Lines 113-114 remove one trailing [".mp4"] when there is one. *)
Lemma strip_mp4_spec (s : string) :
  without_suffix ".mp4" s
    (if PyStr.endswith s ".mp4" then PyStr.drop_last 4 s else s).
Proof.
  destruct (PyStr.endswith s ".mp4") eqn:He.
  - apply endswith_iff in He. destruct He as [p ->]. left.
    pose proof (drop_last_append p ".mp4") as Hd.
    change (String.length ".mp4") with 4%nat in Hd. now rewrite Hd.
  - right. split; [| reflexivity]. intros p ->.
    assert (PyStr.endswith (p +:+ ".mp4") ".mp4" = true)
      by (apply endswith_iff; eauto).
    congruence.
Qed.

(** ** The files the script opens *)

Section Opens.

Variables (start_time_ end_time : datetime) (output_dir : path).

Lemma no_open_opens_output evs :
  Forall (fun ev => forall q, ev_call ev <> Open q) evs ->
  Forall (opens_output output_dir) evs.
Proof.
  apply List.Forall_impl. intros ev H q Hq. now destruct (H q).
Qed.

Lemma copy_run_opens p evs r : copy_run p evs r -> Forall (opens_output output_dir) evs.
Proof.
  intros H. apply no_open_opens_output.
  induction H; repeat constructor; auto; discriminate.
Qed.

Lemma file_run_opens ch idx f evs r :
  file_run output_dir ch idx f evs r -> Forall (opens_output output_dir) evs.
Proof.
  assert (Hone : forall c r', (forall q, c <> Open q) ->
                              Forall (opens_output output_dir) [EvOk c r'])
    by (intros c r' Hc; repeat constructor; intros q Hq; now destruct (Hc q)).
  assert (Herr : forall c e, (forall q, c <> Open q) ->
                             Forall (opens_output output_dir) [EvErr c e])
    by (intros c e Hc; repeat constructor; intros q Hq; now destruct (Hc q)).
  destruct 1 as [e | evs r evs' r' Hs Hf].
  { apply Herr. discriminate. }
  constructor; [intros q Hq; discriminate |].
  assert (Hsave : Forall (opens_output output_dir) evs).
  { destruct Hs as [e | evs0 r0 evs0' r0' Hc Hf0].
    - repeat constructor. intros q [= <-]. unfold output_path. eauto.
    - constructor; [intros q [= <-]; unfold output_path; eauto |].
      apply copy_run_opens in Hc.
      destruct Hf0; auto; apply Forall_app; split; auto;
        first [apply Hone | apply Herr]; discriminate. }
  destruct Hf; auto; apply Forall_app; split; auto;
    first [apply Hone | apply Herr]; discriminate.
Qed.

Lemma videos_run_opens ip username password evs r :
  videos_run start_time_ end_time output_dir ip username password evs r ->
  Forall (opens_output output_dir) evs.
Proof.
  assert (Hq : forall l,
             Forall (fun ev => is_day_query (ev_call ev) = true) l ->
             Forall (opens_output output_dir) l).
  { intros l Hl. apply no_open_opens_output.
    eapply List.Forall_impl; [| exact Hl]. simpl.
    intros ev Hev q Hx. rewrite Hx in Hev. discriminate. }
  destruct 1 as [e | evs r0 evs' r' Hs Hf].
  { repeat constructor. intros q Hx. discriminate. }
  do 2 (constructor; [intros q Hx; discriminate |]).
  assert (Hses : Forall (opens_output output_dir) evs).
  { destruct Hs as [e | h Hh | h ch e Hh | h ch files Hh
                    | h ch sts files evs1 r1 Hh Hs Hc Hr
                    | h ch sts files evs1 Hh Hs Hc
                    | h ch sts files evs1 all evs2 r2 Hh Hs Hc Hall Hd];
      repeat (constructor; [intros q Hx; discriminate |]);
      try constructor.
    - apply Hq. eapply collect_run_queries; eauto.
    - apply Hq. eapply collect_run_queries; eauto.
    - apply Forall_app. split.
      + apply Hq. eapply collect_run_queries; eauto.
      + revert Hd. apply loop_run_Forall. intros.
        eapply file_run_opens; eauto. }
  destruct Hf; auto; apply Forall_app; split; auto;
    repeat constructor; intros q Hx; discriminate.
Qed.

End Opens.

(** C2. For a recording with a non-empty [file_name] and a [start_time],
    the output file name is the start time formatted with
    [%Y%m%d_%H%M%S], an underscore, the base name of [file_name] with one
    trailing [.mp4] removed if present, and [.mp4]; whatever the
    recording, the output file name ends with [.mp4]; and the files a run
    opens are the files of that name in the output directory. *)
Theorem output_filename_spec :
  (forall idx f t,
      file_name f <> "" -> start_time f = Some t ->
      exists stem,
        without_suffix ".mp4" (PyPath.name (file_name f)) stem
        /\ output_filename idx f
           = PyDate.strftime "%Y%m%d_%H%M%S" t +:+ "_" +:+ stem +:+ ".mp4")
  /\ (forall idx f, PyStr.endswith (output_filename idx f) ".mp4" = true)
  /\ (forall w fuel ip username password start_time_ end_time output_dir
             fs0 q,
        In (Open q)
           (map ev_call (videos_log w fuel ip username password start_time_
                                    end_time output_dir fs0)) ->
        exists idx f,
          q = PyPath.child output_dir (output_filename idx f)).
Proof.
  split; [| split].
  - intros idx f t Hname Hstart.
    exists (if PyStr.endswith (PyPath.name (file_name f)) ".mp4"
            then PyStr.drop_last 4 (PyPath.name (file_name f))
            else PyPath.name (file_name f)).
    split; [apply strip_mp4_spec |].
    unfold output_filename, timestamp_str, clean_name. rewrite Hstart.
    apply String.eqb_neq in Hname. rewrite Hname. reflexivity.
  - intros idx f. apply endswith_iff. unfold output_filename.
    exists (timestamp_str idx f +:+ "_" +:+ clean_name idx f).
    now rewrite !append_assoc.
  - intros w fuel ip username password start_time_ end_time output_dir
           fs0 q Hin.
    destruct (videos_log_shape w fuel ip username password start_time_
                end_time output_dir fs0) as [Hshape _].
    apply videos_run_opens in Hshape.
    apply in_map_iff in Hin as (ev & Hev & Hin).
    rewrite List.Forall_forall in Hshape. now apply (Hshape ev Hin).
Qed.

(** The first recording of the sample camera on 1 January, 12:00. *)
Lemma output_filename_spec_witness :
  exists stem,
    without_suffix ".mp4" "RecM01_120000.mp4" stem
    /\ output_filename 1 (Sample.recording (Sample.jan 1 12 0 0))
       = "20240101_120000" +:+ "_" +:+ stem +:+ ".mp4".
Proof.
  apply (proj1 output_filename_spec 1
               (Sample.recording (Sample.jan 1 12 0 0))
               (Sample.jan 1 12 0 0)).
  - vm_compute. discriminate.
  - reflexivity.
Defined.

(** * The output directory *)

Lemma is_dir_add_dir fs p q :
  Disk.is_dir fs q = true -> Disk.is_dir (Disk.add_dir p fs) q = true.
Proof.
  unfold Disk.is_dir, Disk.add_dir. simpl.
  rewrite !orb_true_iff, !bool_decide_eq_true, elem_of_union. tauto.
Qed.

Lemma is_dir_add_dir_same fs p : Disk.is_dir (Disk.add_dir p fs) p = true.
Proof.
  unfold Disk.is_dir, Disk.add_dir. simpl.
  rewrite !orb_true_iff, !bool_decide_eq_true, elem_of_union,
    elem_of_singleton.
  auto.
Qed.

(** [mkdir_walk] only adds directories, and the last one it visits is
    there when it is done. *)
Lemma mkdir_walk_spec todo : forall fs done fs',
  Disk.mkdir_walk fs done todo = inr fs' ->
  (forall q, Disk.is_dir fs q = true -> Disk.is_dir fs' q = true)
  /\ (Disk.is_dir fs done = true \/ todo <> [] ->
      Disk.is_dir fs' (done ++ todo) = true).
Proof.
  induction todo as [|c rest IH]; intros fs done fs' H; simpl in H.
  { injection H as <-. split; auto. rewrite app_nil_r.
    intros [|]; congruence. }
  destruct (Disk.is_dir fs (done ++ [c])) eqn:Hd.
  - apply IH in H as [Hmono Hlast]. split; auto.
    intros _. rewrite (app_assoc done [c] rest : done ++ c :: rest = _).
    apply Hlast. auto.
  - destruct (Disk.is_file fs (done ++ [c])); [discriminate |].
    apply IH in H as [Hmono Hlast]. split.
    + intros q Hq. apply Hmono. now apply is_dir_add_dir.
    + intros _. rewrite (app_assoc done [c] rest : done ++ c :: rest = _).
      apply Hlast. left. apply is_dir_add_dir_same.
Qed.

(** [mkdir(parents=True, exist_ok=True)] that succeeds leaves the
    directory in place, and keeps every directory that was there. *)
Lemma mkdir_parents_spec fs p fs' :
  Disk.mkdir true true fs p = inr fs' ->
  Disk.is_dir fs' p = true
  /\ forall q, Disk.is_dir fs q = true -> Disk.is_dir fs' q = true.
Proof.
  unfold Disk.mkdir. destruct (Disk.is_dir fs p) eqn:Hd.
  - intros [= <-]. auto.
  - intros H. destruct (mkdir_walk_spec p fs [] fs' H) as [Hmono Hlast].
    split; [apply Hlast; left; reflexivity | exact Hmono].
Qed.

(** ** The directories above *)

(** Where every directory has its parent, a directory has all the
    directories above it. *)
Lemma parents_exist_above fs above : forall below,
  parents_exist fs ->
  Disk.is_dir fs (above ++ below) = true -> Disk.is_dir fs above = true.
Proof.
  induction below as [|x below IH] using rev_ind; intros Hwf H.
  - now rewrite app_nil_r in H.
  - apply IH; [exact Hwf |]. apply Hwf in H.
    now rewrite app_assoc, removelast_last in H.
Qed.

(** [mkdir_walk] leaves a directory at every step of its way. *)
Lemma mkdir_walk_above todo : forall fs done fs' k rest,
  Disk.mkdir_walk fs done todo = inr fs' ->
  Disk.is_dir fs done = true ->
  todo = k ++ rest ->
  Disk.is_dir fs' (done ++ k) = true.
Proof.
  induction todo as [|c todo IH]; intros fs done fs' k rest H Hd Hk.
  - destruct k; [| discriminate]. simpl in H. injection H as <-.
    now rewrite app_nil_r.
  - destruct k as [|c' k].
    { rewrite app_nil_r.
      now apply (proj1 (mkdir_walk_spec _ _ _ _ H)). }
    injection Hk as <- ->. simpl in H.
    rewrite (app_assoc done [c] k : done ++ c :: k = _).
    destruct (Disk.is_dir fs (done ++ [c])) eqn:Hc.
    + eapply IH; eauto.
    + destruct (Disk.is_file fs (done ++ [c])); [discriminate |].
      eapply IH; eauto. apply is_dir_add_dir_same.
Qed.

(** [mkdir(parents=True, exist_ok=True)] that succeeds leaves a
    directory at the path and at every path above it. *)
Lemma mkdir_parents_above fs p fs' above below :
  parents_exist fs ->
  Disk.mkdir true true fs p = inr fs' ->
  p = above ++ below ->
  Disk.is_dir fs' above = true.
Proof.
  unfold Disk.mkdir. intros Hwf H ->.
  destruct (Disk.is_dir fs (above ++ below)) eqn:Hd.
  - injection H as <-. eapply parents_exist_above; eauto.
  - apply (mkdir_walk_above _ _ _ _ above below H); reflexivity.
Qed.

Lemma is_dir_add_dir_inv fs p q :
  Disk.is_dir (Disk.add_dir p fs) q = true ->
  q = p \/ Disk.is_dir fs q = true.
Proof.
  unfold Disk.is_dir, Disk.add_dir. simpl.
  rewrite !orb_true_iff, !bool_decide_eq_true, elem_of_union,
    elem_of_singleton.
  tauto.
Qed.

(** A directory added inside a directory keeps every directory in a
    directory. *)
Lemma add_dir_parents_exist fs p :
  parents_exist fs ->
  Disk.is_dir fs (removelast p) = true ->
  parents_exist (Disk.add_dir p fs).
Proof.
  intros Hwf Hp q Hq. apply is_dir_add_dir.
  apply is_dir_add_dir_inv in Hq as [-> | Hq]; auto.
Qed.

Lemma mkdir_walk_parents_exist todo : forall fs done fs',
  Disk.mkdir_walk fs done todo = inr fs' ->
  Disk.is_dir fs done = true ->
  parents_exist fs -> parents_exist fs'.
Proof.
  induction todo as [|c todo IH]; intros fs done fs' H Hd Hwf; simpl in H.
  { now injection H as <-. }
  destruct (Disk.is_dir fs (done ++ [c])) eqn:Hc; [eauto |].
  destruct (Disk.is_file fs (done ++ [c])); [discriminate |].
  eapply IH; [exact H | apply is_dir_add_dir_same |].
  apply add_dir_parents_exist; [exact Hwf |].
  now rewrite removelast_last.
Qed.

(** No call puts a directory where there is none to hold it. *)
Lemma effect_parents_exist c fs fs' :
  Disk.effect c fs = inr fs' -> parents_exist fs -> parents_exist fs'.
Proof.
  intros He Hwf.
  destruct c; simpl in He; try (injection He as <-; exact Hwf).
  - unfold Disk.mkdir, Disk.mkdir_single in He.
    destruct parents.
    + destruct (Disk.is_dir fs p) eqn:Hd.
      * destruct exist_ok; [now injection He as <- | discriminate].
      * eapply mkdir_walk_parents_exist; eauto.
    + destruct (Disk.is_dir fs p) eqn:Hd.
      * destruct exist_ok; [now injection He as <- | discriminate].
      * destruct (Disk.is_file fs p); [discriminate |].
        destruct (Disk.is_dir fs (removelast p)) eqn:Hp; [| discriminate].
        injection He as <-. now apply add_dir_parents_exist.
  - unfold Disk.open_wb in He.
    destruct (Disk.is_dir fs p); [discriminate |].
    destruct (Disk.is_dir fs (removelast p)); [| discriminate].
    injection He as <-. exact Hwf.
Qed.

Lemma replay_parents_exist evs : forall fs fs',
  Disk.replay fs evs = Some fs' -> parents_exist fs -> parents_exist fs'.
Proof.
  induction evs as [|ev evs IH]; intros fs fs' H Hwf; simpl in H.
  { now injection H as <-. }
  destruct (Disk.apply fs ev) as [fs1|] eqn:Ha; [| discriminate].
  eapply IH; eauto.
  destruct ev as [c r|c e]; simpl in Ha.
  - destruct (Disk.effect c fs) as [|fs1'] eqn:He; [discriminate |].
    injection Ha as <-. eapply effect_parents_exist; eauto.
  - now injection Ha as <-.
Qed.

(** No call the script issues removes a directory. *)
Lemma effect_keeps_dirs c fs fs' q :
  Disk.effect c fs = inr fs' ->
  (forall parents exist_ok p, c = Mkdir p parents exist_ok ->
                              parents = true /\ exist_ok = true) ->
  Disk.is_dir fs q = true -> Disk.is_dir fs' q = true.
Proof.
  intros He Hmk Hq.
  destruct c; simpl in He; try (injection He as <-; exact Hq).
  - destruct (Hmk _ _ _ eq_refl) as [-> ->].
    apply mkdir_parents_spec in He. now apply He.
  - unfold Disk.open_wb in He.
    destruct (Disk.is_dir fs p); [discriminate |].
    destruct (Disk.is_dir fs (removelast p)); [| discriminate].
    injection He as <-. exact Hq.
Qed.

Lemma replay_keeps_dirs evs : forall fs fs' q,
  Disk.replay fs evs = Some fs' ->
  Forall (fun ev => forall parents exist_ok p,
            ev_call ev = Mkdir p parents exist_ok ->
            parents = true /\ exist_ok = true) evs ->
  Disk.is_dir fs q = true -> Disk.is_dir fs' q = true.
Proof.
  induction evs as [|ev evs IH]; intros fs fs' q H HF Hq; simpl in H.
  { now injection H as <-. }
  inversion HF as [|? ? Hev HF']; subst.
  destruct (Disk.apply fs ev) as [fs1|] eqn:Ha; [| discriminate].
  eapply IH; eauto.
  destruct ev as [c r|c e]; simpl in Ha.
  - destruct (Disk.effect c fs) as [|fs1'] eqn:He; [discriminate |].
    injection Ha as <-. eapply effect_keeps_dirs; eauto.
  - now injection Ha as <-.
Qed.

(** After the first call, the script creates no directory. *)
Lemma session_run_no_mkdir st et dir evs r :
  session_run st et dir evs r ->
  Forall (fun ev => forall parents exist_ok p,
            ev_call ev = Mkdir p parents exist_ok ->
            parents = true /\ exist_ok = true) evs.
Proof.
  intros H. apply session_run_calls in H
    as (status & days & downloads & Hc & Hst & Hd & Ht & _).
  apply List.Forall_forall. intros ev Hin pa ex p Hev.
  assert (Hin' : In (Mkdir p pa ex) (map ev_call evs)).
  { rewrite <- Hev. now apply in_map. }
  rewrite Hc in Hin'. exfalso.
  destruct Hin' as [Hx | Hin']; [discriminate |].
  rewrite !in_app_iff in Hin'. destruct Hin' as [Hin' | [Hin' | Hin']].
  - destruct Hst as [-> | [ch ->]]; simpl in Hin'; intuition discriminate.
  - rewrite List.Forall_forall in Hd. apply Hd in Hin'. discriminate.
  - rewrite List.Forall_forall in Ht. apply Ht in Hin'. discriminate.
Qed.

(** C10. [download_videos] creates the output directory, with its
    missing parents, before anything else: the first call of every run is
    [mkdir(parents=True, exist_ok=True)], and when it raises nothing
    follows.  A directory that is already there is not an error.  So on
    every run that gets to talk to the camera, also when connecting then
    fails, the directory exists when the run is over; and so does every
    directory above it, those that were missing included, on a disk on
    which every directory had its parent, as it then still has. *)
Theorem output_dir_created_first (w : world) (fuel : nat)
    (ip username password : string) (start_time_ end_time : datetime)
    (output_dir : path) (fs0 : filesystem) :
  (exists ev rest,
      videos_log w fuel ip username password start_time_ end_time
                 output_dir fs0 = ev :: rest
      /\ ev_call ev = Mkdir output_dir true true
      /\ (ev_failed ev = true -> rest = []))
  /\ (Disk.is_dir fs0 output_dir = true ->
      Disk.mkdir true true fs0 output_dir = inr fs0
      /\ (disk_fault w [] (Mkdir output_dir true true) = None ->
          exists rest,
            videos_log w fuel ip username password start_time_ end_time
                       output_dir fs0
            = EvOk (Mkdir output_dir true true) RNone :: rest))
  /\ (forall ev,
        In ev (videos_log w fuel ip username password start_time_
                          end_time output_dir fs0) ->
        network_call (ev_call ev) = true ->
        Disk.is_dir (videos_disk w fuel ip username password start_time_
                                 end_time output_dir fs0) output_dir
        = true)
  /\ (parents_exist fs0 ->
      forall ev above below,
        In ev (videos_log w fuel ip username password start_time_
                          end_time output_dir fs0) ->
        network_call (ev_call ev) = true ->
        output_dir = above ++ below ->
        Disk.is_dir (videos_disk w fuel ip username password start_time_
                                 end_time output_dir fs0) above
        = true)
  /\ (parents_exist fs0 ->
      parents_exist (videos_disk w fuel ip username password start_time_
                                 end_time output_dir fs0)).
Proof.
  destruct (videos_log_shape w fuel ip username password start_time_
              end_time output_dir fs0) as [Hshape Hreplay].
  split; [| split; [| split; [| split]]].
  - destruct Hshape; do 2 eexists; repeat split; eauto. discriminate.
  - intros Hdir.
    assert (Hmk : Disk.mkdir true true fs0 output_dir = inr fs0).
    { unfold Disk.mkdir. now rewrite Hdir. }
    split; [exact Hmk |]. intros Hfault.
    apply (download_videos_mkdir_ok w fuel ip username password
             start_time_ end_time output_dir (boot fs0) fs0 Hfault Hmk).
  - intros ev Hin Hnet. revert Hshape Hreplay Hin.
    generalize (videos_log w fuel ip username password start_time_
                           end_time output_dir fs0) as log.
    generalize (videos_outcome w fuel ip username password start_time_
                               end_time output_dir fs0) as r.
    generalize (videos_disk w fuel ip username password start_time_
                            end_time output_dir fs0) as fs'.
    intros fs' r log Hshape Hreplay Hin.
    destruct Hshape as [e | evs r0 evs' r' Hs Hf].
    { destruct Hin as [<- | []]. discriminate. }
    cbn [Disk.replay Disk.apply Disk.effect] in Hreplay.
    destruct (Disk.mkdir true true fs0 output_dir) as [|fs1] eqn:Hmk;
      [discriminate |].
    apply mkdir_parents_spec in Hmk as [Hdir _].
    eapply replay_keeps_dirs; eauto.
    apply session_run_no_mkdir in Hs.
    destruct (finally_run_inv _ _ _ _ _ Hf)
      as [(-> & -> & ->) | [(Hr & -> & ->) | (Hr & e & -> & ->)]];
      auto; apply Forall_app; split; auto;
      repeat constructor; simpl; intros; discriminate.
  - intros Hwf ev above below Hin Hnet Hout. revert Hshape Hreplay Hin.
    generalize (videos_log w fuel ip username password start_time_
                           end_time output_dir fs0) as log.
    generalize (videos_outcome w fuel ip username password start_time_
                               end_time output_dir fs0) as r.
    generalize (videos_disk w fuel ip username password start_time_
                            end_time output_dir fs0) as fs'.
    intros fs' r log Hshape Hreplay Hin.
    destruct Hshape as [e | evs r0 evs' r' Hs Hf].
    { destruct Hin as [<- | []]. discriminate. }
    cbn [Disk.replay Disk.apply Disk.effect] in Hreplay.
    destruct (Disk.mkdir true true fs0 output_dir) as [|fs1] eqn:Hmk;
      [discriminate |].
    pose proof (mkdir_parents_above _ _ _ _ _ Hwf Hmk Hout) as Hdir.
    eapply replay_keeps_dirs; eauto.
    apply session_run_no_mkdir in Hs.
    destruct (finally_run_inv _ _ _ _ _ Hf)
      as [(-> & -> & ->) | [(Hr & -> & ->) | (Hr & e & -> & ->)]];
      auto; apply Forall_app; split; auto;
      repeat constructor; simpl; intros; discriminate.
  - intros Hwf. eapply replay_parents_exist; eauto.
Qed.

(** On the empty disk no directory lacks its parent. *)
Lemma empty_disk_parents_exist : parents_exist Sample.empty_disk.
Proof.
  intros p H. unfold Disk.is_dir in *. simpl in *.
  rewrite !orb_true_iff, !bool_decide_eq_true in H.
  destruct H as [[-> | ->] | H]; [reflexivity | reflexivity |].
  now apply elem_of_empty in H.
Qed.

(** The camera refuses the connection; [videos/front] was to be created
    on an empty disk: [videos], which was missing, is there all the
    same. *)
Lemma output_dir_created_first_witness :
  Disk.is_dir
    (videos_disk Sample.camera_unreachable 5 "192.168.1.10" "admin"
       "secret" (Sample.jan 1 12 0 0) (Sample.jan 2 8 0 0)
       ["videos"; "front"] Sample.empty_disk)
    ["videos"]
  = true.
Proof.
  apply (proj1 (proj2 (proj2 (proj2
           (output_dir_created_first Sample.camera_unreachable 5
              "192.168.1.10" "admin" "secret" (Sample.jan 1 12 0 0)
              (Sample.jan 2 8 0 0) ["videos"; "front"]
              Sample.empty_disk))))
           empty_disk_parents_exist
           (EvErr GetHostData (ReolinkError "connection refused"))
           ["videos"] ["front"]).
  - vm_compute. auto.
  - reflexivity.
  - reflexivity.
Defined.

(** * The order of operations *)

(** C4. On every run that reaches the camera, the calls are, in this
    order: creating the directory and building the client, connecting
    ([get_host_data]), the status-only query (one, unless the run ends
    before it), the per-day queries, the calls of the download loop, and
    the logout.  So every per-day query comes before every download, and
    the logout is the last call of every run that ends, whether it
    returns or raises. *)
Theorem operations_in_order (w : world) (fuel : nat)
    (ip username password : string) (start_time_ end_time : datetime)
    (output_dir : path) (fs0 : filesystem) :
  In GetHostData
     (map ev_call (videos_log w fuel ip username password start_time_
                              end_time output_dir fs0)) ->
  exists status days downloads final,
    map ev_call (videos_log w fuel ip username password start_time_
                            end_time output_dir fs0)
    = [Mkdir output_dir true true; HostNew ip username password;
       GetHostData]
      ++ status ++ days ++ downloads ++ final
    /\ (status = []
        \/ exists ch, status = [RequestVodFiles ch start_time_ end_time true])
    /\ Forall (fun c => is_day_query c = true) days
    /\ Forall (fun c => is_transfer c = true) downloads
    /\ (status = [] -> days = [] /\ downloads = [])
    /\ (final = [Logout]
        \/ (final = []
            /\ videos_outcome w fuel ip username password start_time_
                              end_time output_dir fs0 = Pending)).
Proof.
  destruct (videos_log_shape w fuel ip username password start_time_
              end_time output_dir fs0) as [Hshape _].
  revert Hshape.
  generalize (videos_log w fuel ip username password start_time_
                         end_time output_dir fs0) as log.
  generalize (videos_outcome w fuel ip username password start_time_
                             end_time output_dir fs0) as r.
  intros r log Hshape Hin.
  destruct Hshape as [e | evs r0 evs' r' Hs Hf].
  { simpl in Hin. destruct Hin as [|[]]; discriminate. }
  destruct (session_run_calls _ _ _ _ _ Hs)
    as (status & days & downloads & Hcalls & Hst & Hd & Ht & Hnone).
  exists status, days, downloads.
  destruct (finally_run_inv _ _ _ _ _ Hf)
    as [(-> & -> & ->) | [(Hr & -> & ->) | (Hr & e & -> & ->)]].
  - exists []. simpl. rewrite Hcalls, !app_nil_r. auto 10.
  - exists [Logout]. simpl. rewrite map_app, Hcalls. simpl.
    rewrite <- !app_assoc. auto 10.
  - exists [Logout]. simpl. rewrite map_app, Hcalls. simpl.
    rewrite <- !app_assoc. auto 10.
Qed.

(** The run of the sample camera over two days reaches the camera. *)
Lemma operations_in_order_witness :
  exists status days downloads final,
    map ev_call (videos_log Sample.camera 5 "192.168.1.10" "admin" "secret"
                   (Sample.jan 1 12 0 0) (Sample.jan 2 8 0 0)
                   ["downloads"] Sample.empty_disk)
    = [Mkdir ["downloads"] true true;
       HostNew "192.168.1.10" "admin" "secret"; GetHostData]
      ++ status ++ days ++ downloads ++ final
    /\ (status = []
        \/ exists ch, status = [RequestVodFiles ch (Sample.jan 1 12 0 0)
                                  (Sample.jan 2 8 0 0) true])
    /\ Forall (fun c => is_day_query c = true) days
    /\ Forall (fun c => is_transfer c = true) downloads
    /\ (status = [] -> days = [] /\ downloads = [])
    /\ (final = [Logout]
        \/ (final = []
            /\ videos_outcome Sample.camera 5 "192.168.1.10" "admin"
                 "secret" (Sample.jan 1 12 0 0) (Sample.jan 2 8 0 0)
                 ["downloads"] Sample.empty_disk = Pending)).
Proof.
  apply (operations_in_order Sample.camera 5 "192.168.1.10" "admin" "secret"
           (Sample.jan 1 12 0 0) (Sample.jan 2 8 0 0) ["downloads"]
           Sample.empty_disk).
  vm_compute. auto.
Defined.

(** * Download streams are closed *)

Lemma streams_after_app st e1 e2 :
  streams_after st (e1 ++ e2) = streams_after (streams_after st e1) e2.
Proof. apply fold_left_app. Qed.

Section Streams.

Variables (start_time_ end_time : datetime) (output_dir : path).

Lemma copy_run_streams p evs r :
  copy_run p evs r -> streams_after (Some true) evs = Some true.
Proof. induction 1; simpl; auto. Qed.

Lemma save_run_streams p evs r :
  save_run p evs r -> streams_after (Some true) evs = Some true.
Proof.
  destruct 1 as [e | evs r evs' r' Hc Hf]; [reflexivity |].
  apply copy_run_streams in Hc.
  change (streams_after (Some true) evs' = Some true).
  destruct Hf; auto; now rewrite streams_after_app, Hc.
Qed.

(** One file: the stream is closed again, unless the copy is still
    running. *)
Lemma file_run_streams ch idx f evs r :
  file_run output_dir ch idx f evs r ->
  streams_after (Some false) evs
  = Some (match r with Pending => true | _ => false end).
Proof.
  destruct 1 as [e | evs r evs' r' Hs Hf]; [reflexivity |].
  apply save_run_streams in Hs.
  change (streams_after (Some true) evs'
          = Some match omap (fun _ : unit => idx + 1) r' with
                 | Pending => true
                 | _ => false
                 end).
  destruct Hf as [evs | evs r Hr | evs r e Hr].
  - now rewrite Hs.
  - rewrite streams_after_app, Hs. destruct r; simpl; congruence.
  - now rewrite streams_after_app, Hs.
Qed.

Lemma download_run_streams ch files idx evs r :
  loop_run (file_run output_dir ch) files idx evs r ->
  streams_after (Some false) evs
  = Some (match r with Pending => true | _ => false end).
Proof.
  induction 1 as [acc | x xs acc evs r Hb Hr
                  | x xs acc evs acc' evs' r Hb Hl IH].
  - reflexivity.
  - eapply file_run_streams; eauto.
  - apply file_run_streams in Hb. now rewrite streams_after_app, Hb.
Qed.

(** The queries touch no stream. *)
Lemma queries_streams st evs :
  Forall (fun ev => is_day_query (ev_call ev) = true) evs ->
  streams_after (Some st) evs = Some st.
Proof.
  induction 1 as [|ev evs Hq _ IH]; [reflexivity |].
  simpl. destruct (ev_call ev); try discriminate. exact IH.
Qed.

Lemma collect_run_pending ch sts evs r :
  collect_run start_time_ end_time ch sts evs r -> r <> Pending.
Proof.
  assert (Hday : forall y m acc d evs r,
             day_run start_time_ end_time ch y m acc d evs r ->
             r <> Pending)
    by (destruct 1; discriminate).
  assert (Hst : forall acc st evs r,
             status_run start_time_ end_time ch acc st evs r ->
             r <> Pending).
  { unfold status_run. induction 1; eauto; discriminate. }
  unfold collect_run. induction 1; eauto; discriminate.
Qed.

Lemma session_run_streams evs r :
  session_run start_time_ end_time output_dir evs r ->
  streams_after (Some false) evs
  = Some (match r with Pending => true | _ => false end).
Proof.
  destruct 1 as [e | h Hh | h ch e Hh | h ch files Hh
                 | h ch sts files evs r Hh Hs Hc Hr
                 | h ch sts files evs Hh Hs Hc
                 | h ch sts files evs all evs' r Hh Hs Hc Hall Hd];
    try reflexivity.
  - change (streams_after (Some false) evs
            = Some match omap (fun _ => tt) r with
                   | Pending => true
                   | _ => false
                   end).
    pose proof (collect_run_pending _ _ _ _ Hc).
    rewrite queries_streams by (eapply collect_run_queries; eauto).
    destruct r; simpl; congruence.
  - change (streams_after (Some false) evs = Some false).
    apply queries_streams. eapply collect_run_queries; eauto.
  - change (streams_after (Some false) (evs ++ evs')
            = Some match omap (fun _ => tt) r with
                   | Pending => true
                   | _ => false
                   end).
    rewrite streams_after_app, queries_streams
      by (eapply collect_run_queries; eauto).
    rewrite (download_run_streams _ _ _ _ _ Hd). now destruct r.
Qed.

Lemma videos_run_streams ip username password evs r :
  videos_run start_time_ end_time output_dir ip username password evs r ->
  streams_after (Some false) evs
  = Some (match r with Pending => true | _ => false end).
Proof.
  destruct 1 as [e | evs r0 evs' r' Hs Hf]; [reflexivity |].
  apply session_run_streams in Hs.
  change (streams_after (Some false) evs'
          = Some match r' with Pending => true | _ => false end).
  destruct Hf as [evs | evs r Hr | evs r e Hr].
  - exact Hs.
  - rewrite streams_after_app, Hs. destruct r; simpl; congruence.
  - rewrite streams_after_app, Hs. destruct r; simpl; congruence.
Qed.

End Streams.

Lemma streams_after_none evs : streams_after None evs = None.
Proof. induction evs; simpl; auto. Qed.

(** A stream that is open and closed at the end was closed on the way. *)
Lemma streams_closed_on_the_way evs :
  streams_after (Some true) evs = Some false ->
  In VodClose (map ev_call evs).
Proof.
  induction evs as [|ev evs IH]; simpl; [discriminate |].
  destruct (ev_call ev); simpl; auto;
    rewrite streams_after_none; discriminate.
Qed.

(** C9. On every run that ends, every download that was started has its
    [close()] called before the next download starts and before the
    logout, whatever raised in between: followed through the log, no
    stream is open at the end, and none is closed twice or used without
    being open.  In particular each opening of an output file, each read
    and each write, whether it returned or raised, is followed by the
    [close()] of the download. *)
Theorem streams_are_closed (w : world) (fuel : nat)
    (ip username password : string) (start_time_ end_time : datetime)
    (output_dir : path) (fs0 : filesystem) :
  videos_outcome w fuel ip username password start_time_ end_time
                 output_dir fs0 <> Pending ->
  streams_after (Some false)
    (videos_log w fuel ip username password start_time_ end_time
                output_dir fs0)
  = Some false
  /\ forall before ev after,
      videos_log w fuel ip username password start_time_ end_time
                 output_dir fs0 = before ++ ev :: after ->
      uses_stream (ev_call ev) = true ->
      In VodClose (map ev_call after).
Proof.
  intros Hr.
  destruct (videos_log_shape w fuel ip username password start_time_
              end_time output_dir fs0) as [Hshape _].
  assert (Hend : streams_after (Some false)
                   (videos_log w fuel ip username password start_time_
                               end_time output_dir fs0) = Some false).
  { rewrite (videos_run_streams _ _ _ _ _ _ _ _ Hshape).
    destruct (videos_outcome w fuel ip username password start_time_
                end_time output_dir fs0); congruence. }
  split; [exact Hend |].
  intros before ev after Hlog Huse. rewrite Hlog in Hend.
  rewrite streams_after_app in Hend. simpl in Hend.
  apply streams_closed_on_the_way.
  destruct (streams_after (Some false) before) as [[|]|];
    simpl in Hend; destruct (ev_call ev); simpl in *;
    try discriminate; try exact Hend;
    rewrite streams_after_none in Hend; discriminate.
Qed.

(** The disk is full: the first write raises, and the stream is closed
    all the same. *)
Lemma streams_are_closed_witness :
  streams_after (Some false)
    (videos_log Sample.camera_disk_full 5 "192.168.1.10" "admin" "secret"
       (Sample.jan 1 12 0 0) (Sample.jan 2 8 0 0) ["downloads"]
       Sample.empty_disk)
  = Some false
  /\ forall before ev after,
      videos_log Sample.camera_disk_full 5 "192.168.1.10" "admin" "secret"
        (Sample.jan 1 12 0 0) (Sample.jan 2 8 0 0) ["downloads"]
        Sample.empty_disk = before ++ ev :: after ->
      uses_stream (ev_call ev) = true ->
      In VodClose (map ev_call after).
Proof.
  apply (streams_are_closed Sample.camera_disk_full 5 "192.168.1.10"
           "admin" "secret" (Sample.jan 1 12 0 0) (Sample.jan 2 8 0 0)
           ["downloads"] Sample.empty_disk).
  vm_compute. discriminate.
Defined.

(** * Day-by-day iteration *)

(** ** The order on datetimes *)

Lemma ltb_iff a b : PyDate.ltb a b = true <-> lex_lt a b.
Proof.
  unfold PyDate.ltb, PyDate.cmp, lex_lt.
  destruct (Z.compare_spec (dt_year a) (dt_year b));
    [| split; [lia | reflexivity] | split; [discriminate | lia]].
  destruct (Z.compare_spec (dt_month a) (dt_month b));
    [| split; [lia | reflexivity] | split; [discriminate | lia]].
  destruct (Z.compare_spec (dt_day a) (dt_day b));
    [| split; [lia | reflexivity] | split; [discriminate | lia]].
  destruct (Z.compare_spec (dt_hour a) (dt_hour b));
    [| split; [lia | reflexivity] | split; [discriminate | lia]].
  destruct (Z.compare_spec (dt_minute a) (dt_minute b));
    [| split; [lia | reflexivity] | split; [discriminate | lia]].
  destruct (Z.compare_spec (dt_second a) (dt_second b));
    split; try discriminate; try reflexivity; lia.
Qed.

Lemma leb_iff a b : PyDate.leb a b = true <-> ~ lex_lt b a.
Proof.
  unfold PyDate.leb. rewrite negb_true_iff, <- ltb_iff.
  destruct (PyDate.ltb b a); split; congruence.
Qed.

Lemma leb_ltb a b : PyDate.leb a b = true <-> PyDate.ltb b a = false.
Proof. unfold PyDate.leb. apply negb_true_iff. Qed.

Lemma leb_refl a : PyDate.leb a a = true.
Proof. apply leb_iff. unfold lex_lt. lia. Qed.

Lemma leb_trans a b c :
  PyDate.leb a b = true -> PyDate.leb b c = true -> PyDate.leb a c = true.
Proof. rewrite !leb_iff. unfold lex_lt. lia. Qed.

Lemma leb_total a b : PyDate.leb a b = true \/ PyDate.leb b a = true.
Proof. rewrite !leb_iff. unfold lex_lt. lia. Qed.

(** [max] and [min] are the larger and the smaller of their arguments. *)
Lemma max_spec a b :
  (PyDate.max a b = a \/ PyDate.max a b = b)
  /\ PyDate.leb a (PyDate.max a b) = true
  /\ PyDate.leb b (PyDate.max a b) = true.
Proof.
  unfold PyDate.max, PyDate.gtb.
  destruct (PyDate.ltb a b) eqn:H.
  - repeat split; auto using leb_refl.
    apply leb_iff. apply ltb_iff in H. unfold lex_lt in *. lia.
  - repeat split; auto using leb_refl.
    unfold PyDate.leb. now rewrite H.
Qed.

Lemma min_spec a b :
  (PyDate.min a b = a \/ PyDate.min a b = b)
  /\ PyDate.leb (PyDate.min a b) a = true
  /\ PyDate.leb (PyDate.min a b) b = true.
Proof.
  unfold PyDate.min.
  destruct (PyDate.ltb b a) eqn:H.
  - repeat split; auto using leb_refl.
    apply leb_iff. apply ltb_iff in H. unfold lex_lt in *. lia.
  - repeat split; auto using leb_refl.
    unfold PyDate.leb. now rewrite H.
Qed.

(** Line 82 tests whether the day meets the requested range. *)
Lemma in_range_intersects st et y m d :
  PyDate.leb st et = true ->
  in_range st et y m d = true <->
  intersects (day_start y m d) (day_end y m d) st et.
Proof.
  intros Hrange. unfold in_range, intersects, PyDate.gtb.
  rewrite negb_true_iff, orb_false_iff, <- !leb_ltb. split.
  - intros [H1 H2].
    destruct (max_spec (day_start y m d) st) as ([E | E] & Ha & Hb);
      exists (PyDate.max (day_start y m d) st);
      repeat split; auto; rewrite E; auto.
    apply leb_iff. unfold lex_lt, day_start, day_end. simpl. lia.
  - intros (t & H1 & H2 & H3 & H4). split; eauto using leb_trans.
Qed.

(** ** The queries the loops issue *)

Lemma filter_all {A} (P : A -> bool) l :
  Forall (fun x => P x = true) l -> List.filter P l = l.
Proof. induction 1 as [|x l Hx _ IH]; simpl; [| rewrite Hx, IH]; auto. Qed.

Lemma filter_none {A} (P Q : A -> bool) l :
  (forall x, Q x = true -> P x = false) ->
  Forall (fun x => Q x = true) l -> List.filter P l = [].
Proof.
  intros HPQ. induction 1 as [|x l Hx _ IH]; simpl; auto.
  now rewrite (HPQ x Hx).
Qed.

(** A loop whose iterations each issue their planned calls, or a prefix
    of them when they stop, issues the plan of the whole list, or a
    prefix of it when it stops. *)
Lemma loop_run_plan {A B}
    (R : B -> A -> list event -> outcome B -> Prop)
    (plan : A -> list call) :
  (forall acc x evs r,
      R acc x evs r ->
      map ev_call evs `prefix_of` plan x
      /\ (returned r = true -> map ev_call evs = plan x)) ->
  forall xs acc evs r,
    loop_run R xs acc evs r ->
    map ev_call evs `prefix_of` flat_map plan xs
    /\ (returned r = true -> map ev_call evs = flat_map plan xs).
Proof.
  intros HR xs acc evs r H.
  induction H as [acc | x xs acc evs r Hb Hr
                  | x xs acc evs acc' evs' r Hb Hl IH]; simpl.
  - split; [apply prefix_nil | reflexivity].
  - destruct (HR _ _ _ _ Hb) as [Hp _]. split; [| congruence].
    now apply prefix_app_r.
  - destruct (HR _ _ _ _ Hb) as [_ He]. destruct IH as [IHp IHe].
    rewrite map_app, (He eq_refl). split.
    + now apply prefix_app.
    + intros Hr. now rewrite IHe.
Qed.

Section Days.

Variables (start_time_ end_time : datetime) (output_dir : path).

Lemma day_run_plan ch y m acc d evs r :
  day_run start_time_ end_time ch y m acc d evs r ->
  map ev_call evs `prefix_of` planned_day start_time_ end_time ch y m d
  /\ (returned r = true ->
      map ev_call evs = planned_day start_time_ end_time ch y m d).
Proof.
  unfold planned_day.
  destruct 1 as [e Hv | Hv Hin | e Hv Hin | sts files Hv Hin];
    try rewrite Hin; simpl; split; auto; try discriminate;
    apply prefix_nil.
Qed.

Lemma collect_run_plan ch sts evs r :
  collect_run start_time_ end_time ch sts evs r ->
  map ev_call evs `prefix_of` planned_queries start_time_ end_time ch sts
  /\ (returned r = true ->
      map ev_call evs = planned_queries start_time_ end_time ch sts).
Proof.
  apply loop_run_plan. intros acc st evs' r'.
  apply loop_run_plan. intros acc' d evs'' r''. apply day_run_plan.
Qed.

(** The per-day queries in the log of the outer [try] body. *)
Lemma session_run_day_queries evs r ch sts files :
  session_run start_time_ end_time output_dir evs r ->
  In (EvOk (RequestVodFiles ch start_time_ end_time true) (RVod sts files))
     evs ->
  day_queries_of evs `prefix_of` planned_queries start_time_ end_time ch sts
  /\ (returned r = true
      \/ Exists (fun ev => is_transfer (ev_call ev) = true) evs ->
      day_queries_of evs = planned_queries start_time_ end_time ch sts).
Proof.
  assert (Hq_in : forall l,
             Forall (fun ev => is_day_query (ev_call ev) = true) l ->
             ~ In (EvOk (RequestVodFiles ch start_time_ end_time true)
                        (RVod sts files)) l).
  { intros l Hl Hin. rewrite List.Forall_forall in Hl.
    apply Hl in Hin. discriminate. }
  assert (Ht_in : forall l,
             Forall (fun ev => is_transfer (ev_call ev) = true) l ->
             ~ In (EvOk (RequestVodFiles ch start_time_ end_time true)
                        (RVod sts files)) l).
  { intros l Hl Hin. rewrite List.Forall_forall in Hl.
    apply Hl in Hin. discriminate. }
  assert (Hq_tr : forall l,
             Forall (fun ev => is_day_query (ev_call ev) = true) l ->
             ~ Exists (fun ev => is_transfer (ev_call ev) = true) l).
  { intros l Hl Hex. apply List.Exists_exists in Hex as (ev & Hin & Ht).
    rewrite List.Forall_forall in Hl. apply Hl in Hin.
    destruct (ev_call ev); discriminate. }
  assert (Hfq : forall l,
             Forall (fun ev => is_day_query (ev_call ev) = true) l ->
             day_queries_of l = map ev_call l).
  { intros l Hl. unfold day_queries_of. apply filter_all.
    now rewrite Forall_map. }
  assert (Hft : forall l,
             Forall (fun ev => is_transfer (ev_call ev) = true) l ->
             day_queries_of l = []).
  { intros l Hl. unfold day_queries_of.
    apply (filter_none is_day_query is_transfer).
    - intros c Hc. destruct c; try discriminate; reflexivity.
    - now rewrite Forall_map. }
  destruct 1 as [e | h Hh | h ch' e Hh | h ch' files' Hh
                 | h ch' sts' files' evs r Hh Hs Hc Hr
                 | h ch' sts' files' evs Hh Hs Hc
                 | h ch' sts' files' evs all evs' r Hh Hs Hc Hall Hd];
    simpl; intros Hin.
  - intuition discriminate.
  - intuition discriminate.
  - intuition discriminate.
  - destruct Hin as [Hx | [Hx | []]]; [discriminate |].
    injection Hx as E1 E2 E3; subst ch sts files. split; [apply prefix_nil |]. reflexivity.
  - pose proof (collect_run_queries _ _ _ _ _ _ Hc) as Hq.
    destruct Hin as [Hx | [Hx | Hx]]; [discriminate | | now apply Hq_in in Hx].
    injection Hx as E1 E2 E3; subst ch sts files.
    change (day_queries_of evs `prefix_of`
              planned_queries start_time_ end_time ch' sts'
            /\ (returned (omap (fun _ => tt) r) = true
                \/ Exists (fun ev => is_transfer (ev_call ev) = true)
                     (EvOk GetHostData (RHost h)
                      :: EvOk (status_query start_time_ end_time ch')
                              (RVod sts' files') :: evs) ->
                day_queries_of evs
                = planned_queries start_time_ end_time ch' sts')).
    rewrite (Hfq _ Hq). destruct (collect_run_plan _ _ _ _ Hc) as [Hp _].
    split; [exact Hp |]. intros [Hret | Hex].
    + destruct r; discriminate.
    + inversion Hex as [? ? Hx | ? ? Hex']; subst; [discriminate |].
      inversion Hex' as [? ? Hx | ? ? Hex'']; subst; [discriminate |].
      now apply Hq_tr in Hex''.
  - pose proof (collect_run_queries _ _ _ _ _ _ Hc) as Hq.
    destruct Hin as [Hx | [Hx | Hx]]; [discriminate | | now apply Hq_in in Hx].
    injection Hx as E1 E2 E3; subst ch sts files.
    change (day_queries_of evs `prefix_of`
              planned_queries start_time_ end_time ch' sts'
            /\ (true = true
                \/ Exists (fun ev => is_transfer (ev_call ev) = true)
                     (EvOk GetHostData (RHost h)
                      :: EvOk (status_query start_time_ end_time ch')
                              (RVod sts' files') :: evs) ->
                day_queries_of evs
                = planned_queries start_time_ end_time ch' sts')).
    rewrite (Hfq _ Hq). destruct (collect_run_plan _ _ _ _ Hc) as [Hp He].
    split; [exact Hp | intros _; now apply He].
  - pose proof (collect_run_queries _ _ _ _ _ _ Hc) as Hq.
    pose proof (download_run_transfers _ _ _ _ _ _ Hd) as Ht.
    destruct Hin as [Hx | [Hx | Hx]]; [discriminate | |].
    2:{ apply in_app_iff in Hx as [Hx | Hx];
          [now apply Hq_in in Hx | now apply Ht_in in Hx]. }
    injection Hx as E1 E2 E3; subst ch sts files.
    assert (Heq : day_queries_of
                    (EvOk GetHostData (RHost h)
                     :: EvOk (status_query start_time_ end_time ch')
                             (RVod sts' files') :: evs ++ evs')
                  = planned_queries start_time_ end_time ch' sts').
    { change (day_queries_of (evs ++ evs')
              = planned_queries start_time_ end_time ch' sts').
      unfold day_queries_of. rewrite map_app, List.filter_app.
      fold (day_queries_of evs) (day_queries_of evs').
      rewrite (Hfq _ Hq), (Hft _ Ht), app_nil_r.
      now apply (collect_run_plan _ _ _ _ Hc). }
    rewrite Heq. split; [reflexivity | auto].
Qed.

End Days.

Lemma day_queries_of_app l1 l2 :
  day_queries_of (l1 ++ l2) = day_queries_of l1 ++ day_queries_of l2.
Proof. unfold day_queries_of. now rewrite map_app, List.filter_app. Qed.

(** C1. Day-by-day iteration with range clamping.  The status list is
    walked entry by entry and day by day; for each listed day a per-day
    query is issued exactly when the day's interval [00:00:00, 23:59:59]
    meets the requested range, with [start = max(day start, start_time)]
    and [end = min(day end, end_time)].  The queries in the log are the
    planned ones, in order: all of them when the run returns or gets to
    the downloads, and the first of them when an exception ends the
    iteration early. *)
Theorem per_day_queries (w : world) (fuel : nat)
    (ip username password : string) (start_time_ end_time : datetime)
    (output_dir : path) (fs0 : filesystem)
    (channel : Z) (status_list : list vod_status) (files : list vod_file) :
  In (EvOk (RequestVodFiles channel start_time_ end_time true)
           (RVod status_list files))
     (videos_log w fuel ip username password start_time_ end_time
                 output_dir fs0) ->
  day_queries_of (videos_log w fuel ip username password start_time_
                             end_time output_dir fs0)
    `prefix_of` planned_queries start_time_ end_time channel status_list
  /\ (videos_outcome w fuel ip username password start_time_ end_time
                     output_dir fs0 = Returned tt
      \/ Exists (fun ev => is_transfer (ev_call ev) = true)
           (videos_log w fuel ip username password start_time_ end_time
                       output_dir fs0) ->
      day_queries_of (videos_log w fuel ip username password start_time_
                                 end_time output_dir fs0)
      = planned_queries start_time_ end_time channel status_list)
  /\ (forall y m d,
        planned_day start_time_ end_time channel y m d
        = if in_range start_time_ end_time y m d
          then [RequestVodFiles channel
                  (PyDate.max (DateTime y m d 0 0 0) start_time_)
                  (PyDate.min (DateTime y m d 23 59 59) end_time) false]
          else [])
  /\ (PyDate.leb start_time_ end_time = true ->
      forall y m d,
        in_range start_time_ end_time y m d = true <->
        intersects (DateTime y m d 0 0 0) (DateTime y m d 23 59 59)
                   start_time_ end_time).
Proof.
  intros Hin.
  destruct (videos_log_shape w fuel ip username password start_time_
              end_time output_dir fs0) as [Hshape _].
  revert Hshape Hin.
  generalize (videos_log w fuel ip username password start_time_
                         end_time output_dir fs0) as log.
  generalize (videos_outcome w fuel ip username password start_time_
                             end_time output_dir fs0) as r.
  intros r log Hshape Hin.
  split; [| split; [| split]]; try reflexivity.
  3:{ intros Hle y m d. now apply in_range_intersects. }
  all: destruct Hshape as [e | evs r0 evs' r' Hs Hf];
    [destruct Hin as [|[]]; discriminate |].
  all: destruct Hin as [Hx | [Hx | Hin]]; try discriminate.
  all: change (EvOk (Mkdir output_dir true true) RNone
               :: EvOk (HostNew ip username password) RNone :: evs')
         with ([EvOk (Mkdir output_dir true true) RNone;
                EvOk (HostNew ip username password) RNone] ++ evs').
  all: rewrite day_queries_of_app;
    change (day_queries_of
              [EvOk (Mkdir output_dir true true) RNone;
               EvOk (HostNew ip username password) RNone]) with (@nil call);
    rewrite app_nil_l.
  all: destruct (finally_run_inv _ _ _ _ _ Hf)
      as [(-> & -> & ->) | [(Hr & -> & ->) | (Hr & e & -> & ->)]].
  all: try (rewrite day_queries_of_app, app_nil_r).
  all: try (apply in_app_iff in Hin as [Hin | [Hx | []]];
            [| discriminate]).
  all: destruct (session_run_day_queries _ _ _ _ _ _ _ _ Hs Hin)
      as [Hp He]; try exact Hp.
  - intros [Hx | Hex]; [discriminate |]. apply He. right.
    apply List.Exists_app in Hex as [Hex | Hex]; [| exact Hex].
    inversion Hex as [? ? Hx | ? ? Hex']; subst; [discriminate |].
    inversion Hex' as [? ? Hx | ? ? Hex'']; subst; [discriminate |].
    inversion Hex''.
  - intros [-> | Hex]; [apply He; now left |]. apply He. right.
    apply List.Exists_app in Hex as [Hex | Hex].
    { inversion Hex as [? ? Hx | ? ? Hex']; subst; [discriminate |].
      inversion Hex' as [? ? Hx | ? ? Hex'']; subst; [discriminate |].
      inversion Hex''. }
    apply List.Exists_app in Hex as [Hex | Hex]; [exact Hex |].
    inversion Hex as [? ? Hx | ? ? Hex']; subst; [discriminate |].
    inversion Hex'.
  - intros [Hx | Hex]; [discriminate |]. apply He. right.
    apply List.Exists_app in Hex as [Hex | Hex].
    { inversion Hex as [? ? Hx | ? ? Hex']; subst; [discriminate |].
      inversion Hex' as [? ? Hx | ? ? Hex'']; subst; [discriminate |].
      inversion Hex''. }
    apply List.Exists_app in Hex as [Hex | Hex]; [exact Hex |].
    inversion Hex as [? ? Hx | ? ? Hex']; subst; [discriminate |].
    inversion Hex'.
Qed.

(** The sample camera, asked for 1 January 12:00 to 2 January 08:00:
    the 1st and the 2nd are queried, clamped to the range; the 3rd is
    not. *)
Lemma per_day_queries_witness :
  day_queries_of
    (videos_log Sample.camera 5 "192.168.1.10" "admin" "secret"
       (Sample.jan 1 12 0 0) (Sample.jan 2 8 0 0) ["downloads"]
       Sample.empty_disk)
  = [RequestVodFiles 0 (Sample.jan 1 12 0 0) (Sample.jan 1 23 59 59) false;
     RequestVodFiles 0 (Sample.jan 2 0 0 0) (Sample.jan 2 8 0 0) false].
Proof.
  refine (proj1 (proj2
    (per_day_queries Sample.camera 5 "192.168.1.10" "admin" "secret"
       (Sample.jan 1 12 0 0) (Sample.jan 2 8 0 0) ["downloads"]
       Sample.empty_disk 0 [VodStatus 2024 1 [1; 2; 3]] [] _)) _).
  - vm_compute. auto 6.
  - left. vm_compute. reflexivity.
Defined.


(** * Following the open output file *)

Lemma files_after_app st e1 e2 :
  files_after st (e1 ++ e2) = files_after (files_after st e1) e2.
Proof. apply fold_left_app. Qed.

Lemma files_after_none evs : files_after None evs = None.
Proof. induction evs; simpl; auto. Qed.

Section Handles.

Variables (start_time_ end_time : datetime) (output_dir : path).

Lemma copy_run_files p evs r :
  copy_run p evs r -> files_after (Some (Some p)) evs = Some (Some p).
Proof.
  induction 1; simpl; rewrite ?decide_True by reflexivity; auto.
Qed.

(** One [with] block: the file is closed again, unless the copy is still
    running. *)
Lemma save_run_files p evs r :
  save_run p evs r ->
  files_after (Some None) evs
  = Some (match r with Pending => Some p | _ => None end).
Proof.
  destruct 1 as [e | evs r evs' r' Hc Hf]; [reflexivity |].
  apply copy_run_files in Hc.
  change (files_after (Some (Some p)) evs'
          = Some match r' with Pending => Some p | _ => None end).
  destruct Hf as [evs | evs r Hr | evs r e Hr].
  - exact Hc.
  - rewrite files_after_app, Hc. simpl.
    rewrite decide_True by reflexivity. destruct r; congruence.
  - rewrite files_after_app, Hc. simpl.
    now rewrite decide_True by reflexivity.
Qed.

Lemma file_run_files ch idx f evs r :
  file_run output_dir ch idx f evs r ->
  files_after (Some None) evs
  = Some (match r with
          | Pending => Some (output_path output_dir idx f)
          | _ => None
          end).
Proof.
  destruct 1 as [e | evs r evs' r' Hs Hf]; [reflexivity |].
  apply save_run_files in Hs.
  change (files_after (Some None) evs'
          = Some match omap (fun _ : unit => idx + 1) r' with
                 | Pending => Some (output_path output_dir idx f)
                 | _ => None
                 end).
  destruct Hf as [evs | evs r Hr | evs r e Hr].
  - exact Hs.
  - rewrite files_after_app, Hs. destruct r; simpl; congruence.
  - rewrite files_after_app, Hs. destruct r; simpl; congruence.
Qed.

Lemma keeps_files_ended {A} evs (r : outcome A) :
  files_after (Some None) evs = Some None -> keeps_files evs r.
Proof. intros H. exists None. auto. Qed.

Lemma file_run_keeps ch idx f evs r :
  file_run output_dir ch idx f evs r -> keeps_files evs r.
Proof.
  intros H. apply file_run_files in H. eexists. split; [exact H |].
  destruct r; congruence.
Qed.

Lemma download_run_keeps ch files idx evs r :
  loop_run (file_run output_dir ch) files idx evs r -> keeps_files evs r.
Proof.
  induction 1 as [acc | x xs acc evs r Hb Hr
                  | x xs acc evs acc' evs' r Hb Hl IH].
  - now apply keeps_files_ended.
  - eapply file_run_keeps; eauto.
  - apply file_run_files in Hb. destruct IH as (cur & Hcur & Hend).
    exists cur. split; [| exact Hend].
    now rewrite files_after_app, Hb.
Qed.

(** The queries open no file. *)
Lemma queries_files evs :
  Forall (fun ev => is_day_query (ev_call ev) = true) evs ->
  files_after (Some None) evs = Some None.
Proof.
  induction 1 as [|ev evs Hq _ IH]; [reflexivity |].
  simpl. destruct (ev_call ev); try discriminate. exact IH.
Qed.

Lemma session_run_keeps evs r :
  session_run start_time_ end_time output_dir evs r -> keeps_files evs r.
Proof.
  destruct 1 as [e | h Hh | h ch e Hh | h ch files Hh
                 | h ch sts files evs r Hh Hs Hc Hr
                 | h ch sts files evs Hh Hs Hc
                 | h ch sts files evs all evs' r Hh Hs Hc Hall Hd];
    try (apply keeps_files_ended; reflexivity).
  - apply keeps_files_ended.
    change (files_after (Some None) evs = Some None).
    apply queries_files. eapply collect_run_queries; eauto.
  - apply keeps_files_ended.
    change (files_after (Some None) evs = Some None).
    apply queries_files. eapply collect_run_queries; eauto.
  - destruct (download_run_keeps _ _ _ _ _ Hd) as (cur & Hcur & Hend).
    exists cur. split.
    + change (files_after (Some None) (evs ++ evs') = Some cur).
      rewrite files_after_app, queries_files
        by (eapply collect_run_queries; eauto).
      exact Hcur.
    + intros Hr. apply Hend. destruct r; simpl in *; congruence.
Qed.

Lemma videos_run_keeps ip username password evs r :
  videos_run start_time_ end_time output_dir ip username password evs r ->
  keeps_files evs r.
Proof.
  destruct 1 as [e | evs r0 evs' r' Hs Hf];
    [apply keeps_files_ended; reflexivity |].
  destruct (session_run_keeps _ _ Hs) as (cur & Hcur & Hend).
  unfold keeps_files.
  change (exists cur0,
             files_after (Some None) evs' = Some cur0
             /\ (r' <> Pending -> cur0 = None)).
  destruct Hf as [evs | evs r Hr | evs r e Hr].
  - exists cur. split; [exact Hcur | congruence].
  - rewrite (Hend Hr) in Hcur. exists None.
    split; [now rewrite files_after_app, Hcur | reflexivity].
  - rewrite (Hend Hr) in Hcur. exists None.
    split; [now rewrite files_after_app, Hcur | reflexivity].
Qed.

End Handles.

(** A file is open only when it has been opened. *)
Lemma file_open_was_opened p l :
  files_after (Some None) l = Some (Some p) ->
  exists rp, In (EvOk (Open p) rp) l.
Proof.
  induction l as [|ev l IH] using rev_ind; [discriminate |].
  rewrite files_after_app. simpl. intros H.
  destruct (files_after (Some None) l) as [[q|]|]; simpl in H;
    [| | discriminate].
  - assert (Hq : q = p).
    { destruct (ev_call ev) as [| | | | | | | q' data | q' | |];
        try discriminate H.
      - now injection H.
      - destruct (decide (q' = q)); [now injection H | discriminate].
      - destruct (decide (q' = q)); discriminate. }
    subst q. destruct (IH eq_refl) as [rp Hin].
    exists rp. apply in_or_app. now left.
  - destruct ev as [c rp|c e]; simpl in H; destruct c; try discriminate H.
    injection H as ->. exists rp. apply in_or_app. right. now left.
Qed.

(** Where the discipline holds, a file that is closed was open. *)
Lemma file_closed_was_open st a1 ev a2 p cur :
  files_after st (a1 ++ ev :: a2) = Some cur ->
  ev_call ev = CloseFile p ->
  files_after st a1 = Some (Some p).
Proof.
  rewrite files_after_app. simpl. intros H E.
  destruct (files_after st a1) as [[q|]|]; simpl in H.
  - rewrite E in H.
    destruct (decide (p = q)) as [-> | Hq]; [reflexivity |].
    rewrite files_after_none in H. discriminate.
  - rewrite E, files_after_none in H. discriminate.
  - rewrite files_after_none in H. discriminate.
Qed.

(** ** And the download stream *)

Lemma stream_open_was_started l :
  streams_after (Some false) l = Some true ->
  exists filename channel rp, In (EvOk (DownloadVod filename channel) rp) l.
Proof.
  induction l as [|ev l IH] using rev_ind; [discriminate |].
  rewrite streams_after_app. simpl. intros H.
  destruct (streams_after (Some false) l) as [[|]|]; simpl in H;
    [| | discriminate].
  - destruct (IH eq_refl) as (fn & ch & rp & Hin).
    exists fn, ch, rp. apply in_or_app. now left.
  - destruct ev as [c rp|c e]; simpl in H; destruct c; try discriminate H.
    do 3 eexists. apply in_or_app. right. now left.
Qed.

Lemma stream_closed_was_open st a1 ev a2 cur :
  streams_after st (a1 ++ ev :: a2) = Some cur ->
  ev_call ev = VodClose ->
  streams_after st a1 = Some true.
Proof.
  rewrite streams_after_app. simpl. intros H E.
  destruct (streams_after st a1) as [[|]|]; simpl in H.
  - reflexivity.
  - rewrite E, streams_after_none in H. discriminate.
  - rewrite streams_after_none in H. discriminate.
Qed.

(** * Streaming downloads *)

Section Downloads.

Variables (start_time_ end_time : datetime) (output_dir : path).

(** A copy loop that returns has written every chunk it read. *)
Lemma copy_run_returned p evs r :
  copy_run p evs r -> r = Returned tt ->
  exists chunks,
    Forall (fun c => c <> []) chunks
    /\ evs = flat_map (chunk_events p) chunks
             ++ [EvOk (StreamRead 8192) (RBytes [])].
Proof.
  induction 1 as [| | e | chunk e Hc | chunk evs r Hc Hrun IH];
    intros Hr; try discriminate.
  - exists []. auto.
  - destruct (IH Hr) as (chunks & Hne & ->).
    exists (chunk :: chunks). split; [constructor; auto | reflexivity].
Qed.

Lemma finally_run_returned {A} c (e1 : list event) (r1 : outcome A) evs a :
  finally_run c e1 r1 evs (Returned a) ->
  r1 = Returned a /\ evs = e1 ++ [EvOk c RNone].
Proof.
  intros H. destruct (finally_run_inv _ _ _ _ _ H)
    as [(_ & _ & Hx) | [(_ & -> & ->) | (_ & e & _ & Hx)]];
    try discriminate; auto.
Qed.

Lemma file_run_returned ch idx f evs n :
  file_run output_dir ch idx f evs (Returned n) ->
  n = idx + 1
  /\ exists chunks,
      Forall (fun c => c <> []) chunks
      /\ evs = file_events (PyPath.child output_dir (output_filename idx f))
                           (file_name f) ch chunks.
Proof.
  inversion 1 as [| evs1 r1 evs' r' Hs Hf Hevs Hr]; subst.
  destruct r' as [[]| |]; try discriminate.
  simpl in Hr. injection Hr as <-. split; [reflexivity |].
  apply finally_run_returned in Hf as [-> ->].
  inversion Hs as [| evs2 r2 evs2' r2' Hc Hf2]; subst.
  apply finally_run_returned in Hf2 as [-> ->].
  destruct (copy_run_returned _ _ _ Hc eq_refl) as (chunks & Hne & ->).
  exists chunks. split; [exact Hne |].
  unfold file_events, output_path. simpl. now rewrite <- !app_assoc.
Qed.

Lemma download_run_returned ch files : forall idx evs n,
  loop_run (file_run output_dir ch) files idx evs (Returned n) ->
  exists css,
    List.length css = List.length files
    /\ Forall (Forall (fun c => c <> [])) css
    /\ evs = downloads_log output_dir ch idx files css.
Proof.
  induction files as [|f files IH]; intros idx evs n H.
  - inversion H; subst. exists []. auto.
  - inversion H as [| ? ? ? ? ? Hb Hr | ? ? ? ? acc' evs' ? Hb Hl]; subst.
    { discriminate. }
    apply file_run_returned in Hb as (-> & chunks & Hne & ->).
    apply IH in Hl as (css & Hlen & Hall & ->).
    exists (chunks :: css). simpl. auto.
Qed.

(** What the collection loops return is what the log shows. *)
Lemma day_run_collected ch y m acc d evs acc' :
  day_run start_time_ end_time ch y m acc d evs (Returned acc') ->
  acc' = acc ++ collected evs.
Proof.
  inversion 1; subst; simpl; now rewrite ?app_nil_r.
Qed.

Lemma loop_run_collected {A}
    (R : list vod_file -> A -> list event -> outcome (list vod_file) -> Prop) :
  (forall acc x evs acc',
      R acc x evs (Returned acc') -> acc' = acc ++ collected evs) ->
  forall xs acc evs acc',
    loop_run R xs acc evs (Returned acc') -> acc' = acc ++ collected evs.
Proof.
  intros HR. induction xs as [|x xs IH]; intros acc evs acc' H.
  - inversion H; subst. now rewrite app_nil_r.
  - inversion H as [| ? ? ? ? ? Hb Hr | ? ? ? ? acc1 evs' ? Hb Hl]; subst.
    { discriminate. }
    apply HR in Hb. apply IH in Hl. subst.
    unfold collected. now rewrite flat_map_app, app_assoc.
Qed.

Lemma collect_run_collected ch sts evs all :
  collect_run start_time_ end_time ch sts evs (Returned all) ->
  all = collected evs.
Proof.
  intros H. apply (loop_run_collected (status_run start_time_ end_time ch))
    in H; [exact H |].
  intros acc st evs' acc'. apply loop_run_collected.
  intros acc0 d evs0 acc0'. apply day_run_collected.
Qed.

Lemma collected_none evs :
  Forall (fun ev => is_day_query (ev_call ev) = false) evs ->
  collected evs = [].
Proof.
  induction 1 as [|ev evs Hq _ IH]; [reflexivity |].
  unfold collected in *. cbn [flat_map]. rewrite IH, app_nil_r.
  destruct ev as [c r|c e]; [| reflexivity].
  destruct c; try reflexivity.
  destruct status_only; [reflexivity | discriminate Hq].
Qed.

Lemma transfers_not_queries evs :
  Forall (fun ev => is_transfer (ev_call ev) = true) evs ->
  Forall (fun ev => is_day_query (ev_call ev) = false) evs.
Proof.
  apply List.Forall_impl. intros ev. destruct (ev_call ev); simpl; congruence.
Qed.

Lemma queries_not_transfers evs :
  Forall (fun ev => is_day_query (ev_call ev) = true) evs ->
  Forall (fun ev => is_transfer (ev_call ev) = false) evs.
Proof.
  apply List.Forall_impl. intros ev. destruct (ev_call ev); simpl; congruence.
Qed.

Lemma downloads_log_transfers ch files : forall idx css,
  Forall (fun ev => is_transfer (ev_call ev) = true)
         (downloads_log output_dir ch idx files css).
Proof.
  assert (Hch : forall p chunks,
             Forall (fun ev => is_transfer (ev_call ev) = true)
                    (flat_map (chunk_events p) chunks)).
  { intros p chunks. induction chunks; simpl; repeat constructor; auto. }
  induction files as [|f files IH]; intros idx [|cs css]; simpl;
    try constructor; auto.
  constructor; [reflexivity |]. rewrite <- app_assoc.
  apply Forall_app. split; [apply Hch |].
  apply Forall_app. split; [repeat constructor | apply IH].
Qed.

(** The downloads in the log of the loop: one per recording, in order. *)
Lemma downloads_log_downloads ch files : forall idx css,
  List.length css = List.length files ->
  List.filter is_download
    (map ev_call (downloads_log output_dir ch idx files css))
  = map (fun f => DownloadVod (file_name f) ch) files.
Proof.
  assert (Hch : forall p chunks,
             List.filter is_download
               (map ev_call (flat_map (chunk_events p) chunks)) = []).
  { intros p chunks. induction chunks; simpl; auto. }
  induction files as [|f files IH]; intros idx [|cs css] Hlen;
    simpl in *; try discriminate; auto.
  rewrite !map_app, !List.filter_app, Hch. simpl.
  rewrite IH by lia. reflexivity.
Qed.


(** ** What ends up on disk *)

Lemma replay_chunks p chunks : forall fs fs' c0,
  Disk.replay fs (flat_map (chunk_events p) chunks) = Some fs' ->
  fs_files fs !! p = Some c0 ->
  fs_files fs' !! p = Some (c0 ++ List.concat chunks)
  /\ forall q, q <> p -> fs_files fs' !! q = fs_files fs !! q.
Proof.
  induction chunks as [|c chunks IH]; intros fs fs' c0 H Hp; simpl in H.
  - injection H as <-. simpl. rewrite app_nil_r. auto.
  - apply IH with (c0 := c0 ++ c) in H.
    + destruct H as [H1 H2]. simpl. rewrite app_assoc. split; [exact H1 |].
      intros q Hq. rewrite (H2 q Hq). unfold Disk.write. simpl.
      now apply lookup_insert_ne.
    + unfold Disk.write. simpl. rewrite Hp. simpl. apply lookup_insert_eq.
Qed.

(** One recording saved without error: its output file holds the chunks
    of its stream, in order; no other file changes. *)
Lemma replay_file_events p fn ch chunks fs fs' :
  Disk.replay fs (file_events p fn ch chunks) = Some fs' ->
  fs_files fs' !! p = Some (List.concat chunks)
  /\ forall q, q <> p -> fs_files fs' !! q = fs_files fs !! q.
Proof.
  unfold file_events. cbn [Disk.replay Disk.apply Disk.effect].
  destruct (Disk.open_wb fs p) as [e|fs1] eqn:Hopen; [discriminate |].
  intros H. apply replay_app_inv in H as (fs2 & H2 & H3).
  simpl in H3. injection H3 as <-.
  unfold Disk.open_wb in Hopen.
  destruct (Disk.is_dir fs p); [discriminate |].
  destruct (Disk.is_dir fs (removelast p)); [| discriminate].
  injection Hopen as <-.
  apply replay_chunks with (c0 := []) in H2.
  - destruct H2 as [H2 H4]. split; [exact H2 |].
    intros q Hq. rewrite (H4 q Hq). simpl. now apply lookup_insert_ne.
  - simpl. apply lookup_insert_eq.
Qed.

Lemma replay_downloads_other ch files : forall idx css fs fs' q,
  Disk.replay fs (downloads_log output_dir ch idx files css) = Some fs' ->
  (forall j f', files !! j = Some f' ->
                PyPath.child output_dir
                  (output_filename (idx + Z.of_nat j) f') <> q) ->
  fs_files fs' !! q = fs_files fs !! q.
Proof.
  induction files as [|f files IH]; intros idx [|cs css] fs fs' q H Hq;
    try (injection H as <-; reflexivity).
  cbn [downloads_log] in H.
  apply replay_app_inv in H as (fs1 & H1 & H2).
  apply replay_file_events in H1 as [_ H1].
  rewrite (IH _ _ _ _ q H2).
  - apply H1. intros ->. apply (Hq 0%nat f eq_refl).
    simpl. now rewrite Z.add_0_r.
  - intros j f' Hj.
    replace (idx + 1 + Z.of_nat j) with (idx + Z.of_nat (S j)) by lia.
    now apply (Hq (S j) f').
Qed.

Lemma replay_downloads_content ch files : forall idx css fs fs' i f cs,
  Disk.replay fs (downloads_log output_dir ch idx files css) = Some fs' ->
  files !! i = Some f -> css !! i = Some cs ->
  (forall j f', (i < j)%nat -> files !! j = Some f' ->
                PyPath.child output_dir
                  (output_filename (idx + Z.of_nat j) f')
                <> PyPath.child output_dir
                     (output_filename (idx + Z.of_nat i) f)) ->
  fs_files fs' !! PyPath.child output_dir
                    (output_filename (idx + Z.of_nat i) f)
  = Some (List.concat cs).
Proof.
  induction files as [|f0 files IH];
    intros idx [|cs0 css] fs fs' i f cs H Hf Hcs Hlast;
    try (destruct i; discriminate).
  cbn [downloads_log] in H. apply replay_app_inv in H as (fs1 & H1 & H2).
  destruct i as [|i]; simpl in Hf, Hcs.
  - injection Hf as ->. injection Hcs as ->.
    apply replay_file_events in H1 as [H1 _].
    rewrite Z.add_0_r in *.
    rewrite (replay_downloads_other _ _ _ _ _ _ _ H2); [exact H1 |].
    intros j f' Hj.
    replace (idx + 1 + Z.of_nat j) with (idx + Z.of_nat (S j)) by lia.
    apply (Hlast (S j) f'); [lia | exact Hj].
  - replace (idx + Z.of_nat (S i)) with (idx + 1 + Z.of_nat i) in * by lia.
    eapply IH; eauto. intros j f' Hj Hl.
    replace (idx + 1 + Z.of_nat j) with (idx + Z.of_nat (S j)) by lia.
    apply (Hlast (S j) f'); [lia | exact Hl].
Qed.

(** The body of the outer [try], when it returns: what it logged before
    the downloads, and the downloads, one per collected recording. *)
Lemma session_run_returned evs :
  session_run start_time_ end_time output_dir evs (Returned tt) ->
  exists before ch css,
    evs = before ++ downloads_log output_dir ch 1 (collected before) css
    /\ Forall (fun ev => is_transfer (ev_call ev) = false) before
    /\ List.length css = List.length (collected before)
    /\ Forall (Forall (fun c => c <> [])) css.
Proof.
  inversion 1 as [e | h Hh | h ch e Hh | h ch files Hh
                  | h ch sts files evs0 r Hh Hs Hc Hr Hevs Hret
                  | h ch sts files evs0 Hh Hs Hc
                  | h ch sts files evs0 all evs' r Hh Hs Hc Hall Hd
                      Hevs Hret]; subst.
  - exists [EvOk GetHostData (RHost h)], 0, []. simpl.
    repeat split; auto.
  - exists [EvOk GetHostData (RHost h);
            EvOk (status_query start_time_ end_time ch) (RVod [] files)],
           ch, [].
    simpl. repeat split; auto.
  - destruct r; discriminate.
  - pose proof (collect_run_queries _ _ _ _ _ _ Hc) as Hq.
    apply collect_run_collected in Hc.
    exists (EvOk GetHostData (RHost h)
            :: EvOk (status_query start_time_ end_time ch) (RVod sts files)
            :: evs0), ch, [].
    change (collected (EvOk GetHostData (RHost h)
                       :: EvOk (status_query start_time_ end_time ch)
                               (RVod sts files) :: evs0))
      with (collected evs0).
    rewrite <- Hc. simpl. rewrite app_nil_r. repeat split; auto.
    repeat constructor. now apply queries_not_transfers.
  - destruct r as [n| |]; try discriminate.
    pose proof (collect_run_queries _ _ _ _ _ _ Hc) as Hq.
    apply collect_run_collected in Hc.
    apply download_run_returned in Hd as (css & Hlen & Hne & ->).
    exists (EvOk GetHostData (RHost h)
            :: EvOk (status_query start_time_ end_time ch) (RVod sts files)
            :: evs0), ch, css.
    change (collected (EvOk GetHostData (RHost h)
                       :: EvOk (status_query start_time_ end_time ch)
                               (RVod sts files) :: evs0))
      with (collected evs0).
    rewrite <- Hc. repeat split; auto.
    repeat constructor. now apply queries_not_transfers.
Qed.

End Downloads.

Lemma collected_app l1 l2 : collected (l1 ++ l2) = collected l1 ++ collected l2.
Proof. apply flat_map_app. Qed.

Lemma no_download_before evs :
  Forall (fun ev => is_transfer (ev_call ev) = false) evs ->
  List.filter is_download (map ev_call evs) = [].
Proof.
  induction 1 as [|ev evs Ht _ IH]; [reflexivity |].
  simpl. rewrite IH. destruct (ev_call ev); try reflexivity; discriminate.
Qed.

Lemma no_download_among evs :
  Forall (fun ev => is_download (ev_call ev) = false) evs ->
  List.filter is_download (map ev_call evs) = [].
Proof.
  induction 1 as [|ev evs Hd _ IH]; [reflexivity |].
  simpl. now rewrite Hd.
Qed.

Lemma copy_run_no_download p evs r :
  copy_run p evs r -> Forall (fun ev => is_download (ev_call ev) = false) evs.
Proof. induction 1; repeat constructor; auto. Qed.

Lemma save_run_no_download p evs r :
  save_run p evs r -> Forall (fun ev => is_download (ev_call ev) = false) evs.
Proof.
  destruct 1 as [e | evs r evs' r' Hc Hf]; repeat constructor.
  apply copy_run_no_download in Hc.
  destruct Hf; auto; apply Forall_app; split; auto; repeat constructor.
Qed.

(** One iteration of the download loop calls [download_vod] once, for its
    own recording, whether it returns or not. *)
Lemma file_run_downloads output_dir ch idx f evs r :
  file_run output_dir ch idx f evs r ->
  List.filter is_download (map ev_call evs) = [DownloadVod (file_name f) ch].
Proof.
  destruct 1 as [e | evs r evs' r' Hs Hf]; [reflexivity |].
  simpl. f_equal. apply no_download_among.
  apply save_run_no_download in Hs.
  destruct Hf; auto; apply Forall_app; split; auto; repeat constructor.
Qed.

(** The download loop calls [download_vod] for the recordings of its list,
    in order, one call each, as far as it gets. *)
Lemma download_run_downloads output_dir ch files idx evs r :
  loop_run (file_run output_dir ch) files idx evs r ->
  List.filter is_download (map ev_call evs)
  `prefix_of` map (fun f => DownloadVod (file_name f) ch) files.
Proof.
  induction 1 as [acc | x xs acc evs r Hb Hr
                  | x xs acc evs acc' evs' r Hb Hl IH]; simpl.
  - apply prefix_nil.
  - rewrite (file_run_downloads _ _ _ _ _ _ Hb).
    apply prefix_cons, prefix_nil.
  - rewrite map_app, List.filter_app, (file_run_downloads _ _ _ _ _ _ Hb).
    simpl. now apply prefix_cons.
Qed.

Lemma session_run_downloads start_time_ end_time output_dir evs r :
  session_run start_time_ end_time output_dir evs r ->
  exists ch,
    List.filter is_download (map ev_call evs)
    `prefix_of` map (fun f => DownloadVod (file_name f) ch) (collected evs).
Proof.
  assert (Hq : forall ch sts evs0 r0,
             collect_run start_time_ end_time ch sts evs0 r0 ->
             List.filter is_download (map ev_call evs0) = []).
  { intros ch sts evs0 r0 Hc. apply no_download_before.
    eapply queries_not_transfers, collect_run_queries; eauto. }
  destruct 1 as [e | h Hh | h ch e Hh | h ch files Hh
                 | h ch sts files evs r Hh Hs Hc Hr
                 | h ch sts files evs Hh Hs Hc
                 | h ch sts files evs all evs' r Hh Hs Hc Hall Hd];
    try (exists 0; apply prefix_nil).
  - exists ch. simpl. rewrite (Hq _ _ _ _ Hc). apply prefix_nil.
  - exists ch. simpl. rewrite (Hq _ _ _ _ Hc). apply prefix_nil.
  - exists ch. simpl.
    rewrite map_app, List.filter_app, (Hq _ _ _ _ Hc), app_nil_l.
    change (collected (EvOk GetHostData (RHost h)
                       :: EvOk (status_query start_time_ end_time ch)
                               (RVod sts files) :: evs ++ evs'))
      with (collected (evs ++ evs')).
    rewrite collected_app.
    rewrite (collected_none evs')
      by (eapply transfers_not_queries, download_run_transfers; eauto).
    rewrite app_nil_r, <- (collect_run_collected _ _ _ _ _ _ Hc).
    eapply download_run_downloads; eauto.
Qed.

Lemma videos_run_downloads start_time_ end_time output_dir ip username
    password log r :
  videos_run start_time_ end_time output_dir ip username password log r ->
  exists ch,
    List.filter is_download (map ev_call log)
    `prefix_of` map (fun f => DownloadVod (file_name f) ch) (collected log).
Proof.
  destruct 1 as [e | evs r evs' r' Hs Hf]; [exists 0; apply prefix_nil |].
  apply session_run_downloads in Hs as [ch Hp]. exists ch.
  change (List.filter is_download (map ev_call evs')
          `prefix_of` map (fun f => DownloadVod (file_name f) ch)
                          (collected evs')).
  destruct Hf; auto; rewrite map_app, List.filter_app, collected_app;
    simpl; now rewrite !app_nil_r.
Qed.

(** C3. [download_vod] is called for the recordings collected into
    [all_vod_files], in order and once each: on every run, for a front
    part of them (the loop stops at the first call that raises); on a run
    that returns, for all of them, after all the queries: the log then
    ends with, for each recording, its download, the opening of its
    output file, the reads of at most 8192 bytes each with the write of
    what each returned, the read that returns the empty chunk, and the
    two closes; then the logout.  The output file of a recording holds
    the chunks read from its stream, in order (when two recordings share
    an output path, the later one's). *)
Theorem downloads_copy_streams (w : world) (fuel : nat)
    (ip username password : string) (start_time_ end_time : datetime)
    (output_dir : path) (fs0 : filesystem) :
  (exists channel,
      List.filter is_download
        (map ev_call (videos_log w fuel ip username password start_time_
                                 end_time output_dir fs0))
      `prefix_of`
      map (fun f => DownloadVod (file_name f) channel)
          (collected (videos_log w fuel ip username password start_time_
                                 end_time output_dir fs0)))
  /\
  (videos_outcome w fuel ip username password start_time_ end_time
                  output_dir fs0 = Returned tt ->
  exists before chunks channel,
    videos_log w fuel ip username password start_time_ end_time
               output_dir fs0
    = before
      ++ downloads_log output_dir channel 1
           (collected (videos_log w fuel ip username password start_time_
                                  end_time output_dir fs0))
           chunks
      ++ [EvOk Logout RNone]
    /\ Forall (fun ev => is_transfer (ev_call ev) = false) before
    /\ List.length chunks
       = List.length (collected (videos_log w fuel ip username password
                                   start_time_ end_time output_dir fs0))
    /\ Forall (Forall (fun c => c <> [])) chunks
    /\ List.filter is_download
         (map ev_call (videos_log w fuel ip username password start_time_
                                  end_time output_dir fs0))
       = map (fun f => DownloadVod (file_name f) channel)
             (collected (videos_log w fuel ip username password
                           start_time_ end_time output_dir fs0))
    /\ forall i f cs,
        collected (videos_log w fuel ip username password start_time_
                              end_time output_dir fs0) !! i = Some f ->
        chunks !! i = Some cs ->
        (forall j f',
            (i < j)%nat ->
            collected (videos_log w fuel ip username password start_time_
                                  end_time output_dir fs0) !! j = Some f' ->
            PyPath.child output_dir (output_filename (1 + Z.of_nat j) f')
            <> PyPath.child output_dir
                 (output_filename (1 + Z.of_nat i) f)) ->
        fs_files (videos_disk w fuel ip username password start_time_
                              end_time output_dir fs0)
          !! PyPath.child output_dir (output_filename (1 + Z.of_nat i) f)
        = Some (List.concat cs)).
Proof.
  destruct (videos_log_shape w fuel ip username password start_time_
              end_time output_dir fs0) as [Hshape Hreplay].
  split; [eapply videos_run_downloads; eauto |].
  revert Hshape Hreplay.
  generalize (videos_log w fuel ip username password start_time_
                         end_time output_dir fs0) as log.
  generalize (videos_outcome w fuel ip username password start_time_
                             end_time output_dir fs0) as r.
  generalize (videos_disk w fuel ip username password start_time_
                          end_time output_dir fs0) as disk.
  intros disk r log Hshape Hreplay ->.
  inversion Hshape as [| evs r0 evs' r' Hs Hf]; subst.
  apply finally_run_returned in Hf as [-> ->].
  apply session_run_returned in Hs
    as (before & ch & css & -> & Hbefore & Hlen & Hne).
  set (head2 := [EvOk (Mkdir output_dir true true) RNone;
                 EvOk (HostNew ip username password) RNone]).
  set (dl := downloads_log output_dir ch 1 (collected before) css) in *.
  assert (Hlog : EvOk (Mkdir output_dir true true) RNone
                 :: EvOk (HostNew ip username password) RNone
                 :: (before ++ dl) ++ [EvOk Logout RNone]
                 = (head2 ++ before) ++ dl ++ [EvOk Logout RNone]).
  { unfold head2. simpl. now rewrite <- !app_assoc. }
  rewrite Hlog in *. clear Hlog.
  assert (Hcol : collected ((head2 ++ before) ++ dl ++ [EvOk Logout RNone])
                 = collected before).
  { rewrite !collected_app.
    rewrite (collected_none dl)
      by (apply transfers_not_queries, downloads_log_transfers).
    simpl. now rewrite !app_nil_r. }
  rewrite Hcol.
  assert (Hb2 : Forall (fun ev => is_transfer (ev_call ev) = false)
                       (head2 ++ before)).
  { apply Forall_app. split; [repeat constructor | exact Hbefore]. }
  exists (head2 ++ before), css, ch.
  repeat split; auto.
  - rewrite (map_app ev_call (head2 ++ before)), List.filter_app.
    rewrite (no_download_before _ Hb2), app_nil_l.
    rewrite map_app, List.filter_app. unfold dl.
    rewrite (downloads_log_downloads _ _ _ _ _ Hlen).
    simpl. now rewrite app_nil_r.
  - intros i f cs Hf Hcs Hlast.
    apply replay_app_inv in Hreplay as (fs1 & _ & H2).
    apply replay_app_inv in H2 as (fs2 & H2 & H3).
    simpl in H3. injection H3 as <-.
    eapply replay_downloads_content; eauto.
Qed.

(** The run of the sample camera over two days returns. *)
Lemma downloads_copy_streams_witness :
  exists before chunks channel,
    videos_log Sample.camera 5 "192.168.1.10" "admin" "secret"
      (Sample.jan 1 12 0 0) (Sample.jan 2 8 0 0) ["downloads"]
      Sample.empty_disk
    = before
      ++ downloads_log ["downloads"] channel 1
           (collected (videos_log Sample.camera 5 "192.168.1.10" "admin"
                         "secret" (Sample.jan 1 12 0 0) (Sample.jan 2 8 0 0)
                         ["downloads"] Sample.empty_disk))
           chunks
      ++ [EvOk Logout RNone]
    /\ List.length chunks = 2%nat.
Proof.
  destruct (downloads_copy_streams Sample.camera 5 "192.168.1.10" "admin"
              "secret" (Sample.jan 1 12 0 0) (Sample.jan 2 8 0 0)
              ["downloads"] Sample.empty_disk)
    as [_ Hreturned].
  destruct Hreturned as (before & chunks & channel & Hlog & _ & Hlen & _).
  - vm_compute. reflexivity.
  - exists before, chunks, channel. split; [exact Hlog |].
    rewrite Hlen. vm_compute. reflexivity.
Defined.

(** * Failures: no retry, cleanup, propagation *)

Lemma fail_stop_mono {A} k k' evs (r : outcome A) :
  fail_stop k evs r -> (k <= k')%nat -> fail_stop k' evs r.
Proof.
  intros [H | (b & t & j & e & H)] Hk; [now left | right].
  exists b, t, j, e. intuition lia.
Qed.

Lemma fail_stop_omap {A B} (f : A -> B) k evs (r : outcome A) :
  fail_stop k evs r -> fail_stop k evs (omap f r).
Proof.
  intros [H | (b & t & j & e & H1 & H2 & H3 & H4 & ->)]; [now left | right].
  exists b, t, j, e. auto.
Qed.

Lemma fail_stop_quiet {A} k evs (r : outcome A) :
  fail_stop k evs r -> (forall e, r <> Raised e) ->
  Forall (fun ev => ev_failed ev = false) evs.
Proof.
  intros [H | (b & t & j & e & _ & _ & _ & _ & ->)] Hr; [exact H |].
  now destruct (Hr e).
Qed.

(** Calls that returned, then a fail-stop block. *)
Lemma fail_stop_prepend {A} k e0 evs (r : outcome A) :
  Forall (fun ev => ev_failed ev = false) e0 ->
  fail_stop k evs r -> fail_stop k (e0 ++ evs) r.
Proof.
  intros H0 [H | (b & t & j & e & -> & Hb & Ht & Hj & ->)].
  - left. apply Forall_app. auto.
  - right. exists (e0 ++ b), t, j, e. rewrite app_assoc.
    repeat split; auto. apply Forall_app. auto.
Qed.

(** A fail-stop block of rank [k] under a [finally] whose cleanup call has
    a higher rank. *)
Lemma fail_stop_finally {A} k c e1 (r1 : outcome A) evs r :
  fail_stop k e1 r1 -> (k < cleanup_rank c)%nat ->
  finally_run c e1 r1 evs r ->
  fail_stop (cleanup_rank c) evs r.
Proof.
  intros H Hk Hf.
  destruct (finally_run_inv _ _ _ _ _ Hf)
    as [(-> & -> & ->) | [(Hr & -> & ->) | (Hr & e & -> & ->)]].
  - left. apply (fail_stop_quiet _ _ _ H). discriminate.
  - destruct H as [H | (b & t & j & e & -> & Hb & Ht & Hj & ->)].
    + left. apply Forall_app. split; auto.
    + right. exists b, (t ++ [EvOk c RNone]), (cleanup_rank c), e.
      rewrite app_assoc. repeat split; auto.
      eapply ft_cleanup_ok; eauto. lia.
  - right. destruct H as [H | (b & t & j & e0 & -> & Hb & Ht & Hj & ->)].
    + exists e1, [EvErr c e], (cleanup_rank c), e.
      repeat split; auto. constructor.
    + exists b, (t ++ [EvErr c e]), (cleanup_rank c), e.
      rewrite app_assoc. repeat split; auto.
      eapply ft_cleanup_err; eauto. lia.
Qed.

Lemma fail_stop_loop {A B}
    (R : B -> A -> list event -> outcome B -> Prop) k :
  (forall acc x evs r, R acc x evs r -> fail_stop k evs r) ->
  forall xs acc evs r, loop_run R xs acc evs r -> fail_stop k evs r.
Proof.
  intros HR xs acc evs r H.
  induction H as [acc | x xs acc evs r Hb Hr
                  | x xs acc evs acc' evs' r Hb Hl IH].
  - left. constructor.
  - eauto.
  - apply fail_stop_prepend; [| exact IH].
    apply (fail_stop_quiet k _ _ (HR _ _ _ _ Hb)). discriminate.
Qed.

Section FailStop.

Variables (start_time_ end_time : datetime) (output_dir : path).

Lemma copy_run_fail_stop p evs r : copy_run p evs r -> fail_stop 0 evs r.
Proof.
  induction 1 as [| | e | chunk e Hc | chunk evs r Hc Hrun IH].
  - left. constructor.
  - left. repeat constructor.
  - right. exists [], [EvErr (StreamRead 8192) e], 0%nat, e.
    repeat split; auto. apply (ft_first (StreamRead 8192)).
  - right. exists [EvOk (StreamRead 8192) (RBytes chunk)],
                  [EvErr (Write p chunk) e], 0%nat, e.
    repeat split; auto. apply (ft_first (Write p chunk)).
  - apply (fail_stop_prepend 0
             [EvOk (StreamRead 8192) (RBytes chunk);
              EvOk (Write p chunk) RNone]); auto.
Qed.

Lemma save_run_fail_stop p evs r : save_run p evs r -> fail_stop 1 evs r.
Proof.
  destruct 1 as [e | evs r evs' r' Hc Hf].
  - right. exists [], [EvErr (Open p) e], 0%nat, e.
    repeat split; auto. apply (ft_first (Open p)).
  - apply (fail_stop_prepend 1 [EvOk (Open p) RNone]); auto.
    apply (fail_stop_finally 0 (CloseFile p) evs r); auto.
    eapply copy_run_fail_stop; eauto.
Qed.

Lemma file_run_fail_stop ch idx f evs r :
  file_run output_dir ch idx f evs r -> fail_stop 2 evs r.
Proof.
  destruct 1 as [e | evs r evs' r' Hs Hf].
  - right. exists [], [EvErr (DownloadVod (file_name f) ch) e], 0%nat, e.
    repeat split; auto. apply (ft_first (DownloadVod (file_name f) ch)).
  - apply fail_stop_omap.
    apply (fail_stop_prepend 2 [EvOk (DownloadVod (file_name f) ch) RNone]);
      auto.
    apply (fail_stop_finally 1 VodClose evs r); auto.
    eapply save_run_fail_stop; eauto.
Qed.

Lemma day_run_fail_stop ch y m acc d evs r :
  day_run start_time_ end_time ch y m acc d evs r -> fail_stop 0 evs r.
Proof.
  destruct 1 as [e Hv | Hv Hin | e Hv Hin | sts files Hv Hin].
  - left. constructor.
  - left. constructor.
  - right. exists [], [EvErr (day_query start_time_ end_time ch y m d) e],
                  0%nat, e.
    repeat split; auto.
    apply (ft_first (day_query start_time_ end_time ch y m d)).
  - left. repeat constructor.
Qed.

Lemma collect_run_fail_stop ch sts evs r :
  collect_run start_time_ end_time ch sts evs r -> fail_stop 0 evs r.
Proof.
  apply fail_stop_loop. intros acc st evs' r'.
  apply fail_stop_loop. intros acc' d evs'' r''. apply day_run_fail_stop.
Qed.

Lemma session_run_fail_stop evs r :
  session_run start_time_ end_time output_dir evs r -> fail_stop 2 evs r.
Proof.
  destruct 1 as [e | h Hh | h ch e Hh | h ch files Hh
                 | h ch sts files evs r Hh Hs Hc Hr
                 | h ch sts files evs Hh Hs Hc
                 | h ch sts files evs all evs' r Hh Hs Hc Hall Hd].
  - right. exists [], [EvErr GetHostData e], 0%nat, e.
    repeat split; auto. apply (ft_first GetHostData).
  - left. repeat constructor.
  - right. exists [EvOk GetHostData (RHost h)],
                  [EvErr (status_query start_time_ end_time ch) e], 0%nat, e.
    repeat split; auto.
    apply (ft_first (status_query start_time_ end_time ch)).
  - left. repeat constructor.
  - apply fail_stop_omap.
    apply (fail_stop_prepend 2
             [EvOk GetHostData (RHost h);
              EvOk (status_query start_time_ end_time ch) (RVod sts files)]);
      auto.
    apply (fail_stop_mono 0); [| lia]. eapply collect_run_fail_stop; eauto.
  - left. repeat constructor.
    apply (fail_stop_quiet 0 _ _ (collect_run_fail_stop _ _ _ _ Hc)).
    discriminate.
  - apply fail_stop_omap.
    apply (fail_stop_prepend 2
             (EvOk GetHostData (RHost h)
              :: EvOk (status_query start_time_ end_time ch) (RVod sts files)
              :: evs)).
    + repeat constructor.
      apply (fail_stop_quiet 0 _ _ (collect_run_fail_stop _ _ _ _ Hc)).
      discriminate.
    + apply (fail_stop_loop (file_run output_dir ch) 2) in Hd; auto.
      intros. eapply file_run_fail_stop; eauto.
Qed.

Lemma videos_run_fail_stop ip username password evs r :
  videos_run start_time_ end_time output_dir ip username password evs r ->
  fail_stop 3 evs r.
Proof.
  destruct 1 as [e | evs r0 evs' r' Hs Hf].
  - right. exists [], [EvErr (Mkdir output_dir true true) e], 0%nat, e.
    repeat split; auto; try (simpl; lia).
    apply (ft_first (Mkdir output_dir true true)).
  - apply (fail_stop_prepend 3
             [EvOk (Mkdir output_dir true true) RNone;
              EvOk (HostNew ip username password) RNone]); auto.
    apply (fail_stop_finally 2 Logout evs r0); auto.
    eapply session_run_fail_stop; eauto.
Qed.

End FailStop.

(** ** Reading a failed tail *)

Lemma failed_tail_ranks k t e :
  failed_tail k t e ->
  Forall (fun ev => (cleanup_rank (ev_call ev) <= k)%nat) t.
Proof.
  induction 1 as [c e | k t e c Ht IH Hk | k t e c e' Ht IH Hk].
  - repeat constructor.
  - apply Forall_app. split; [| repeat constructor].
    eapply List.Forall_impl; [| exact IH]. simpl. intros; lia.
  - apply Forall_app. split; [| repeat constructor].
    eapply List.Forall_impl; [| exact IH]. simpl. intros; lia.
Qed.

Lemma last_error_app b t :
  last_error (b ++ t)
  = match last_error t with Some e => Some e | None => last_error b end.
Proof.
  unfold last_error. rewrite fold_left_app.
  generalize (fold_left (fun acc ev => match ev with
                                       | EvOk _ _ => acc
                                       | EvErr _ e => Some e
                                       end) b None) as acc.
  induction t as [|ev t IH]; intros acc; simpl; [now destruct acc |].
  destruct ev as [c r|c e]; [apply IH |].
  rewrite (IH (Some e)), (IH None).
  destruct (fold_left _ t None); reflexivity.
Qed.

Lemma failed_tail_last_error k t e :
  failed_tail k t e -> last_error t = Some e.
Proof.
  induction 1 as [c e | k t e c Ht IH Hk | k t e c e' Ht IH Hk].
  - reflexivity.
  - rewrite last_error_app. exact IH.
  - rewrite last_error_app. reflexivity.
Qed.

(** Where a list that ends with [x] is cut at [y]. *)
Lemma snoc_split {A} (l : list A) x l1 y l2 :
  l ++ [x] = l1 ++ y :: l2 ->
  (l2 = [] /\ x = y /\ l = l1)
  \/ exists l2', l2 = l2' ++ [x] /\ l = l1 ++ y :: l2'.
Proof.
  intros H. destruct l2 as [|z0 l2].
  - left. apply (app_inj_tail l l1 x y) in H as [-> ->]. auto.
  - destruct (@exists_last _ (z0 :: l2) ltac:(discriminate))
      as (l2' & z & Hl2).
    rewrite Hl2 in *. right. exists l2'.
    change (l ++ [x] = l1 ++ (y :: l2') ++ [z]) in H.
    rewrite app_assoc in H.
    apply app_inj_tail in H as [-> ->]. auto.
Qed.

(** After a call that raised, only cleanup calls of higher rank follow;
    if none of them raises, the tail's exception is that call's. *)
Lemma failed_tail_split k t e0 :
  failed_tail k t e0 ->
  forall t1 c e after,
    t = t1 ++ EvErr c e :: after ->
    Forall (fun ev => (cleanup_rank c < cleanup_rank (ev_call ev))%nat) after
    /\ (Forall (fun ev => ev_failed ev = false) after -> e0 = e).
Proof.
  induction 1 as [c0 e0 | k t e0 c0 Ht IH Hk | k t e0 c0 e' Ht IH Hk];
    intros t1 c e after Heq.
  - destruct t1 as [|x t1]; [| destruct t1; discriminate].
    injection Heq as -> -> <-. auto.
  - apply snoc_split in Heq as [(_ & Hx & _) | (after' & -> & ->)];
      [discriminate |].
    destruct (IH _ _ _ _ eq_refl) as [Hr He].
    apply failed_tail_ranks in Ht.
    apply Forall_app in Ht as [_ Ht]. inversion Ht as [|? ? Hc _]; subst.
    simpl in Hc. split.
    + apply Forall_app. split; [exact Hr |]. repeat constructor. simpl. lia.
    + intros Hok. apply Forall_app in Hok as [Hok _]. auto.
  - apply snoc_split in Heq as [(-> & Hx & ->) | (after' & -> & ->)].
    + injection Hx as -> ->. auto.
    + destruct (IH _ _ _ _ eq_refl) as [Hr He].
      apply failed_tail_ranks in Ht.
      apply Forall_app in Ht as [_ Ht]. inversion Ht as [|? ? Hc _]; subst.
      simpl in Hc. split.
      * apply Forall_app. split; [exact Hr |]. repeat constructor.
        simpl. lia.
      * intros Hok. apply Forall_app in Hok as [_ Hok].
        inversion Hok as [|? ? Hx _]; subst. discriminate.
Qed.

Lemma in_cleanup_order_snoc l ev : forall k,
  in_cleanup_order k (l ++ [ev])
  = in_cleanup_order k l
    && (fold_left (fun _ x => cleanup_rank (ev_call x)) l k
        <? cleanup_rank (ev_call ev))%nat.
Proof.
  induction l as [|x l IH]; intros k; simpl.
  - now rewrite andb_true_r.
  - now rewrite IH, andb_assoc.
Qed.

(** What follows a call that raised is in cleanup order. *)
Lemma failed_tail_order k t e0 :
  failed_tail k t e0 ->
  forall t1 c e after,
    t = t1 ++ EvErr c e :: after ->
    in_cleanup_order (cleanup_rank c) after = true
    /\ fold_left (fun _ x => cleanup_rank (ev_call x)) after
                 (cleanup_rank c) = k.
Proof.
  induction 1 as [c0 e0 | k t e0 c0 Ht IH Hk | k t e0 c0 e' Ht IH Hk];
    intros t1 c e after Heq.
  - destruct t1 as [|x t1]; [| destruct t1; discriminate].
    injection Heq as -> -> <-. auto.
  - apply snoc_split in Heq as [(_ & Hx & _) | (after' & -> & ->)];
      [discriminate |].
    destruct (IH _ _ _ _ eq_refl) as [Ho Hl].
    rewrite in_cleanup_order_snoc, fold_left_app, Ho, Hl. simpl.
    split; [| reflexivity]. now apply Nat.ltb_lt.
  - apply snoc_split in Heq as [(-> & Hx & ->) | (after' & -> & ->)].
    + injection Hx as -> ->. auto.
    + destruct (IH _ _ _ _ eq_refl) as [Ho Hl].
      rewrite in_cleanup_order_snoc, fold_left_app, Ho, Hl. simpl.
      split; [| reflexivity]. now apply Nat.ltb_lt.
Qed.

(** Closes the goals of the next proof: the three parts are given, each
    is empty or the one call. *)
Ltac parts_done :=
  repeat split;
  solve [reflexivity | left; reflexivity | right; reflexivity
         | right; eexists; reflexivity].

(** Calls in cleanup order are at most one file close, then at most one
    close of the download, then at most one logout. *)
Lemma cleanup_order_calls k evs :
  in_cleanup_order k evs = true ->
  exists closes vods logouts,
    map ev_call evs = closes ++ vods ++ logouts
    /\ (closes = [] \/ exists p, closes = [CloseFile p])
    /\ (vods = [] \/ vods = [VodClose])
    /\ (logouts = [] \/ logouts = [Logout]).
Proof.
  assert (Hlast : forall l, in_cleanup_order 3 l = true -> l = []).
  { intros [|ev l] Hl; [reflexivity |]. simpl in Hl.
    apply andb_prop in Hl as [Hl _].
    destruct (ev_call ev); discriminate Hl. }
  assert (Hvod : forall l,
             in_cleanup_order 2 l = true ->
             map ev_call l = [] \/ map ev_call l = [Logout]).
  { intros [|ev l] Hl; [auto |]. simpl in Hl.
    apply andb_prop in Hl as [H1 H2].
    destruct (ev_call ev) eqn:E; try discriminate H1.
    simpl in H2. rewrite (Hlast l H2). right. simpl. now rewrite E. }
  intros H. destruct evs as [|ev l].
  { exists [], [], []. parts_done. }
  simpl in H. apply andb_prop in H as [H1 H2].
  destruct (ev_call ev) as [| | | | | | | | p | |] eqn:E;
    try discriminate H1; simpl in H2.
  - destruct l as [|ev' l].
    { exists [CloseFile p], [], []. simpl. rewrite E. parts_done. }
    simpl in H2. apply andb_prop in H2 as [H3 H4].
    destruct (ev_call ev') eqn:E'; try discriminate H3; simpl in H4.
    + destruct (Hvod l H4) as [Hl | Hl].
      * exists [CloseFile p], [VodClose], []. simpl.
        rewrite E, E', Hl. parts_done.
      * exists [CloseFile p], [VodClose], [Logout]. simpl.
        rewrite E, E', Hl. parts_done.
    + rewrite (Hlast l H4).
      exists [CloseFile p], [], [Logout]. simpl. rewrite E, E'. parts_done.
  - destruct (Hvod l H2) as [Hl | Hl].
    + exists [], [VodClose], []. simpl. rewrite E, Hl. parts_done.
    + exists [], [VodClose], [Logout]. simpl. rewrite E, Hl. parts_done.
  - rewrite (Hlast l H2). exists [], [], [Logout]. simpl. rewrite E. parts_done.
Qed.

(** Calls that returned, then a tail: a call that raised is in the
    tail. *)
Lemma split_after_ok b : forall t before x after,
  b ++ t = before ++ x :: after ->
  Forall (fun ev => ev_failed ev = false) b ->
  ev_failed x = true ->
  exists t1, before = b ++ t1 /\ t = t1 ++ x :: after.
Proof.
  induction b as [|y b IH]; intros t before x after Heq Hb Hx.
  - exists before. auto.
  - inversion Hb as [|? ? Hy Hb']; subst.
    destruct before as [|z before]; simpl in Heq.
    + injection Heq as -> _. congruence.
    + injection Heq as -> Heq.
      destruct (IH _ _ _ _ Heq Hb' Hx) as (t1 & -> & ->). eauto.
Qed.

(** What [main] makes of the outcome of [download_videos]. *)
Lemma main_exit_status strptime w fuel a s start_time_ end_time :
  parse_datetime strptime (arg_start_time a) = inr start_time_ ->
  parse_datetime strptime (arg_end_time a) = inr end_time ->
  PyDate.geb start_time_ end_time = false ->
  snd (main strptime w fuel a s)
  = exit_status
      (snd (download_videos w fuel (arg_ip a) (arg_username a)
              (arg_password a) start_time_ end_time
              (PyPath.of_string (arg_output a)) s)).
Proof.
  intros Hs He Hge. unfold main. rewrite Hs, He, Hge.
  destruct (download_videos w fuel (arg_ip a) (arg_username a)
              (arg_password a) start_time_ end_time
              (PyPath.of_string (arg_output a)) s) as [s' [[]|e|]];
    try reflexivity.
  destruct e; reflexivity.
Qed.

(** C7, as stated, fails.  The camera cannot be reached and the logout in
    the [finally] fails too: the exception of [get_host_data] is not the
    one that leaves [download_videos]; the logout's replaces it. *)
Lemma first_failure_replaced :
  In (EvErr GetHostData (ReolinkError "connection refused"))
     (videos_log Sample.camera_unreachable_logout_fails 5 "192.168.1.10"
        "admin" "secret" (Sample.jan 1 12 0 0) (Sample.jan 2 8 0 0)
        ["downloads"] Sample.empty_disk)
  /\ videos_outcome Sample.camera_unreachable_logout_fails 5 "192.168.1.10"
       "admin" "secret" (Sample.jan 1 12 0 0) (Sample.jan 2 8 0 0)
       ["downloads"] Sample.empty_disk
     = Raised (ReolinkError "logout timed out")
  /\ videos_outcome Sample.camera_unreachable_logout_fails 5 "192.168.1.10"
       "admin" "secret" (Sample.jan 1 12 0 0) (Sample.jan 2 8 0 0)
       ["downloads"] Sample.empty_disk
     <> Raised (ReolinkError "connection refused").
Proof.
  split; [| split].
  - vm_compute. auto.
  - vm_compute. reflexivity.
  - vm_compute. discriminate.
Qed.

(** C7, amended.  No retry.  When a call raises during
    [download_videos], nothing but cleanup follows: closing the output
    file, closing the download, logging out, each at most once and in
    that order (the calls after the one that raised are at most one file
    close, then at most one close of the download, then at most one
    logout, all of a later kind than the call that raised when that was a
    cleanup call itself), and the call that raised is not issued again.
    The file that is closed is one that was opened, and the download
    that is closed one that was started, before the call that raised.
    The exception that leaves [download_videos] is that of the last call that
    raised: the original one when no cleanup call raises after it.  The
    logout runs unless it was creating the directory that raised, and the
    process exits with status 1. *)
Theorem failures_propagate
    (strptime : string -> string -> option datetime) (w : world)
    (fuel : nat) (a : args) (fs0 : filesystem)
    (start_time_ end_time : datetime)
    (before : list event) (c : call) (e : exn) (after : list event) :
  parse_datetime strptime (arg_start_time a) = inr start_time_ ->
  parse_datetime strptime (arg_end_time a) = inr end_time ->
  PyDate.geb start_time_ end_time = false ->
  videos_log w fuel (arg_ip a) (arg_username a) (arg_password a)
             start_time_ end_time (PyPath.of_string (arg_output a)) fs0
  = before ++ EvErr c e :: after ->
  (exists e',
      videos_outcome w fuel (arg_ip a) (arg_username a) (arg_password a)
        start_time_ end_time (PyPath.of_string (arg_output a)) fs0
      = Raised e'
      /\ last_error (before ++ EvErr c e :: after) = Some e')
  /\ (Forall (fun ev => ev_failed ev = false) after ->
      videos_outcome w fuel (arg_ip a) (arg_username a) (arg_password a)
        start_time_ end_time (PyPath.of_string (arg_output a)) fs0
      = Raised e)
  /\ Forall (fun ev => is_cleanup (ev_call ev) = true) after
  /\ ~ In c (map ev_call after)
  /\ in_cleanup_order (cleanup_rank c) after = true
  /\ (exists closes vods logouts,
         map ev_call after = closes ++ vods ++ logouts
         /\ (closes = [] \/ exists p, closes = [CloseFile p])
         /\ (vods = [] \/ vods = [VodClose])
         /\ (logouts = [] \/ logouts = [Logout]))
  /\ (forall p,
        In (CloseFile p) (map ev_call after) ->
        exists rp, In (EvOk (Open p) rp) before)
  /\ (In VodClose (map ev_call after) ->
      exists filename channel rp,
        In (EvOk (DownloadVod filename channel) rp) before)
  /\ (c <> Mkdir (PyPath.of_string (arg_output a)) true true ->
      exists ev, last (before ++ EvErr c e :: after) = Some ev
                 /\ ev_call ev = Logout)
  /\ snd (main strptime w fuel a (boot fs0)) = Exit 1.
Proof.
  intros Hps Hpe Hge Hlog.
  rewrite (main_exit_status strptime w fuel a (boot fs0) _ _ Hps Hpe Hge).
  fold (videos_outcome w fuel (arg_ip a) (arg_username a) (arg_password a)
          start_time_ end_time (PyPath.of_string (arg_output a)) fs0).
  destruct (videos_log_shape w fuel (arg_ip a) (arg_username a)
              (arg_password a) start_time_ end_time
              (PyPath.of_string (arg_output a)) fs0) as [Hshape _].
  rewrite Hlog in Hshape. clear Hlog. revert Hshape.
  generalize (videos_outcome w fuel (arg_ip a) (arg_username a)
                (arg_password a) start_time_ end_time
                (PyPath.of_string (arg_output a)) fs0) as r.
  intros r Hshape.
  destruct (videos_run_fail_stop _ _ _ _ _ _ _ _ Hshape)
    as [Hok | (b & t & j & e0 & Heq & Hb & Ht & Hj & ->)].
  { apply Forall_app in Hok as [_ Hok].
    inversion Hok as [|? ? Hx _]; subst. discriminate. }
  destruct (split_after_ok _ _ _ _ _ (eq_sym Heq) Hb eq_refl)
    as (t1 & -> & ->).
  destruct (failed_tail_split _ _ _ Ht _ _ _ _ eq_refl) as [Hranks Hsame].
  destruct (failed_tail_order _ _ _ Ht _ _ _ _ eq_refl) as [Horder _].
  assert (Hcut : forall a1 ev a2,
             (b ++ t1) ++ EvErr c e :: a1 ++ ev :: a2
             = ((b ++ t1) ++ EvErr c e :: a1) ++ ev :: a2).
  { intros. now rewrite <- !app_assoc. }
  assert (Hearly : forall a1 ev a2 c0 rp,
             after = a1 ++ ev :: a2 -> cleanup_rank c0 = 0%nat ->
             In (EvOk c0 rp) ((b ++ t1) ++ EvErr c e :: a1) ->
             In (EvOk c0 rp) (b ++ t1)).
  { intros a1 ev a2 c0 rp Ha Hc0 Hin.
    apply in_app_or in Hin as [Hin | [Hx | Hin]];
      [exact Hin | discriminate Hx |].
    rewrite Ha in Hranks. apply Forall_app in Hranks as [Hranks _].
    rewrite List.Forall_forall in Hranks. apply Hranks in Hin.
    simpl in Hin. lia. }
  split; [| split; [| split; [| split; [| split; [| split; [| split;
    [| split; [| split]]]]]]]].
  - exists e0. split; [reflexivity |].
    rewrite <- app_assoc, last_error_app.
    now rewrite (failed_tail_last_error _ _ _ Ht).
  - intros Hok. now rewrite (Hsame Hok).
  - eapply List.Forall_impl; [| exact Hranks]. simpl.
    intros ev Hev. unfold is_cleanup. apply Nat.ltb_lt. lia.
  - intros Hin. apply in_map_iff in Hin as (ev & Hev & Hin).
    rewrite List.Forall_forall in Hranks. apply Hranks in Hin.
    rewrite Hev in Hin. lia.
  - exact Horder.
  - now apply (cleanup_order_calls (cleanup_rank c)).
  - intros p Hin. apply in_map_iff in Hin as (ev & Hev & Hin).
    apply in_split in Hin as (a1 & a2 & Ha).
    destruct (videos_run_keeps _ _ _ _ _ _ _ _ Hshape) as (cur & Hcur & _).
    rewrite Ha, Hcut in Hcur.
    apply (file_closed_was_open _ _ _ _ p) in Hcur; [| exact Hev].
    apply file_open_was_opened in Hcur as [rp Hopen].
    exists rp. now apply (Hearly a1 ev a2).
  - intros Hin. apply in_map_iff in Hin as (ev & Hev & Hin).
    apply in_split in Hin as (a1 & a2 & Ha).
    pose proof (videos_run_streams _ _ _ _ _ _ _ _ Hshape) as Hcur.
    rewrite Ha, Hcut in Hcur.
    apply stream_closed_was_open in Hcur; [| exact Hev].
    apply stream_open_was_started in Hcur as (fn & ch & rp & Hstart).
    exists fn, ch, rp. now apply (Hearly a1 ev a2).
  - intros Hc.
    remember ((b ++ t1) ++ EvErr c e :: after) as log eqn:Hl.
    remember (Raised e0) as r eqn:Hr.
    destruct Hshape as [e1 | evs r0 evs' r' Hs Hf].
    + exfalso. destruct (b ++ t1) as [|x l]; simpl in Hl.
      * injection Hl as E1 E2 E3. congruence.
      * injection Hl as _ Hl. destruct l; discriminate.
    + destruct (finally_run_inv _ _ _ _ _ Hf)
        as [(_ & _ & Hx) | [(_ & -> & _) | (_ & e1 & -> & _)]];
        [congruence | |];
        eexists;
        (split; [rewrite !app_comm_cons; apply last_snoc | reflexivity]).
  - reflexivity.
Qed.

(** The disk is full: the first write raises, the file and the download
    are closed, the logout runs, and the process exits with status 1. *)
Lemma failures_propagate_witness :
  videos_outcome Sample.camera_disk_full 5 "192.168.1.10" "admin" "secret"
    (Sample.jan 1 12 0 0) (Sample.jan 2 8 0 0) ["downloads"]
    Sample.empty_disk
  = Raised (OSError "No space left on device")
  /\ snd (main Sample.strptime Sample.camera_disk_full 5
            (Sample.cli "2024-01-01 12:00" "2024-01-02 08:00:00")
            (boot Sample.empty_disk))
     = Exit 1.
Proof.
  destruct (failures_propagate Sample.strptime Sample.camera_disk_full 5
              (Sample.cli "2024-01-01 12:00" "2024-01-02 08:00:00")
              Sample.empty_disk (Sample.jan 1 12 0 0) (Sample.jan 2 8 0 0)
              (firstn 9
                 (videos_log Sample.camera_disk_full 5 "192.168.1.10"
                    "admin" "secret" (Sample.jan 1 12 0 0)
                    (Sample.jan 2 8 0 0) ["downloads"] Sample.empty_disk))
              (Write ["downloads"; "20240101_120000_RecM01_120000.mp4"]
                     [x01; x02]%byte)
              (OSError "No space left on device")
              [EvOk (CloseFile
                       ["downloads"; "20240101_120000_RecM01_120000.mp4"])
                    RNone;
               EvOk VodClose RNone; EvOk Logout RNone])
    as (_ & Hsame & _ & _ & _ & _ & _ & _ & _ & Hexit).
  - vm_compute. reflexivity.
  - vm_compute. reflexivity.
  - vm_compute. reflexivity.
  - vm_compute. reflexivity.
  - split; [| exact Hexit]. apply Hsame. repeat constructor.
Defined.

(** * Nothing to download *)

Lemma loop_run_quiet {A B}
    (R : B -> A -> list event -> outcome B -> Prop)
    (V : A -> Prop) (Q : event -> Prop) :
  (forall acc x evs r,
      R acc x evs r -> V x -> Forall Q evs -> r = Returned acc) ->
  forall xs acc evs r,
    loop_run R xs acc evs r -> Forall V xs -> Forall Q evs ->
    r = Returned acc.
Proof.
  intros HR xs acc evs r H.
  induction H as [acc | x xs acc evs r Hb Hr
                  | x xs acc evs acc' evs' r Hb Hl IH];
    intros HV HQ.
  - reflexivity.
  - inversion HV; subst. rewrite (HR _ _ _ _ Hb) in Hr by auto.
    discriminate.
  - inversion HV; subst. apply Forall_app in HQ as [HQ1 HQ2].
    pose proof (HR _ _ _ _ Hb ltac:(auto) HQ1) as Hacc.
    injection Hacc as ->. auto.
Qed.

Section Empty.

Variables (start_time_ end_time : datetime) (output_dir : path).

Lemma day_run_quiet ch y m acc d evs r :
  day_run start_time_ end_time ch y m acc d evs r ->
  valid_date y m d = true ->
  Forall (fun ev => is_day_query (ev_call ev) = true ->
                    ev_failed ev = false /\ files_of ev = []) evs ->
  r = Returned acc.
Proof.
  destruct 1 as [e Hv | Hv Hin | e Hv Hin | sts files Hv Hin];
    intros Hvalid Hq.
  - congruence.
  - reflexivity.
  - inversion Hq as [|? ? Hx _]; subst.
    destruct (Hx eq_refl) as [Hx' _]. discriminate.
  - inversion Hq as [|? ? Hx _]; subst.
    destruct (Hx eq_refl) as [_ Hx']. simpl in Hx'. subst.
    now rewrite app_nil_r.
Qed.

Lemma collect_run_quiet ch sts evs r :
  collect_run start_time_ end_time ch sts evs r ->
  Forall (fun s =>
            Forall (fun d => valid_date (vs_year s) (vs_month s) d = true)
                   (vs_days s)) sts ->
  Forall (fun ev => is_day_query (ev_call ev) = true ->
                    ev_failed ev = false /\ files_of ev = []) evs ->
  r = Returned [].
Proof.
  apply (loop_run_quiet (status_run start_time_ end_time ch)
           (fun s => Forall (fun d => valid_date (vs_year s) (vs_month s) d
                                      = true) (vs_days s))).
  intros acc st evs' r'. unfold status_run.
  apply (loop_run_quiet
           (day_run start_time_ end_time ch (vs_year st) (vs_month st))
           (fun d => valid_date (vs_year st) (vs_month st) d = true)).
  intros acc' d evs'' r''. apply day_run_quiet.
Qed.

(** An event of the connection or of the status-only query is not among
    the per-day queries, nor among the calls of the download loop. *)
Lemma not_among_queries ev evs :
  In ev evs ->
  Forall (fun ev => is_day_query (ev_call ev) = true) evs ->
  is_day_query (ev_call ev) = false -> False.
Proof.
  intros Hin HF Hev. rewrite List.Forall_forall in HF.
  apply HF in Hin. congruence.
Qed.

Lemma not_among_transfers ev evs :
  In ev evs ->
  Forall (fun ev => is_transfer (ev_call ev) = true) evs ->
  is_transfer (ev_call ev) = false -> False.
Proof.
  intros Hin HF Hev. rewrite List.Forall_forall in HF.
  apply HF in Hin. congruence.
Qed.

(** The body of the outer [try] when there is nothing to download: it
    returns, and issues no call of the download loop. *)
Lemma session_run_quiet evs r :
  session_run start_time_ end_time output_dir evs r ->
  no_recordings start_time_ end_time evs ->
  r = Returned tt
  /\ Forall (fun ev => is_transfer (ev_call ev) = false) evs.
Proof.
  intros Hs Hq.
  destruct Hs as [e | h Hh | h ch e Hh | h ch files Hh
                  | h ch sts files evs r Hh Hs Hc Hr
                  | h ch sts files evs Hh Hs Hc
                  | h ch sts files evs all evs' r Hh Hs Hc Hall Hd].
  - exfalso.
    destruct Hq as [(h0 & Hin & _) | [(c0 & f0 & Hin) | (c0 & s0 & f0 & Hin & _)]];
      simpl in Hin; intuition discriminate.
  - split; [reflexivity | repeat constructor].
  - exfalso.
    destruct Hq as [(h0 & Hin & Hch) | [(c0 & f0 & Hin) | (c0 & s0 & f0 & Hin & _)]];
      simpl in Hin; try intuition discriminate.
    destruct Hin as [Hx | [Hx | []]]; [| discriminate].
    injection Hx as ->. rewrite Hch in Hh. discriminate.
  - split; [reflexivity | repeat constructor].
  - exfalso.
    pose proof (collect_run_queries _ _ _ _ _ _ Hc) as Hqs.
    destruct Hq as [(h0 & Hin & Hch) | [(c0 & f0 & Hin)
                    | (c0 & s0 & f0 & Hin & Hvalid & Hquiet)]];
      destruct Hin as [Hx | [Hx | Hin]]; try discriminate;
      try (eapply not_among_queries; [exact Hin | exact Hqs | reflexivity]).
    + injection Hx as ->. rewrite Hch in Hh. discriminate.
    + injection Hx as _ Hx _. congruence.
    + injection Hx as _ Hx _. subst s0.
      inversion Hquiet as [|? ? _ Hquiet']; subst.
      inversion Hquiet' as [|? ? _ Hquiet'']; subst.
      rewrite (collect_run_quiet _ _ _ _ Hc Hvalid Hquiet'') in Hr.
      discriminate.
  - split; [reflexivity |]. repeat constructor.
    apply queries_not_transfers. eapply collect_run_queries; eauto.
  - exfalso.
    pose proof (collect_run_queries _ _ _ _ _ _ Hc) as Hqs.
    pose proof (download_run_transfers _ _ _ _ _ _ Hd) as Hts.
    assert (Hno : forall ev,
               In ev (evs ++ evs') ->
               is_day_query (ev_call ev) = false ->
               is_transfer (ev_call ev) = false -> False).
    { intros ev Hin H1 H2. apply in_app_iff in Hin as [Hin | Hin].
      - eapply not_among_queries; eauto.
      - eapply not_among_transfers; eauto. }
    destruct Hq as [(h0 & Hin & Hch) | [(c0 & f0 & Hin)
                    | (c0 & s0 & f0 & Hin & Hvalid & Hquiet)]];
      destruct Hin as [Hx | [Hx | Hin]]; try discriminate;
      try (apply (Hno _ Hin); reflexivity).
    + injection Hx as ->. rewrite Hch in Hh. discriminate.
    + injection Hx as _ Hx _. congruence.
    + injection Hx as _ Hx _. subst s0.
      inversion Hquiet as [|? ? _ Hquiet']; subst.
      inversion Hquiet' as [|? ? _ Hquiet'']; subst.
      apply Forall_app in Hquiet'' as [Hquiet'' _].
      pose proof (collect_run_quiet _ _ _ _ Hc Hvalid Hquiet'') as Hx.
      congruence.
Qed.

End Empty.

Lemma session_run_no_logout st et dir evs r :
  session_run st et dir evs r ->
  Forall (fun ev => ev_call ev <> Logout) evs.
Proof.
  intros H. apply session_run_calls in H
    as (status & days & downloads & Hc & Hst & Hd & Ht & _).
  apply List.Forall_forall. intros ev Hin Hev.
  assert (Hin' : In Logout (map ev_call evs)).
  { rewrite <- Hev. now apply in_map. }
  rewrite Hc in Hin'.
  destruct Hin' as [Hx | Hin']; [discriminate |].
  rewrite !in_app_iff in Hin'. destruct Hin' as [Hin' | [Hin' | Hin']].
  - destruct Hst as [-> | [ch ->]]; simpl in Hin'; intuition discriminate.
  - rewrite List.Forall_forall in Hd. apply Hd in Hin'. discriminate.
  - rewrite List.Forall_forall in Ht. apply Ht in Hin'. discriminate.
Qed.

(** Between the two calls that open a run and the logout that closes it,
    the log of the [try] body tells the same story. *)
Lemma no_recordings_inner st et m h l evs :
  ev_call m = Mkdir (fst (fst h)) (snd (fst h)) (snd h) ->
  (exists ip u p, l = EvOk (HostNew ip u p) RNone) ->
  no_recordings st et (m :: l :: evs) ->
  no_recordings st et evs.
Proof.
  intros Hm (ip & u & p & ->) Hq.
  destruct Hq as [(h0 & Hin & Hch) | [(c0 & f0 & Hin)
                  | (c0 & s0 & f0 & Hin & Hvalid & Hquiet)]].
  - left. exists h0. split; [| exact Hch].
    destruct Hin as [Hx | [Hx | Hin]]; [| discriminate | exact Hin].
    subst m. discriminate.
  - right. left. exists c0, f0.
    destruct Hin as [Hx | [Hx | Hin]]; [| discriminate | exact Hin].
    subst m. discriminate.
  - right. right. exists c0, s0, f0. split; [| split; [exact Hvalid |]].
    + destruct Hin as [Hx | [Hx | Hin]]; [| discriminate | exact Hin].
      subst m. discriminate.
    + inversion Hquiet as [|? ? _ Hq']; subst.
      now inversion Hq'.
Qed.

Lemma no_recordings_front st et evs ev :
  ev_call ev = Logout ->
  no_recordings st et (evs ++ [ev]) ->
  no_recordings st et evs.
Proof.
  intros Hev Hq.
  assert (Hin : forall x, In x (evs ++ [ev]) -> ev_call x <> Logout ->
                          In x evs).
  { intros x Hx Hne. apply in_app_iff in Hx as [Hx | [-> | []]]; auto.
    contradiction. }
  destruct Hq as [(h0 & Hx & Hch) | [(c0 & f0 & Hx)
                  | (c0 & s0 & f0 & Hx & Hvalid & Hquiet)]].
  - left. exists h0. split; [apply Hin; [exact Hx | discriminate] | exact Hch].
  - right. left. exists c0, f0. apply Hin; [exact Hx | discriminate].
  - right. right. exists c0, s0, f0.
    split; [apply Hin; [exact Hx | discriminate] |].
    split; [exact Hvalid |]. now apply Forall_app in Hquiet as [Hquiet _].
Qed.

(** C8, as stated, fails.  The camera reports no channel, and the logout
    in the [finally] raises: [download_videos] does not return normally,
    and the process exits with status 1, not 0. *)
Lemma logout_failure_not_quiet :
  In (EvOk GetHostData (RHost (HostData "Front door" [])))
     (videos_log Sample.camera_no_channel_logout_fails 5 "192.168.1.10"
        "admin" "secret" (Sample.jan 1 12 0 0) (Sample.jan 2 8 0 0)
        ["downloads"] Sample.empty_disk)
  /\ videos_outcome Sample.camera_no_channel_logout_fails 5 "192.168.1.10"
       "admin" "secret" (Sample.jan 1 12 0 0) (Sample.jan 2 8 0 0)
       ["downloads"] Sample.empty_disk
     = Raised (ReolinkError "logout timed out")
  /\ snd (main Sample.strptime Sample.camera_no_channel_logout_fails 5
            (Sample.cli "2024-01-01 12:00" "2024-01-02 08:00:00")
            (boot Sample.empty_disk))
     = Exit 1.
Proof.
  split; [| split].
  - vm_compute. auto.
  - vm_compute. reflexivity.
  - vm_compute. reflexivity.
Qed.

(** C8, amended.  Graceful empty results.  When the camera reports no
    channel, or the status-only query returns an empty status list, or
    every listed day is a date and every per-day query returns with no
    file, [download_videos] performs no download and the logout is its
    last call; when the logout returns, [download_videos] returns
    normally and the process exits with status 0; when the logout raises,
    its exception leaves [download_videos] and the exit status is 1. *)
Theorem empty_results_end_quietly
    (strptime : string -> string -> option datetime) (w : world)
    (fuel : nat) (a : args) (fs0 : filesystem)
    (start_time_ end_time : datetime) :
  parse_datetime strptime (arg_start_time a) = inr start_time_ ->
  parse_datetime strptime (arg_end_time a) = inr end_time ->
  PyDate.geb start_time_ end_time = false ->
  no_recordings start_time_ end_time
    (videos_log w fuel (arg_ip a) (arg_username a) (arg_password a)
                start_time_ end_time (PyPath.of_string (arg_output a)) fs0) ->
  List.filter is_download
    (map ev_call
       (videos_log w fuel (arg_ip a) (arg_username a) (arg_password a)
          start_time_ end_time (PyPath.of_string (arg_output a)) fs0))
  = []
  /\ (exists ev,
         last (videos_log w fuel (arg_ip a) (arg_username a)
                 (arg_password a) start_time_ end_time
                 (PyPath.of_string (arg_output a)) fs0) = Some ev
         /\ ev_call ev = Logout)
  /\ (In (EvOk Logout RNone)
         (videos_log w fuel (arg_ip a) (arg_username a) (arg_password a)
            start_time_ end_time (PyPath.of_string (arg_output a)) fs0) ->
      videos_outcome w fuel (arg_ip a) (arg_username a) (arg_password a)
        start_time_ end_time (PyPath.of_string (arg_output a)) fs0
      = Returned tt
      /\ snd (main strptime w fuel a (boot fs0)) = Exit 0)
  /\ (forall e,
        In (EvErr Logout e)
           (videos_log w fuel (arg_ip a) (arg_username a) (arg_password a)
              start_time_ end_time (PyPath.of_string (arg_output a)) fs0) ->
        videos_outcome w fuel (arg_ip a) (arg_username a) (arg_password a)
          start_time_ end_time (PyPath.of_string (arg_output a)) fs0
        = Raised e
        /\ snd (main strptime w fuel a (boot fs0)) = Exit 1).
Proof.
  intros Hps Hpe Hge.
  rewrite (main_exit_status strptime w fuel a (boot fs0) _ _ Hps Hpe Hge).
  fold (videos_outcome w fuel (arg_ip a) (arg_username a) (arg_password a)
          start_time_ end_time (PyPath.of_string (arg_output a)) fs0).
  destruct (videos_log_shape w fuel (arg_ip a) (arg_username a)
              (arg_password a) start_time_ end_time
              (PyPath.of_string (arg_output a)) fs0) as [Hshape _].
  revert Hshape.
  generalize (videos_log w fuel (arg_ip a) (arg_username a) (arg_password a)
                start_time_ end_time (PyPath.of_string (arg_output a)) fs0)
    as log.
  generalize (videos_outcome w fuel (arg_ip a) (arg_username a)
                (arg_password a) start_time_ end_time
                (PyPath.of_string (arg_output a)) fs0) as r.
  intros r log Hshape Hq.
  destruct Hshape as [e | evs r0 evs' r' Hs Hf].
  { exfalso.
    destruct Hq as [(h0 & Hin & _) | [(c0 & f0 & Hin)
                    | (c0 & s0 & f0 & Hin & _)]];
      destruct Hin as [Hx | []]; discriminate. }
  apply (no_recordings_inner _ _ _
           (PyPath.of_string (arg_output a), true, true)) in Hq;
    [| reflexivity | eauto].
  pose proof (session_run_no_logout _ _ _ _ _ Hs) as Hnl.
  assert (Hnot : forall x, In x evs -> ev_call x = Logout -> False).
  { intros x Hx Hc. rewrite List.Forall_forall in Hnl.
    now apply (Hnl x Hx). }
  destruct (finally_run_inv _ _ _ _ _ Hf)
    as [(-> & -> & ->) | [(Hr & -> & ->) | (Hr & e & -> & ->)]].
  - destruct (session_run_quiet _ _ _ _ _ Hs Hq) as [Hx _]. discriminate.
  - apply no_recordings_front in Hq; [| reflexivity].
    destruct (session_run_quiet _ _ _ _ _ Hs Hq) as [-> Hnt].
    split; [| split; [| split]].
    + simpl. rewrite map_app, List.filter_app, (no_download_before _ Hnt).
      reflexivity.
    + eexists. split; [rewrite !app_comm_cons; apply last_snoc |].
      reflexivity.
    + intros _. split; reflexivity.
    + intros e Hin. exfalso.
      destruct Hin as [Hx | [Hx | Hin]]; try discriminate.
      apply in_app_iff in Hin as [Hin | [Hx | []]]; [| discriminate].
      now apply (Hnot _ Hin).
  - apply no_recordings_front in Hq; [| reflexivity].
    destruct (session_run_quiet _ _ _ _ _ Hs Hq) as [-> Hnt].
    split; [| split; [| split]].
    + simpl. rewrite map_app, List.filter_app, (no_download_before _ Hnt).
      reflexivity.
    + eexists. split; [rewrite !app_comm_cons; apply last_snoc |].
      reflexivity.
    + intros Hin. exfalso.
      destruct Hin as [Hx | [Hx | Hin]]; try discriminate.
      apply in_app_iff in Hin as [Hin | [Hx | []]]; [| discriminate].
      now apply (Hnot _ Hin).
    + intros e' Hin.
      destruct Hin as [Hx | [Hx | Hin]]; try discriminate.
      apply in_app_iff in Hin as [Hin | [Hx | []]].
      * exfalso. now apply (Hnot _ Hin).
      * injection Hx as ->. split; reflexivity.
Qed.

(** The camera reports no channel and the logout returns: the run
    returns and the process exits with status 0. *)
Lemma empty_results_end_quietly_witness :
  videos_outcome Sample.camera_no_channel 5 "192.168.1.10" "admin" "secret"
    (Sample.jan 1 12 0 0) (Sample.jan 2 8 0 0) ["downloads"]
    Sample.empty_disk
  = Returned tt
  /\ snd (main Sample.strptime Sample.camera_no_channel 5
            (Sample.cli "2024-01-01 12:00" "2024-01-02 08:00:00")
            (boot Sample.empty_disk))
     = Exit 0.
Proof.
  destruct (empty_results_end_quietly Sample.strptime
              Sample.camera_no_channel 5
              (Sample.cli "2024-01-01 12:00" "2024-01-02 08:00:00")
              Sample.empty_disk (Sample.jan 1 12 0 0) (Sample.jan 2 8 0 0))
    as (_ & _ & Hok & _).
  - vm_compute. reflexivity.
  - vm_compute. reflexivity.
  - vm_compute. reflexivity.
  - left. exists (HostData "Front door" []).
    split; [vm_compute; auto | reflexivity].
  - apply Hok. vm_compute. auto.
Defined.

(** * The fuel only bounds the copy loop *)

Lemma finishes_as_refl {A} (m : M A) : finishes_as m m.
Proof. intros s _. reflexivity. Qed.

Lemma finishes_as_bind {A B} (m1 m2 : M A) (k1 k2 : A -> M B) :
  finishes_as m1 m2 ->
  (forall a, finishes_as (k1 a) (k2 a)) ->
  finishes_as (bind m1 k1) (bind m2 k2).
Proof.
  intros Hm Hk s. unfold bind. specialize (Hm s).
  destruct (m1 s) as [s1 [a|e|]]; simpl in *.
  - intros Hr. rewrite Hm by discriminate. now apply Hk.
  - intros _. now rewrite Hm by discriminate.
  - congruence.
Qed.

Lemma finishes_as_finally {A} (b1 b2 : M A) (c : M unit) :
  finishes_as b1 b2 -> finishes_as (try_finally b1 c) (try_finally b2 c).
Proof.
  intros Hb s. unfold try_finally. specialize (Hb s).
  destruct (b1 s) as [s1 [a|e|]]; simpl in *.
  - intros _. now rewrite Hb by discriminate.
  - intros _. now rewrite Hb by discriminate.
  - congruence.
Qed.

Lemma finishes_as_except {A} (b1 b2 : M A) (h : exn -> M A) :
  finishes_as b1 b2 ->
  finishes_as (try_except_Exception b1 h) (try_except_Exception b2 h).
Proof.
  intros Hb s. unfold try_except_Exception. specialize (Hb s).
  destruct (b1 s) as [s1 [a|e|]]; simpl in *.
  - intros _. now rewrite Hb by discriminate.
  - intros _. now rewrite Hb by discriminate.
  - congruence.
Qed.

Lemma finishes_as_for_each {A B} (f1 f2 : B -> A -> M B) :
  (forall acc x, finishes_as (f1 acc x) (f2 acc x)) ->
  forall xs acc, finishes_as (for_each f1 xs acc) (for_each f2 xs acc).
Proof.
  intros Hf. induction xs as [|x xs IH]; intros acc; simpl.
  - apply finishes_as_refl.
  - apply finishes_as_bind; auto.
Qed.

Section Fuel.

Variables (w : world) (ip username password : string)
          (start_time_ end_time : datetime) (output_dir : path).

Lemma copy_stream_fuel p k : forall fuel,
  finishes_as (copy_stream w fuel p) (copy_stream w (fuel + k) p).
Proof.
  induction fuel as [|fuel IH].
  - intros s Hr. now destruct Hr.
  - simpl. apply finishes_as_bind; [apply finishes_as_refl |].
    intros [|b chunk]; [apply finishes_as_refl |].
    apply finishes_as_bind; [apply finishes_as_refl | auto].
Qed.

Lemma download_one_fuel fuel k channel total idx f :
  finishes_as (download_one w fuel output_dir channel total idx f)
              (download_one w (fuel + k) output_dir channel total idx f).
Proof.
  unfold download_one, with_open_wb.
  repeat (apply finishes_as_bind; [try apply finishes_as_refl | intros ?]);
    try apply finishes_as_refl.
  apply finishes_as_finally.
  repeat (apply finishes_as_bind; [try apply finishes_as_refl | intros ?]);
    try apply finishes_as_refl.
  apply finishes_as_finally, copy_stream_fuel.
Qed.

Lemma session_fuel fuel k :
  finishes_as (session w fuel start_time_ end_time output_dir)
              (session w (fuel + k) start_time_ end_time output_dir).
Proof.
  unfold session.
  apply finishes_as_bind; [apply finishes_as_refl | intros h].
  apply finishes_as_bind; [apply finishes_as_refl | intros _].
  destruct (channels h) as [|ch rest]; [apply finishes_as_refl |].
  do 2 (apply finishes_as_bind; [apply finishes_as_refl | intros _]).
  apply finishes_as_bind; [apply finishes_as_refl | intros r].
  destruct (fst r) as [|st sts]; [apply finishes_as_refl |].
  apply finishes_as_bind; [apply finishes_as_refl | intros all].
  destruct all as [|f all]; [apply finishes_as_refl |].
  apply finishes_as_bind; [apply finishes_as_refl | intros _].
  apply finishes_as_bind; [| intros _; apply finishes_as_refl].
  apply finishes_as_for_each. intros idx f'. apply download_one_fuel.
Qed.

(** Once a run finishes within its fuel, more fuel changes nothing: the
    final state and the outcome are the same. *)
Theorem more_fuel_same_run (fuel k : nat) (s : state) :
  snd (download_videos w fuel ip username password start_time_ end_time
                       output_dir s) <> Pending ->
  download_videos w (fuel + k) ip username password start_time_ end_time
                  output_dir s
  = download_videos w fuel ip username password start_time_ end_time
                    output_dir s.
Proof.
  revert s.
  change (finishes_as
            (download_videos w fuel ip username password start_time_
                             end_time output_dir)
            (download_videos w (fuel + k) ip username password start_time_
                             end_time output_dir)).
  unfold download_videos.
  do 3 (apply finishes_as_bind; [apply finishes_as_refl | intros _]).
  apply finishes_as_finally, finishes_as_except, session_fuel.
Qed.

End Fuel.

(** Three reads end each stream of the sample camera: fuel 3 is enough,
    and fuel 3 + 7 gives the same run. *)
Lemma more_fuel_same_run_witness :
  download_videos Sample.camera (3 + 7) "192.168.1.10" "admin" "secret"
    (Sample.jan 1 12 0 0) (Sample.jan 2 8 0 0) ["downloads"]
    (boot Sample.empty_disk)
  = download_videos Sample.camera 3 "192.168.1.10" "admin" "secret"
      (Sample.jan 1 12 0 0) (Sample.jan 2 8 0 0) ["downloads"]
      (boot Sample.empty_disk).
Proof.
  apply (more_fuel_same_run Sample.camera "192.168.1.10" "admin" "secret"
           (Sample.jan 1 12 0 0) (Sample.jan 2 8 0 0) ["downloads"] 3 7
           (boot Sample.empty_disk)).
  vm_compute. discriminate.
Defined.

(** With fuel 2 the same run is still copying its first stream. *)
Example fuel_two_is_pending :
  videos_outcome Sample.camera 2 "192.168.1.10" "admin" "secret"
    (Sample.jan 1 12 0 0) (Sample.jan 2 8 0 0) ["downloads"]
    Sample.empty_disk
  = Pending.
Proof. vm_compute. reflexivity. Qed.

(** Creating [videos/front] on an empty disk creates [videos] too. *)
Example mkdir_creates_parents :
  Disk.is_dir
    (videos_disk Sample.camera_unreachable 5 "192.168.1.10" "admin"
       "secret" (Sample.jan 1 12 0 0) (Sample.jan 2 8 0 0)
       ["videos"; "front"] Sample.empty_disk)
    ["videos"]
  = true.
Proof. vm_compute. reflexivity. Qed.


(** * What the per-day queries ask for *)

(** A time between the first and the last second of a day is on that
    day. *)
Lemma between_same_day y m d t :
  PyDate.leb (day_start y m d) t = true ->
  PyDate.leb t (day_end y m d) = true ->
  dt_year t = y /\ dt_month t = m /\ dt_day t = d.
Proof. rewrite !leb_iff. unfold lex_lt, day_start, day_end. simpl. lia. Qed.

(** The clamped interval of a day that is in range. *)
Lemma day_query_bounds st et y m d :
  PyDate.leb st et = true ->
  in_range st et y m d = true ->
  PyDate.leb st (PyDate.max (day_start y m d) st) = true
  /\ PyDate.leb (PyDate.max (day_start y m d) st)
                (PyDate.min (day_end y m d) et) = true
  /\ PyDate.leb (PyDate.min (day_end y m d) et) et = true
  /\ PyDate.leb (day_start y m d) (PyDate.max (day_start y m d) st) = true
  /\ PyDate.leb (PyDate.min (day_end y m d) et) (day_end y m d) = true.
Proof.
  intros Hrange Hin. unfold in_range, PyDate.gtb in Hin.
  rewrite negb_true_iff, orb_false_iff, <- !leb_ltb in Hin.
  destruct Hin as [H1 H2].
  destruct (max_spec (day_start y m d) st) as (Ea & Ha1 & Ha2).
  destruct (min_spec (day_end y m d) et) as (Eb & Hb1 & Hb2).
  repeat split; auto.
  assert (Hday : PyDate.leb (day_start y m d) (day_end y m d) = true).
  { apply leb_iff. unfold lex_lt, day_start, day_end. simpl. lia. }
  destruct Ea as [-> | ->], Eb as [-> | ->]; auto.
Qed.

Section QueryRange.

Variables (start_time_ end_time : datetime) (output_dir : path).

Lemma transfer_day_query_of_a_day ev :
  is_transfer (ev_call ev) = true ->
  day_query_of_a_day start_time_ end_time ev.
Proof. intros Ht ch a b E. rewrite E in Ht. discriminate. Qed.

Lemma day_run_in_range ch y m acc d evs r :
  day_run start_time_ end_time ch y m acc d evs r ->
  Forall (day_query_of_a_day start_time_ end_time) evs.
Proof.
  destruct 1; repeat constructor;
    intros ch' a b E; simpl in E; unfold day_query in E;
    injection E as _ <- <-; exists y, m, d; auto.
Qed.

Lemma collect_run_in_range ch sts evs r :
  collect_run start_time_ end_time ch sts evs r ->
  Forall (day_query_of_a_day start_time_ end_time) evs.
Proof.
  apply loop_run_Forall. intros acc st evs' r'.
  apply loop_run_Forall. intros. eapply day_run_in_range; eauto.
Qed.

Lemma session_run_in_range evs r :
  session_run start_time_ end_time output_dir evs r ->
  Forall (day_query_of_a_day start_time_ end_time) evs.
Proof.
  assert (Hother : forall c rp,
             is_day_query c = false ->
             day_query_of_a_day start_time_ end_time (EvOk c rp)).
  { intros c rp Hc ch a b E. simpl in E. rewrite E in Hc. discriminate. }
  assert (Hfail : forall c e,
             is_day_query c = false ->
             day_query_of_a_day start_time_ end_time (EvErr c e)).
  { intros c rp Hc ch a b E. simpl in E. rewrite E in Hc. discriminate. }
  destruct 1 as [e | h Hh | h ch e Hh | h ch files Hh
                 | h ch sts files evs r Hh Hs Hc Hr
                 | h ch sts files evs Hh Hs Hc
                 | h ch sts files evs all evs' r Hh Hs Hc Hall Hd];
    repeat (constructor; [first [apply Hother | apply Hfail]; reflexivity |]);
    try constructor.
  - eapply collect_run_in_range; eauto.
  - eapply collect_run_in_range; eauto.
  - apply Forall_app. split; [eapply collect_run_in_range; eauto |].
    eapply List.Forall_impl; [| eapply download_run_transfers; eauto].
    apply transfer_day_query_of_a_day.
Qed.

Lemma videos_run_in_range ip username password evs r :
  videos_run start_time_ end_time output_dir ip username password evs r ->
  Forall (day_query_of_a_day start_time_ end_time) evs.
Proof.
  destruct 1 as [e | evs r evs' r' Hs Hf].
  { repeat constructor. intros ch a b E. discriminate E. }
  apply session_run_in_range in Hs.
  constructor; [intros ch a b E; discriminate E |].
  constructor; [intros ch a b E; discriminate E |].
  destruct Hf; auto; apply Forall_app; split; auto;
    repeat constructor; intros ch a b E; discriminate E.
Qed.

End QueryRange.

(** X2. When the requested range is not empty, every per-day query the
    script issues asks for a non-empty interval that lies within the
    requested range and within one calendar day. *)
Theorem day_queries_within_range (w : world) (fuel : nat)
    (ip username password : string) (start_time_ end_time : datetime)
    (output_dir : path) (fs0 : filesystem) (channel : Z) (a b : datetime) :
  PyDate.leb start_time_ end_time = true ->
  In (RequestVodFiles channel a b false)
     (map ev_call (videos_log w fuel ip username password start_time_
                              end_time output_dir fs0)) ->
  PyDate.leb start_time_ a = true
  /\ PyDate.leb a b = true
  /\ PyDate.leb b end_time = true
  /\ dt_year a = dt_year b /\ dt_month a = dt_month b
  /\ dt_day a = dt_day b.
Proof.
  intros Hrange Hin.
  destruct (videos_log_shape w fuel ip username password start_time_
              end_time output_dir fs0) as [Hshape _].
  apply videos_run_in_range in Hshape.
  apply in_map_iff in Hin as (ev & Hev & Hin).
  rewrite List.Forall_forall in Hshape.
  destruct (Hshape ev Hin channel a b Hev) as (y & m & d & Hday & -> & ->).
  destruct (day_query_bounds _ _ _ _ _ Hrange Hday)
    as (H1 & H2 & H3 & H4 & H5).
  repeat split; auto.
  all: pose proof (between_same_day y m d _ H4
                     (leb_trans _ _ _ H2 H5)) as (Ya & Ma & Da);
    pose proof (between_same_day y m d _ (leb_trans _ _ _ H4 H2) H5)
      as (Yb & Mb & Db); congruence.
Qed.

(** The sample camera asked from noon of the 1st to 8 o'clock of the
    2nd: the query for the 1st runs from noon to the end of the day. *)
Lemma day_queries_within_range_witness :
  PyDate.leb (Sample.jan 1 12 0 0) (Sample.jan 1 12 0 0) = true
  /\ PyDate.leb (Sample.jan 1 12 0 0) (Sample.jan 1 23 59 59) = true
  /\ PyDate.leb (Sample.jan 1 23 59 59) (Sample.jan 2 8 0 0) = true
  /\ dt_year (Sample.jan 1 12 0 0) = dt_year (Sample.jan 1 23 59 59)
  /\ dt_month (Sample.jan 1 12 0 0) = dt_month (Sample.jan 1 23 59 59)
  /\ dt_day (Sample.jan 1 12 0 0) = dt_day (Sample.jan 1 23 59 59).
Proof.
  apply (day_queries_within_range Sample.camera 5 "192.168.1.10" "admin"
           "secret" (Sample.jan 1 12 0 0) (Sample.jan 2 8 0 0)
           ["downloads"] Sample.empty_disk 0
           (Sample.jan 1 12 0 0) (Sample.jan 1 23 59 59)).
  - reflexivity.
  - vm_compute. do 4 right. left. reflexivity.
Defined.


(** * The channel *)

Section Channel.

Variables (start_time_ end_time : datetime) (output_dir : path).

Lemma day_run_channel ch y m acc d evs r :
  day_run start_time_ end_time ch y m acc d evs r ->
  Forall (fun ev => call_channel (ev_call ev) = Some ch) evs.
Proof. destruct 1; repeat constructor. Qed.

Lemma collect_run_channel ch sts evs r :
  collect_run start_time_ end_time ch sts evs r ->
  Forall (fun ev => call_channel (ev_call ev) = Some ch) evs.
Proof.
  apply loop_run_Forall. intros acc st evs' r'.
  apply loop_run_Forall. intros. eapply day_run_channel; eauto.
Qed.

Lemma copy_run_channel p evs r :
  copy_run p evs r ->
  Forall (fun ev => call_channel (ev_call ev) = None) evs.
Proof. induction 1; repeat constructor; auto. Qed.

Lemma save_run_channel p evs r :
  save_run p evs r ->
  Forall (fun ev => call_channel (ev_call ev) = None) evs.
Proof.
  destruct 1 as [e | evs r evs' r' Hc Hf]; repeat constructor.
  apply copy_run_channel in Hc.
  destruct Hf; auto; apply Forall_app; split; auto; repeat constructor.
Qed.

Lemma file_run_channel ch idx f evs r :
  file_run output_dir ch idx f evs r ->
  Forall (fun ev => forall ch', call_channel (ev_call ev) = Some ch' ->
                                ch' = ch) evs.
Proof.
  assert (Hnone : forall l,
             Forall (fun ev => call_channel (ev_call ev) = None) l ->
             Forall (fun ev => forall ch', call_channel (ev_call ev)
                                           = Some ch' -> ch' = ch) l).
  { intros l. apply List.Forall_impl. intros ev -> ch'. discriminate. }
  destruct 1 as [e | evs r evs' r' Hs Hf]; constructor;
    try (simpl; intros ch' E; congruence); auto.
  apply save_run_channel in Hs. apply Hnone.
  destruct Hf; auto; apply Forall_app; split; auto; repeat constructor.
Qed.

(** The calls of the body of the outer [try] that name a channel name the
    first of the channels that [get_host_data] reported. *)
Lemma session_run_channel evs r h :
  session_run start_time_ end_time output_dir evs r ->
  In (EvOk GetHostData (RHost h)) evs ->
  Forall (fun ev => forall ch, call_channel (ev_call ev) = Some ch ->
                               head (channels h) = Some ch) evs.
Proof.
  assert (Hsome : forall ch l,
             Forall (fun ev => call_channel (ev_call ev) = Some ch) l ->
             ~ In (EvOk GetHostData (RHost h)) l
             /\ forall h', head (channels h') = Some ch ->
                  Forall (fun ev => forall ch', call_channel (ev_call ev)
                                       = Some ch' ->
                                     head (channels h') = Some ch') l).
  { intros ch l Hl. rewrite List.Forall_forall in Hl. split.
    - intros Hin. apply Hl in Hin. discriminate.
    - intros h' Hh'. apply List.Forall_forall. intros ev Hin ch' E.
      rewrite (Hl ev Hin) in E. congruence. }
  assert (Hfile : forall ch l,
             Forall (fun ev => forall ch', call_channel (ev_call ev)
                                           = Some ch' -> ch' = ch) l ->
             forall h', head (channels h') = Some ch ->
               Forall (fun ev => forall ch', call_channel (ev_call ev)
                                    = Some ch' ->
                                  head (channels h') = Some ch') l).
  { intros ch l Hl h' Hh'. eapply List.Forall_impl; [| exact Hl].
    intros ev Hev ch' E. now rewrite (Hev ch' E). }
  assert (Htr : forall l,
             Forall (fun ev => is_transfer (ev_call ev) = true) l ->
             ~ In (EvOk GetHostData (RHost h)) l).
  { intros l Hl Hin. rewrite List.Forall_forall in Hl.
    apply Hl in Hin. discriminate. }
  destruct 1 as [e | h0 Hh | h0 ch e Hh | h0 ch files Hh
                 | h0 ch sts files evs r Hh Hs Hc Hr
                 | h0 ch sts files evs Hh Hs Hc
                 | h0 ch sts files evs all evs' r Hh Hs Hc Hall Hd];
    intros Hin.
  - repeat constructor. intros ch E. discriminate E.
  - repeat constructor. intros ch E. discriminate E.
  - destruct Hin as [E | [E | []]]; [| discriminate E].
    injection E as ->.
    repeat constructor; simpl; intros ch' E; congruence.
  - destruct Hin as [E | [E | []]]; [| discriminate E].
    injection E as ->.
    repeat constructor; simpl; intros ch' E; congruence.
  - destruct (Hsome _ _ (collect_run_channel _ _ _ _ Hc)) as [Hno Hall].
    destruct Hin as [E | [E | Hin]]; [| discriminate E | tauto].
    injection E as ->.
    constructor; [simpl; intros ch' E; congruence |].
    constructor; [simpl; intros ch' E; congruence | auto].
  - destruct (Hsome _ _ (collect_run_channel _ _ _ _ Hc)) as [Hno Hall'].
    destruct Hin as [E | [E | Hin]]; [| discriminate E | tauto].
    injection E as ->.
    constructor; [simpl; intros ch' E; congruence |].
    constructor; [simpl; intros ch' E; congruence | auto].
  - destruct (Hsome _ _ (collect_run_channel _ _ _ _ Hc)) as [Hno Hall'].
    pose proof (download_run_transfers _ _ _ _ _ _ Hd) as Ht.
    destruct Hin as [E | [E | Hin]]; [| discriminate E |].
    2:{ apply in_app_or in Hin as [Hin | Hin]; [tauto |].
        now apply Htr in Hin. }
    injection E as ->.
    constructor; [simpl; intros ch' E; congruence |].
    constructor; [simpl; intros ch' E; congruence |].
    apply Forall_app. split; [auto |].
    apply (Hfile ch); [| exact Hh].
    eapply loop_run_Forall; [| exact Hd].
    intros. eapply file_run_channel; eauto.
Qed.

End Channel.

(** X3. Only the first channel is used: every file-list query and every
    download of a run names the first of the channels that
    [get_host_data] reported, however many the camera has. *)
Theorem first_channel_only (w : world) (fuel : nat)
    (ip username password : string) (start_time_ end_time : datetime)
    (output_dir : path) (fs0 : filesystem) (h : host_data) (ev : event)
    (channel : Z) :
  In (EvOk GetHostData (RHost h))
     (videos_log w fuel ip username password start_time_ end_time
                 output_dir fs0) ->
  In ev (videos_log w fuel ip username password start_time_ end_time
                    output_dir fs0) ->
  call_channel (ev_call ev) = Some channel ->
  head (channels h) = Some channel.
Proof.
  destruct (videos_log_shape w fuel ip username password start_time_
              end_time output_dir fs0) as [Hshape _].
  revert Hshape.
  generalize (videos_log w fuel ip username password start_time_
                         end_time output_dir fs0) as log.
  generalize (videos_outcome w fuel ip username password start_time_
                             end_time output_dir fs0) as r.
  intros r log Hshape Hh Hev Hch.
  destruct Hshape as [e | evs r0 evs' r' Hs Hf].
  { destruct Hh as [E | []]. discriminate E. }
  destruct Hh as [E | [E | Hh]]; try discriminate E.
  destruct Hev as [<- | [<- | Hev]]; try discriminate Hch.
  assert (Hh' : In (EvOk GetHostData (RHost h)) evs).
  { destruct Hf; auto; apply in_app_or in Hh as [Hh | [E | []]]; auto;
      discriminate E. }
  pose proof (session_run_channel _ _ _ _ _ h Hs Hh') as Hall.
  rewrite List.Forall_forall in Hall.
  assert (Hev' : In ev evs).
  { destruct Hf; auto; apply in_app_or in Hev as [Hev | [<- | []]]; auto;
      discriminate Hch. }
  now apply (Hall ev Hev').
Qed.

(** The status-only query of the sample run names channel 0, the only
    channel of the sample camera. *)
Lemma first_channel_only_witness :
  head (channels (HostData "Front door" [0])) = Some 0.
Proof.
  apply (first_channel_only Sample.camera 5 "192.168.1.10" "admin"
           "secret" (Sample.jan 1 12 0 0) (Sample.jan 2 8 0 0)
           ["downloads"] Sample.empty_disk (HostData "Front door" [0])
           (EvOk (RequestVodFiles 0 (Sample.jan 1 12 0 0)
                    (Sample.jan 2 8 0 0) true)
                 (RVod [VodStatus 2024 1 [1; 2; 3]] []))
           0).
  - vm_compute. do 2 right. left. reflexivity.
  - vm_compute. do 3 right. left. reflexivity.
  - reflexivity.
Defined.


(** * A listed day that is no date *)

(** A loop that returns has run all its iterations. *)
Lemma loop_run_returned_all {A B}
    (R : B -> A -> list event -> outcome B -> Prop) (P : A -> Prop) :
  (forall acc x evs acc', R acc x evs (Returned acc') -> P x) ->
  forall xs acc evs acc',
    loop_run R xs acc evs (Returned acc') -> Forall P xs.
Proof.
  intros HR. induction xs as [|x xs IH]; intros acc evs acc' H;
    [constructor |].
  inversion H as [| ? ? ? ? ? Hb Hr | ? ? ? ? acc1 evs' ? Hb Hl]; subst.
  { discriminate. }
  constructor; eauto.
Qed.

Section NoDate.

Variables (start_time_ end_time : datetime) (output_dir : path).

(** The collection loops return only when every listed day is a date. *)
Lemma collect_run_returned_dates ch sts evs all :
  collect_run start_time_ end_time ch sts evs (Returned all) ->
  ~ lists_no_date sts.
Proof.
  intros H Hno.
  apply (loop_run_returned_all
           (status_run start_time_ end_time ch)
           (fun s => Forall (fun d => valid_date (vs_year s) (vs_month s) d
                                      = true) (vs_days s))) in H.
  - unfold lists_no_date in Hno.
    rewrite List.Exists_exists in Hno. destruct Hno as (s & Hs & Hd).
    rewrite List.Forall_forall in H. specialize (H s Hs).
    rewrite List.Exists_exists in Hd. destruct Hd as (d & Hd & Hbad).
    rewrite List.Forall_forall in H. specialize (H d Hd). congruence.
  - intros acc st evs' acc'. unfold status_run.
    apply loop_run_returned_all.
    intros acc0 d evs0 acc0'. inversion 1; auto.
Qed.

Lemma session_run_no_date evs r ch sts files :
  session_run start_time_ end_time output_dir evs r ->
  In (EvOk (RequestVodFiles ch start_time_ end_time true) (RVod sts files))
     evs ->
  lists_no_date sts ->
  (exists e, r = Raised e)
  /\ Forall (fun ev => is_transfer (ev_call ev) = false) evs.
Proof.
  assert (Hq_in : forall l,
             Forall (fun ev => is_day_query (ev_call ev) = true) l ->
             ~ In (EvOk (RequestVodFiles ch start_time_ end_time true)
                        (RVod sts files)) l).
  { intros l Hl Hin. rewrite List.Forall_forall in Hl.
    apply Hl in Hin. discriminate. }
  assert (Ht_in : forall l,
             Forall (fun ev => is_transfer (ev_call ev) = true) l ->
             ~ In (EvOk (RequestVodFiles ch start_time_ end_time true)
                        (RVod sts files)) l).
  { intros l Hl Hin. rewrite List.Forall_forall in Hl.
    apply Hl in Hin. discriminate. }
  destruct 1 as [e | h Hh | h ch0 e Hh | h ch0 files0 Hh
                 | h ch0 sts0 files0 evs r Hh Hs Hc Hr
                 | h ch0 sts0 files0 evs Hh Hs Hc
                 | h ch0 sts0 files0 evs all evs' r Hh Hs Hc Hall Hd];
    intros Hin Hno.
  - destruct Hin as [E | []]. discriminate E.
  - destruct Hin as [E | []]. discriminate E.
  - destruct Hin as [E | [E | []]]; discriminate E.
  - destruct Hin as [E | [E | []]]; [discriminate E |].
    injection E as _ <- _. inversion Hno.
  - pose proof (collect_run_queries _ _ _ _ _ _ Hc) as Hq.
    split.
    + pose proof (collect_run_pending _ _ _ _ _ _ Hc) as Hp.
      destruct r as [x | e |]; [discriminate | eauto | congruence].
    + repeat constructor. now apply queries_not_transfers.
  - exfalso.
    pose proof (collect_run_queries _ _ _ _ _ _ Hc) as Hq.
    destruct Hin as [E | [E | Hin]];
      [discriminate E | | now apply Hq_in in Hin].
    injection E as _ <- _.
    eapply collect_run_returned_dates; eauto.
  - exfalso.
    pose proof (collect_run_queries _ _ _ _ _ _ Hc) as Hq.
    pose proof (download_run_transfers _ _ _ _ _ _ Hd) as Ht.
    destruct Hin as [E | [E | Hin]]; [discriminate E | |].
    + injection E as _ <- _.
      eapply collect_run_returned_dates; eauto.
    + apply in_app_or in Hin as [Hin | Hin];
        [now apply Hq_in in Hin | now apply Ht_in in Hin].
Qed.

End NoDate.

(** X4. The days of the status list are turned into dates before
    anything is downloaded, so one listed day that is no date (the 31st
    of a 30-day month, say) is enough for nothing to be downloaded: the
    run raises, the download loop is never entered, and the logout is
    still the last call. *)
Theorem no_date_blocks_downloads (w : world) (fuel : nat)
    (ip username password : string) (start_time_ end_time : datetime)
    (output_dir : path) (fs0 : filesystem)
    (channel : Z) (status_list : list vod_status) (files : list vod_file) :
  In (EvOk (RequestVodFiles channel start_time_ end_time true)
           (RVod status_list files))
     (videos_log w fuel ip username password start_time_ end_time
                 output_dir fs0) ->
  lists_no_date status_list ->
  (exists e,
      videos_outcome w fuel ip username password start_time_ end_time
                     output_dir fs0 = Raised e)
  /\ Forall (fun ev => is_transfer (ev_call ev) = false)
       (videos_log w fuel ip username password start_time_ end_time
                   output_dir fs0)
  /\ (exists ev,
         last (videos_log w fuel ip username password start_time_ end_time
                          output_dir fs0) = Some ev
         /\ ev_call ev = Logout).
Proof.
  destruct (videos_log_shape w fuel ip username password start_time_
              end_time output_dir fs0) as [Hshape _].
  revert Hshape.
  generalize (videos_log w fuel ip username password start_time_
                         end_time output_dir fs0) as log.
  generalize (videos_outcome w fuel ip username password start_time_
                             end_time output_dir fs0) as r.
  intros r log Hshape Hin Hno.
  destruct Hshape as [e | evs r0 evs' r' Hs Hf].
  { destruct Hin as [E | []]. discriminate E. }
  destruct Hin as [E | [E | Hin]]; try discriminate E.
  assert (Hin' : In (EvOk (RequestVodFiles channel start_time_ end_time true)
                          (RVod status_list files)) evs).
  { destruct Hf; auto; apply in_app_or in Hin as [Hin | [E | []]]; auto;
      discriminate E. }
  destruct (session_run_no_date _ _ _ _ _ _ _ _ Hs Hin' Hno)
    as [[e ->] Hnt].
  destruct (finally_run_inv _ _ _ _ _ Hf)
    as [(Hx & _) | [(_ & -> & ->) | (_ & e' & -> & ->)]];
    [discriminate Hx | |].
  - split; [eauto |]. split.
    + constructor; [reflexivity |]. constructor; [reflexivity |].
      apply Forall_app. split; [exact Hnt | repeat constructor].
    + exists (EvOk Logout RNone). split; [| reflexivity].
      rewrite !app_comm_cons. apply last_snoc.
  - split; [eauto |]. split.
    + constructor; [reflexivity |]. constructor; [reflexivity |].
      apply Forall_app. split; [exact Hnt | repeat constructor].
    + exists (EvErr Logout e'). split; [| reflexivity].
      rewrite !app_comm_cons. apply last_snoc.
Qed.

(** With the 30th of February in the status list, the run over February
    2024 raises. *)
Lemma no_date_blocks_downloads_witness :
  exists e,
    videos_outcome Faults.camera_lists_feb_30 5 "192.168.1.10" "admin"
      "secret" (DateTime 2024 2 1 0 0 0) (DateTime 2024 3 1 0 0 0)
      ["downloads"] Sample.empty_disk
    = Raised e.
Proof.
  refine (proj1 (no_date_blocks_downloads Faults.camera_lists_feb_30 5
                   "192.168.1.10" "admin" "secret"
                   (DateTime 2024 2 1 0 0 0) (DateTime 2024 3 1 0 0 0)
                   ["downloads"] Sample.empty_disk 0
                   [VodStatus 2024 2 [29; 30]] [] _ _)).
  - vm_compute. do 3 right. left. reflexivity.
  - apply Exists_cons_hd. apply Exists_cons_tl. apply Exists_cons_hd.
    reflexivity.
Defined.


(** * What a run does to the disk *)

Lemma mkdir_walk_files todo : forall fs done fs',
  Disk.mkdir_walk fs done todo = inr fs' -> fs_files fs' = fs_files fs.
Proof.
  induction todo as [|c todo IH]; intros fs done fs' H; simpl in H.
  - now injection H as <-.
  - destruct (Disk.is_dir fs (done ++ [c])); [eauto |].
    destruct (Disk.is_file fs (done ++ [c])); [discriminate |].
    apply IH in H. exact H.
Qed.

Lemma mkdir_files parents exist_ok fs p fs' :
  Disk.mkdir parents exist_ok fs p = inr fs' -> fs_files fs' = fs_files fs.
Proof.
  unfold Disk.mkdir, Disk.mkdir_single. intros H.
  destruct parents.
  - destruct (Disk.is_dir fs p).
    + destruct exist_ok; [now injection H as <- | discriminate].
    + eapply mkdir_walk_files; eauto.
  - destruct (Disk.is_dir fs p).
    + destruct exist_ok; [now injection H as <- | discriminate].
    + destruct (Disk.is_file fs p); [discriminate |].
      destruct (Disk.is_dir fs (removelast p)); [| discriminate].
      now injection H as <-.
Qed.

(** A call changes no file but the one it opens or writes. *)
Lemma effect_other_files c fs fs' p :
  Disk.effect c fs = inr fs' ->
  touched_file c <> Some p ->
  fs_files fs' !! p = fs_files fs !! p.
Proof.
  intros He Hp.
  destruct c; simpl in He, Hp; try (injection He as <-; reflexivity).
  - now rewrite (mkdir_files _ _ _ _ _ He).
  - unfold Disk.open_wb in He.
    destruct (Disk.is_dir fs p0); [discriminate |].
    destruct (Disk.is_dir fs (removelast p0)); [| discriminate].
    injection He as <-. simpl. apply lookup_insert_ne. congruence.
  - injection He as <-. simpl. apply lookup_insert_ne. congruence.
Qed.

Lemma replay_other_files evs : forall fs fs' p,
  Disk.replay fs evs = Some fs' ->
  Forall (fun ev => touched_file (ev_call ev) <> Some p) evs ->
  fs_files fs' !! p = fs_files fs !! p.
Proof.
  induction evs as [|ev evs IH]; intros fs fs' p H HF; simpl in H.
  { now injection H as <-. }
  inversion HF as [|? ? Hev HF']; subst.
  destruct (Disk.apply fs ev) as [fs1|] eqn:Ha; [| discriminate].
  rewrite (IH _ _ _ H HF').
  destruct ev as [c r|c e]; simpl in Ha.
  - destruct (Disk.effect c fs) as [|fs1'] eqn:He; [discriminate |].
    injection Ha as <-. eapply effect_other_files; eauto.
  - now injection Ha as <-.
Qed.

Section Touches.

Variables (start_time_ end_time : datetime) (output_dir : path).

Lemma copy_run_touches p evs r :
  copy_run p evs r ->
  Forall (fun ev => forall q, touched_file (ev_call ev) = Some q -> q = p)
         evs.
Proof.
  induction 1; repeat constructor; auto; simpl; intros q E; congruence.
Qed.

Lemma save_run_touches p evs r :
  save_run p evs r ->
  Forall (fun ev => forall q, touched_file (ev_call ev) = Some q -> q = p)
         evs.
Proof.
  destruct 1 as [e | evs r evs' r' Hc Hf].
  { repeat constructor. simpl. intros q E. congruence. }
  constructor; [simpl; intros q E; congruence |].
  apply copy_run_touches in Hc.
  destruct Hf; auto; apply Forall_app; split; auto; repeat constructor;
    simpl; intros q E; discriminate E.
Qed.

Lemma file_run_touches ch idx f evs r :
  file_run output_dir ch idx f evs r ->
  Forall (touches_output output_dir) evs.
Proof.
  destruct 1 as [e | evs r evs' r' Hs Hf].
  { repeat constructor. intros q E. discriminate E. }
  constructor; [intros q E; discriminate E |].
  assert (Hsave : Forall (touches_output output_dir) evs).
  { apply save_run_touches in Hs.
    eapply List.Forall_impl; [| exact Hs].
    intros ev Hev q E. rewrite (Hev q E). unfold output_path. eauto. }
  destruct Hf; auto; apply Forall_app; split; auto; repeat constructor;
    intros q E; discriminate E.
Qed.

Lemma videos_run_touches ip username password evs r :
  videos_run start_time_ end_time output_dir ip username password evs r ->
  Forall (touches_output output_dir) evs.
Proof.
  assert (Hq : forall l,
             Forall (fun ev => is_day_query (ev_call ev) = true) l ->
             Forall (touches_output output_dir) l).
  { intros l. apply List.Forall_impl.
    intros ev Hev q E. destruct (ev_call ev); discriminate. }
  destruct 1 as [e | evs r0 evs' r' Hs Hf].
  { repeat constructor. intros q E. discriminate E. }
  do 2 (constructor; [intros q E; discriminate E |]).
  assert (Hses : Forall (touches_output output_dir) evs).
  { destruct Hs as [e | h Hh | h ch e Hh | h ch files Hh
                    | h ch sts files evs1 r1 Hh Hs Hc Hr
                    | h ch sts files evs1 Hh Hs Hc
                    | h ch sts files evs1 all evs2 r2 Hh Hs Hc Hall Hd];
      repeat (constructor; [intros q E; discriminate E |]);
      try constructor.
    - apply Hq. eapply collect_run_queries; eauto.
    - apply Hq. eapply collect_run_queries; eauto.
    - apply Forall_app. split.
      + apply Hq. eapply collect_run_queries; eauto.
      + revert Hd. apply loop_run_Forall. intros.
        eapply file_run_touches; eauto. }
  destruct Hf; auto; apply Forall_app; split; auto; repeat constructor;
    intros q E; discriminate E.
Qed.

End Touches.

(** Cleanup calls leave the disk as it is. *)
Lemma replay_cleanup evs : forall fs fs',
  Forall (fun ev => is_cleanup (ev_call ev) = true) evs ->
  Disk.replay fs evs = Some fs' -> fs' = fs.
Proof.
  induction evs as [|ev evs IH]; intros fs fs' HF H; simpl in H.
  { now injection H as <-. }
  inversion HF as [|? ? Hev HF']; subst.
  destruct ev as [c r|c e]; simpl in Hev, H; [| eauto].
  destruct c; try discriminate Hev; simpl in H; eauto.
Qed.

(** X6. A download whose stream breaks midway leaves its partial file
    behind.  When, after the output file was opened and some chunks were
    written, the next read raises, and the [close()] that leaves the
    [with] returns, the file stays on disk holding the chunks written so
    far: the close has flushed them, and nothing removes or rewrites the
    file afterwards. *)
Theorem partial_file_stays (w : world) (fuel : nat)
    (ip username password : string) (start_time_ end_time : datetime)
    (output_dir : path) (fs0 : filesystem)
    (before : list event) (p : path) (chunks : list bytes)
    (e : exn) (after : list event) :
  videos_log w fuel ip username password start_time_ end_time output_dir
             fs0
  = before ++ EvOk (Open p) RNone
      :: flat_map (chunk_events p) chunks
      ++ EvErr (StreamRead 8192) e :: EvOk (CloseFile p) RNone :: after ->
  fs_files (videos_disk w fuel ip username password start_time_ end_time
                        output_dir fs0) !! p
  = Some (List.concat chunks).
Proof.
  intros Hlog.
  destruct (videos_log_shape w fuel ip username password start_time_
              end_time output_dir fs0) as [Hshape Hreplay].
  rewrite Hlog in Hshape, Hreplay. clear Hlog. revert Hshape Hreplay.
  generalize (videos_outcome w fuel ip username password start_time_
                             end_time output_dir fs0) as r.
  generalize (videos_disk w fuel ip username password start_time_
                          end_time output_dir fs0) as disk.
  intros disk r Hshape Hreplay.
  assert (Hafter : Forall (fun ev => is_cleanup (ev_call ev) = true)
                          (EvOk (CloseFile p) RNone :: after)).
  { destruct (videos_run_fail_stop _ _ _ _ _ _ _ _ Hshape)
      as [Hok | (b & t & j & e0 & Heq & Hb & Ht & Hj & ->)].
    { apply Forall_app in Hok as [_ Hok].
      inversion Hok as [|? ? _ Hok1]; subst.
      apply Forall_app in Hok1 as [_ Hok1].
      inversion Hok1 as [|? ? Hx _]; subst. discriminate. }
    assert (Hcut : b ++ t
                   = (before ++ EvOk (Open p) RNone
                        :: flat_map (chunk_events p) chunks)
                     ++ EvErr (StreamRead 8192) e
                        :: EvOk (CloseFile p) RNone :: after).
    { rewrite <- Heq, <- !app_assoc. reflexivity. }
    destruct (split_after_ok _ _ _ _ _ Hcut Hb eq_refl) as (t1 & _ & ->).
    destruct (failed_tail_split _ _ _ Ht _ _ _ _ eq_refl) as [Hranks _].
    eapply List.Forall_impl; [| exact Hranks].
    intros ev Hev. cbv beta in Hev. unfold is_cleanup.
    apply Nat.ltb_lt. lia. }
  apply replay_app_inv in Hreplay as (fs1 & _ & H1).
  cbn [Disk.replay Disk.apply Disk.effect] in H1.
  destruct (Disk.open_wb fs1 p) as [x|fs2] eqn:Hopen; [discriminate |].
  apply replay_app_inv in H1 as (fs3 & H3 & H4).
  change (Disk.replay fs3 (EvOk (CloseFile p) RNone :: after) = Some disk)
    in H4.
  apply (replay_cleanup _ _ _ Hafter) in H4. subst disk.
  unfold Disk.open_wb in Hopen.
  destruct (Disk.is_dir fs1 p); [discriminate |].
  destruct (Disk.is_dir fs1 (removelast p)); [| discriminate].
  injection Hopen as <-.
  apply replay_chunks with (c0 := []) in H3; [exact (proj1 H3) |].
  simpl. apply lookup_insert_eq.
Qed.

(** The stream of the first recording breaks after its first chunk and
    the file is closed: the chunk is on disk when the run is over. *)
Lemma partial_file_stays_witness :
  fs_files (videos_disk Faults.camera_stream_breaks 5 "192.168.1.10"
              "admin" "secret" (Sample.jan 1 12 0 0) (Sample.jan 2 8 0 0)
              ["downloads"] Sample.empty_disk)
    !! ["downloads"; "20240101_120000_RecM01_120000.mp4"]
  = Some [x01; x02]%byte.
Proof.
  apply (partial_file_stays Faults.camera_stream_breaks 5 "192.168.1.10"
           "admin" "secret" (Sample.jan 1 12 0 0) (Sample.jan 2 8 0 0)
           ["downloads"] Sample.empty_disk
           (firstn 7 (videos_log Faults.camera_stream_breaks 5
                        "192.168.1.10" "admin" "secret"
                        (Sample.jan 1 12 0 0) (Sample.jan 2 8 0 0)
                        ["downloads"] Sample.empty_disk))
           ["downloads"; "20240101_120000_RecM01_120000.mp4"]
           [[x01; x02]%byte]
           (ReolinkError "connection reset")
           (skipn 12 (videos_log Faults.camera_stream_breaks 5
                        "192.168.1.10" "admin" "secret"
                        (Sample.jan 1 12 0 0) (Sample.jan 2 8 0 0)
                        ["downloads"] Sample.empty_disk))).
  vm_compute. reflexivity.
Defined.


(** * A file where the output directory should be *)

Lemma is_dir_add_dir_other fs p q :
  q <> p -> Disk.is_dir (Disk.add_dir p fs) q = Disk.is_dir fs q.
Proof.
  intros Hq. unfold Disk.is_dir, Disk.add_dir. simpl. f_equal.
  apply bool_decide_ext. rewrite elem_of_union, elem_of_singleton. tauto.
Qed.

(** Walking down to create the directories stops at a regular file. *)
Lemma mkdir_walk_blocked k : forall done post fs,
  k <> [] ->
  Disk.is_dir fs (done ++ k) = false ->
  Disk.is_file fs (done ++ k) = true ->
  exists e, Disk.mkdir_walk fs done (k ++ post) = inl e.
Proof.
  induction k as [|c k IH]; intros done post fs Hk Hd Hf; [congruence |].
  simpl. destruct k as [|c' k].
  - rewrite Hd, Hf. eauto.
  - assert (Hcut : done ++ c :: c' :: k = (done ++ [c]) ++ c' :: k)
      by now rewrite <- app_assoc.
    rewrite Hcut in Hd, Hf.
    destruct (Disk.is_dir fs (done ++ [c])).
    { apply IH; [discriminate | exact Hd | exact Hf]. }
    destruct (Disk.is_file fs (done ++ [c])); [eauto |].
    apply IH; [discriminate | | exact Hf].
    rewrite is_dir_add_dir_other; [exact Hd |].
    intros E. apply (f_equal (@List.length string)) in E.
    rewrite !length_app in E. simpl in E. lia.
Qed.

(** X7. A regular file where the output directory, or one of the
    directories above it, should be stops the run at its first step:
    [mkdir] raises, and that is the whole run.  No client is built, the
    camera is not contacted, and the disk is as it was. *)
Theorem file_in_the_way (w : world) (fuel : nat)
    (ip username password : string) (start_time_ end_time : datetime)
    (fs0 : filesystem) (above below : path) :
  above <> [] ->
  Disk.is_file fs0 above = true ->
  Disk.is_dir fs0 above = false ->
  Disk.is_dir fs0 (above ++ below) = false ->
  exists e,
    videos_log w fuel ip username password start_time_ end_time
               (above ++ below) fs0
    = [EvErr (Mkdir (above ++ below) true true) e]
    /\ videos_outcome w fuel ip username password start_time_ end_time
                      (above ++ below) fs0 = Raised e
    /\ videos_disk w fuel ip username password start_time_ end_time
                   (above ++ below) fs0 = fs0.
Proof.
  intros Hne Hfile Hdir Hout.
  unfold videos_log, videos_outcome, videos_disk, download_videos, bind,
    call_disk.
  cbn [boot st_trace st_fs].
  destruct (disk_fault w [] (Mkdir (above ++ below) true true)) as [e|].
  { exists e. auto. }
  cbn [Disk.effect]. unfold Disk.mkdir. rewrite Hout.
  destruct (mkdir_walk_blocked above [] below fs0 Hne Hdir Hfile)
    as [e He].
  rewrite He. exists e. auto.
Qed.

(** [downloads] is a file: the run is one failed [mkdir]. *)
Lemma file_in_the_way_witness :
  exists e,
    videos_log Sample.camera 5 "192.168.1.10" "admin" "secret"
      (Sample.jan 1 12 0 0) (Sample.jan 2 8 0 0) (["downloads"] ++ [])
      Faults.disk_with_file_downloads
    = [EvErr (Mkdir (["downloads"] ++ []) true true) e]
    /\ videos_outcome Sample.camera 5 "192.168.1.10" "admin" "secret"
         (Sample.jan 1 12 0 0) (Sample.jan 2 8 0 0) (["downloads"] ++ [])
         Faults.disk_with_file_downloads = Raised e
    /\ videos_disk Sample.camera 5 "192.168.1.10" "admin" "secret"
         (Sample.jan 1 12 0 0) (Sample.jan 2 8 0 0) (["downloads"] ++ [])
         Faults.disk_with_file_downloads
       = Faults.disk_with_file_downloads.
Proof.
  apply (file_in_the_way Sample.camera 5 "192.168.1.10" "admin" "secret"
           (Sample.jan 1 12 0 0) (Sample.jan 2 8 0 0)
           Faults.disk_with_file_downloads ["downloads"] []).
  - discriminate.
  - vm_compute. reflexivity.
  - vm_compute. reflexivity.
  - vm_compute. reflexivity.
Defined.


(** * Output files are closed *)

(** A file that is open and closed at the end was closed on the way. *)
Lemma file_closed_on_the_way p evs :
  files_after (Some (Some p)) evs = Some None ->
  In (CloseFile p) (map ev_call evs).
Proof.
  induction evs as [|ev evs IH]; simpl; [discriminate |].
  destruct (ev_call ev) as [| | | | | q | | q data | q | |];
    try (rewrite files_after_none; discriminate); auto.
  - destruct (decide (q = p)) as [-> | Hq];
      [auto | rewrite files_after_none; discriminate].
  - destruct (decide (q = p)) as [-> | Hq];
      [auto | rewrite files_after_none; discriminate].
Qed.

(** X8. Output files do not stay open.  Followed through the log of
    any run, the [with open(...)] discipline holds: at most one output
    file is open at a time, every write goes to the file that is open,
    reads happen only while it is open, and nothing else is called in
    between.  When the run has ended, by returning or by raising, no
    file is open: every file that was opened has been closed, before the
    [close()] of its download. *)
Theorem output_files_are_closed (w : world) (fuel : nat)
    (ip username password : string) (start_time_ end_time : datetime)
    (output_dir : path) (fs0 : filesystem) :
  (exists cur,
      files_after (Some None)
        (videos_log w fuel ip username password start_time_ end_time
                    output_dir fs0) = Some cur
      /\ (videos_outcome w fuel ip username password start_time_ end_time
                         output_dir fs0 <> Pending -> cur = None))
  /\ forall before p rp after,
      videos_outcome w fuel ip username password start_time_ end_time
                     output_dir fs0 <> Pending ->
      videos_log w fuel ip username password start_time_ end_time
                 output_dir fs0 = before ++ EvOk (Open p) rp :: after ->
      In (CloseFile p) (map ev_call after).
Proof.
  destruct (videos_log_shape w fuel ip username password start_time_
              end_time output_dir fs0) as [Hshape _].
  apply videos_run_keeps in Hshape. destruct Hshape as (cur & Hcur & Hend).
  split; [exists cur; auto |].
  intros before p rp after Hr Hlog.
  rewrite (Hend Hr), Hlog, files_after_app in Hcur.
  apply file_closed_on_the_way.
  destruct (files_after (Some None) before) as [[q|]|]; simpl in Hcur.
  - rewrite files_after_none in Hcur. discriminate.
  - exact Hcur.
  - rewrite files_after_none in Hcur. discriminate.
Qed.

(** The stream breaks after the first chunk: the output file is closed
    all the same. *)
Lemma output_files_are_closed_witness :
  In (CloseFile ["downloads"; "20240101_120000_RecM01_120000.mp4"])
     (map ev_call
        (skipn 8 (videos_log Faults.camera_stream_breaks 5 "192.168.1.10"
                    "admin" "secret" (Sample.jan 1 12 0 0)
                    (Sample.jan 2 8 0 0) ["downloads"]
                    Sample.empty_disk))).
Proof.
  apply (proj2 (output_files_are_closed Faults.camera_stream_breaks 5
                  "192.168.1.10" "admin" "secret" (Sample.jan 1 12 0 0)
                  (Sample.jan 2 8 0 0) ["downloads"] Sample.empty_disk)
           (firstn 7 (videos_log Faults.camera_stream_breaks 5
                        "192.168.1.10" "admin" "secret"
                        (Sample.jan 1 12 0 0) (Sample.jan 2 8 0 0)
                        ["downloads"] Sample.empty_disk))
           ["downloads"; "20240101_120000_RecM01_120000.mp4"] RNone).
  - vm_compute. discriminate.
  - vm_compute. reflexivity.
Defined.


(** * Output file names are plain names *)

Lemma occurs_append c (p q : string) :
  occurs c (p +:+ q) = occurs c p || occurs c q.
Proof.
  induction p as [|a p IH]; [reflexivity |].
  change (occurs c (String a (p +:+ q))
          = occurs c (String a p) || occurs c q).
  simpl. rewrite IH. apply orb_assoc.
Qed.

Lemma occurs_substring c s : forall n m,
  occurs c s = false -> occurs c (substring n m s) = false.
Proof.
  induction s as [|a s IH]; intros n m H.
  - destruct n, m; reflexivity.
  - simpl in H. apply orb_false_iff in H as [Ha Hs].
    destruct n as [|n]; simpl.
    + destruct m as [|m]; [reflexivity |]. simpl. rewrite Ha. now apply IH.
    + now apply IH.
Qed.

(** The parts [split] cuts a string into do not hold the separator. *)
Lemma split_parts sep s :
  Forall (fun w => occurs sep w = false) (PyStr.split sep s).
Proof.
  induction s as [|a s IH]; simpl.
  - repeat constructor.
  - destruct (Ascii.eqb a sep) eqn:E.
    + constructor; [reflexivity | exact IH].
    + destruct (PyStr.split sep s) as [|w ws].
      * repeat constructor. simpl. now rewrite E.
      * inversion IH; subst. constructor; [| assumption].
        simpl. now rewrite E.
Qed.

(** A string without the separator is its own single part. *)
Lemma split_whole sep s : occurs sep s = false -> PyStr.split sep s = [s].
Proof.
  induction s as [|a s IH]; simpl; [reflexivity |].
  intros H. apply orb_false_iff in H as [Ha Hs].
  now rewrite Ha, (IH Hs).
Qed.

Lemma name_no_slash s : occurs "/" (PyPath.name s) = false.
Proof.
  unfold PyPath.name, PyPath.tail_of.
  pose proof (split_parts "/" s) as H.
  induction H as [|w ws Hw _ IH]; [reflexivity |].
  simpl. destruct (PyPath.keep_component w); [| exact IH].
  simpl. destruct (List.filter PyPath.keep_component ws); auto.
Qed.

Lemma pretty_N_go_no_slash x : forall s,
  occurs "/" s = false -> occurs "/" (pretty_N_go x s) = false.
Proof.
  induction (N.lt_wf_0 x) as [x _ IH]. intros s Hs.
  destruct (N.eq_dec x 0%N) as [-> | Hx]; [exact Hs |].
  rewrite pretty_N_go_step by lia.
  apply IH; [apply N.div_lt; lia |].
  simpl. rewrite Hs, orb_false_r.
  unfold pretty_N_char.
  destruct (x mod 10)%N as [|[[[|[]|]|[|[]|]|]|[[|[]|]|[|[]|]|]|]];
    reflexivity.
Qed.

Lemma of_int_no_slash n : occurs "/" (PyStr.of_int n) = false.
Proof.
  assert (Hpos : forall p, occurs "/" (pretty (N.pos p)) = false).
  { intros p. unfold pretty, pretty_N.
    destruct (decide (N.pos p = 0%N)); [reflexivity |].
    now apply pretty_N_go_no_slash. }
  unfold PyStr.of_int, pretty, pretty_Z. destruct n as [|p|p].
  - reflexivity.
  - apply Hpos.
  - rewrite occurs_append. simpl. apply Hpos.
Qed.

Lemma zero_pad_no_slash k n : occurs "/" (PyStr.zero_pad k n) = false.
Proof.
  unfold PyStr.zero_pad. rewrite occurs_append.
  fold (PyStr.of_int n). rewrite of_int_no_slash, orb_false_r.
  induction (k - String.length (PyStr.of_int n))%nat; simpl; auto.
Qed.

Lemma timestamp_str_no_slash idx f : occurs "/" (timestamp_str idx f) = false.
Proof.
  unfold timestamp_str. destruct (start_time f) as [t|].
  - change (PyDate.strftime "%Y%m%d_%H%M%S" t)
      with (PyStr.zero_pad 4 (dt_year t)
            +:+ PyStr.zero_pad 2 (dt_month t)
            +:+ PyStr.zero_pad 2 (dt_day t)
            +:+ "_"
            +:+ PyStr.zero_pad 2 (dt_hour t)
            +:+ PyStr.zero_pad 2 (dt_minute t)
            +:+ PyStr.zero_pad 2 (dt_second t) +:+ "").
    now rewrite !occurs_append, !zero_pad_no_slash.
  - now rewrite occurs_append, of_int_no_slash.
Qed.

Lemma clean_name_no_slash idx f : occurs "/" (clean_name idx f) = false.
Proof.
  assert (H : occurs "/" (if String.eqb (file_name f) ""
                          then "recording_" +:+ PyStr.of_int idx
                          else PyPath.name (file_name f)) = false).
  { destruct (String.eqb (file_name f) "").
    - now rewrite occurs_append, of_int_no_slash.
    - apply name_no_slash. }
  unfold clean_name.
  destruct (PyStr.endswith _ ".mp4"); [| exact H].
  unfold PyStr.drop_last. now apply occurs_substring.
Qed.

(** [Path(s)] for a string that is one plain name. *)
Lemma of_string_plain s :
  occurs "/" s = false -> s <> "" -> s <> "." ->
  PyPath.of_string s = [s].
Proof.
  intros Hs He Hd.
  assert (Ht : PyPath.tail_of s = [s]).
  { unfold PyPath.tail_of. rewrite (split_whole _ _ Hs). simpl.
    unfold PyPath.keep_component.
    apply String.eqb_neq in He, Hd. now rewrite He, Hd. }
  unfold PyPath.of_string. destruct s as [|a s]; [congruence |].
  simpl in Hs. apply orb_false_iff in Hs as [Ha _].
  destruct a as [[] [] [] [] [] [] [] []]; try exact Ht; discriminate Ha.
Qed.

(** X9. Whatever names the camera reports, an output file name is one
    plain path component: it holds no [/], it is not empty, [.] or
    [..], and as a path it has the single part itself.  So
    [output_dir / output_filename] is a file directly inside
    [output_dir]: a recording's name cannot direct the download
    elsewhere. *)
Theorem output_filename_plain (idx : Z) (f : vod_file) :
  occurs "/" (output_filename idx f) = false
  /\ output_filename idx f <> ""
  /\ output_filename idx f <> "."
  /\ output_filename idx f <> ".."
  /\ PyPath.of_string (output_filename idx f) = [output_filename idx f]
  /\ forall output_dir,
      PyPath.child output_dir (output_filename idx f)
      = output_dir ++ PyPath.of_string (output_filename idx f).
Proof.
  assert (Hslash : occurs "/" (output_filename idx f) = false).
  { unfold output_filename.
    now rewrite !occurs_append, timestamp_str_no_slash,
      clean_name_no_slash. }
  assert (Hlen : (5 <= String.length (output_filename idx f))%nat).
  { unfold output_filename. rewrite !length_append. simpl. lia. }
  assert (Hne : forall s, (String.length s < 5)%nat ->
                          output_filename idx f <> s).
  { intros s Hs E. rewrite E in Hlen. lia. }
  assert (H1 : output_filename idx f <> "") by (apply Hne; simpl; lia).
  assert (H2 : output_filename idx f <> ".") by (apply Hne; simpl; lia).
  assert (H3 : output_filename idx f <> "..") by (apply Hne; simpl; lia).
  repeat split; auto.
  - now apply of_string_plain.
  - intros output_dir. now rewrite of_string_plain.
Qed.

(** ** Files that are not output files *)

Lemma output_filename_plain_name idx f :
  plain_name (output_filename idx f) = true.
Proof.
  assert (Hlen : (5 <= String.length (output_filename idx f))%nat).
  { unfold output_filename. rewrite !length_append. simpl. lia. }
  assert (Hne : forall s, (String.length s < 5)%nat ->
                          String.eqb (output_filename idx f) s = false).
  { intros s Hs. apply String.eqb_neq. intros E. rewrite E in Hlen. lia. }
  unfold plain_name.
  rewrite !Hne by (simpl; lia).
  unfold output_filename.
  now rewrite !occurs_append, timestamp_str_no_slash, clean_name_no_slash.
Qed.

Lemma forallb_snoc {A} (P : A -> bool) l x :
  forallb P (l ++ [x]) = forallb P l && P x.
Proof. rewrite forallb_app. simpl. now rewrite andb_true_r. Qed.

(** In a directory spelled plainly, an output file is spelled plainly,
    and is relative or absolute as the directory is. *)
Lemma output_path_plain output_dir idx f :
  plain_path output_dir = true ->
  plain_path (PyPath.child output_dir (output_filename idx f)) = true
  /\ is_absolute (PyPath.child output_dir (output_filename idx f))
     = is_absolute output_dir.
Proof.
  pose proof (output_filename_plain_name idx f) as Hn.
  unfold plain_path, PyPath.child. intros Hd.
  destruct output_dir as [|c rest]; simpl.
  - assert (Hroot : String.eqb (output_filename idx f) "/" = false).
    { apply String.eqb_neq. intros E. rewrite E in Hn. discriminate Hn. }
    rewrite Hroot. simpl. now rewrite Hn.
  - simpl in Hd. destruct (String.eqb c "/").
    + simpl in Hd. now rewrite forallb_snoc, Hd, Hn.
    + simpl in Hd. apply andb_prop in Hd as [Hc Hr].
      simpl. now rewrite Hc, forallb_snoc, Hr, Hn.
Qed.

(** X5. A run changes no file but its output files.  For an output
    directory and a path [p] spelled plainly (no [..]), both relative or
    both absolute, on a disk without links: the output files are spelled
    plainly too, so [p] is one of them only if it is
    [output_dir / output_filename] for some recording, part for part; and
    if it is none of them, it holds after the run what it held before,
    and is absent if it was absent. *)
Theorem other_files_untouched (w : world) (fuel : nat)
    (ip username password : string) (start_time_ end_time : datetime)
    (output_dir : path) (fs0 : filesystem) (p : path) :
  plain_path output_dir = true ->
  plain_path p = true ->
  is_absolute p = is_absolute output_dir ->
  (forall idx f, p <> PyPath.child output_dir (output_filename idx f)) ->
  (forall idx f,
      plain_path (PyPath.child output_dir (output_filename idx f)) = true
      /\ is_absolute (PyPath.child output_dir (output_filename idx f))
         = is_absolute p)
  /\ fs_files (videos_disk w fuel ip username password start_time_ end_time
                           output_dir fs0) !! p
     = fs_files fs0 !! p.
Proof.
  intros Hdir Hplain Hroot Hp. split.
  { intros idx f. rewrite Hroot. now apply output_path_plain. }
  destruct (videos_log_shape w fuel ip username password start_time_
              end_time output_dir fs0) as [Hshape Hreplay].
  apply videos_run_touches in Hshape.
  eapply replay_other_files; [exact Hreplay |].
  eapply List.Forall_impl; [| exact Hshape].
  intros ev Hev E. destruct (Hev p E) as (idx & f & ->).
  now apply (Hp idx f).
Qed.

(** The notes beside the download directory are as they were. *)
Lemma other_files_untouched_witness :
  fs_files (videos_disk Sample.camera 5 "192.168.1.10" "admin" "secret"
              (Sample.jan 1 12 0 0) (Sample.jan 2 8 0 0) ["downloads"]
              Faults.disk_with_notes) !! ["notes.txt"]
  = Some [x68; x69]%byte.
Proof.
  transitivity (fs_files Faults.disk_with_notes !! ["notes.txt"]).
  - apply (other_files_untouched Sample.camera 5 "192.168.1.10" "admin"
             "secret" (Sample.jan 1 12 0 0) (Sample.jan 2 8 0 0)
             ["downloads"] Faults.disk_with_notes ["notes.txt"]).
    + reflexivity.
    + reflexivity.
    + reflexivity.
    + intros idx f H. discriminate H.
  - vm_compute. reflexivity.
Defined.


(** * What is reported, and where *)

Lemma quiet_ret {A} (a : A) : quiet (ret a).
Proof. intros s. reflexivity. Qed.

Lemma quiet_raise {A} e : quiet (@raise A e).
Proof. intros s. reflexivity. Qed.

Lemma quiet_pending {A} : quiet (@pending A).
Proof. intros s. reflexivity. Qed.

Lemma quiet_print msg : quiet (print msg).
Proof. intros s. reflexivity. Qed.

Lemma quiet_lift {A} (r : exn + A) : quiet (lift r).
Proof. destruct r; intros s; reflexivity. Qed.

Lemma quiet_bind {A B} (m : M A) (k : A -> M B) :
  quiet m -> (forall a, quiet (k a)) -> quiet (bind m k).
Proof.
  intros Hm Hk s. unfold bind. specialize (Hm s).
  destruct (m s) as [s1 [a| |]]; simpl in Hm; [| exact Hm | exact Hm].
  now rewrite Hk.
Qed.

Lemma quiet_finally {A} (body : M A) (cleanup : M unit) :
  quiet body -> quiet cleanup -> quiet (try_finally body cleanup).
Proof.
  intros Hb Hc s. unfold try_finally. specialize (Hb s).
  destruct (body s) as [s1 [a|e|]]; simpl in Hb; [| | exact Hb];
    specialize (Hc s1); destruct (cleanup s1) as [s2 [[]| |]];
    simpl in *; congruence.
Qed.

Lemma quiet_for_each {A B} (body : B -> A -> M B) xs :
  (forall acc x, quiet (body acc x)) ->
  forall acc, quiet (for_each body xs acc).
Proof.
  intros Hb. induction xs as [|x xs IH]; intros acc; simpl.
  - apply quiet_ret.
  - apply quiet_bind; auto.
Qed.

Section Quiet.

Variable w : world.

Lemma quiet_call_lib {A} c (wrap : A -> reply) ask :
  quiet (call_lib c wrap ask).
Proof. intros s. unfold call_lib. destruct (ask (st_trace s)); reflexivity. Qed.

Lemma quiet_call_disk c : quiet (call_disk w c).
Proof.
  intros s. unfold call_disk.
  destruct (disk_fault w (st_trace s) c); [reflexivity |].
  destruct (Disk.effect c (st_fs s)); reflexivity.
Qed.

Lemma quiet_copy_stream fuel p : quiet (copy_stream w fuel p).
Proof.
  induction fuel as [|fuel IH]; simpl; [apply quiet_pending |].
  apply quiet_bind; [apply quiet_call_lib |].
  intros [|b chunk]; [apply quiet_ret |].
  apply quiet_bind; [apply quiet_call_disk | auto].
Qed.

Variables (fuel : nat) (ip username password : string)
          (start_time_ end_time : datetime) (output_dir : path).

Lemma quiet_download_one channel total idx f :
  quiet (download_one w fuel output_dir channel total idx f).
Proof.
  unfold download_one, with_open_wb.
  apply quiet_bind; [apply quiet_print | intros _].
  apply quiet_bind; [apply quiet_call_lib | intros _].
  apply quiet_bind; [| intros _; apply quiet_ret].
  apply quiet_finally; [| apply quiet_call_lib].
  apply quiet_bind; [| intros _; apply quiet_print].
  apply quiet_bind; [apply quiet_call_disk | intros _].
  apply quiet_finally; [apply quiet_copy_stream | apply quiet_call_disk].
Qed.

Lemma quiet_check_day channel year month acc day :
  quiet (check_day w start_time_ end_time channel year month acc day).
Proof.
  unfold check_day.
  apply quiet_bind; [apply quiet_lift | intros day_start].
  apply quiet_bind; [apply quiet_lift | intros day_end].
  destruct (_ || _); [apply quiet_ret |].
  apply quiet_bind; [apply quiet_print | intros _].
  apply quiet_bind; [apply quiet_call_lib | intros r].
  destruct (snd r); [apply quiet_ret |].
  apply quiet_bind; [apply quiet_print | intros _; apply quiet_ret].
Qed.

(** The body of the outer [try] prints on the standard output only. *)
Lemma quiet_session :
  quiet (session w fuel start_time_ end_time output_dir).
Proof.
  unfold session.
  apply quiet_bind; [apply quiet_call_lib | intros h].
  apply quiet_bind; [apply quiet_print | intros _].
  destruct (channels h) as [|channel rest]; [apply quiet_print |].
  apply quiet_bind; [apply quiet_print | intros _].
  apply quiet_bind; [apply quiet_print | intros _].
  apply quiet_bind; [apply quiet_call_lib | intros r].
  destruct (fst r) as [|st sts]; [apply quiet_print |].
  apply quiet_bind.
  { unfold collect_vod_files. apply quiet_for_each. intros acc st'.
    unfold check_status. apply quiet_for_each. intros acc' d.
    apply quiet_check_day. }
  intros all. destruct all as [|f all]; [apply quiet_print |].
  apply quiet_bind; [apply quiet_print | intros _].
  apply quiet_bind; [| intros _; apply quiet_print].
  apply quiet_for_each. intros idx f'. apply quiet_download_one.
Qed.

(** [download_videos] writes at most one line to the standard error
    stream, and none when it returns. *)
Lemma download_videos_stderr s :
  (exists lines,
      st_err (fst (download_videos w fuel ip username password start_time_
                                   end_time output_dir s))
      = st_err s ++ lines)
  /\ (forall u,
        snd (download_videos w fuel ip username password start_time_
                             end_time output_dir s) = Returned u ->
        st_err (fst (download_videos w fuel ip username password
                       start_time_ end_time output_dir s))
        = st_err s).
Proof.
  unfold download_videos, bind.
  pose proof (quiet_call_disk (Mkdir output_dir true true) s) as Hmk.
  destruct (call_disk w (Mkdir output_dir true true) s) as [s1 [[]|e|]];
    simpl in Hmk;
    [| split; [exists []; rewrite app_nil_r; exact Hmk | discriminate]
     | split; [exists []; rewrite app_nil_r; exact Hmk | discriminate]].
  cbn [print host_new fst snd].
  set (s3 := log _ _).
  assert (H3 : st_err s3 = st_err s) by exact Hmk.
  clearbody s3. clear Hmk.
  unfold try_finally, try_except_Exception.
  pose proof (quiet_session s3) as Hses.
  destruct (session w fuel start_time_ end_time output_dir s3)
    as [s4 [[]|e|]]; simpl in Hses.
  - pose proof (quiet_call_lib Logout (fun _ => RNone) (cam_logout w) s4)
      as Hout.
    fold (logout w) in Hout.
    destruct (logout w s4) as [s5 [[]| |]]; simpl in *;
      (split; [exists []; rewrite app_nil_r; congruence
              | intros; try discriminate; congruence]).
  - destruct (is_Exception e).
    + unfold bind, eprint, raise. cbn [fst snd].
      set (s5 := State _ _ _ _).
      pose proof (quiet_call_lib Logout (fun _ => RNone) (cam_logout w) s5)
        as Hout.
      fold (logout w) in Hout.
      destruct (logout w s5) as [s6 [[]| |]]; simpl in *;
        (split; [exists ["Error: " +:+ exn_str e]; congruence
                | intros; discriminate]).
    + pose proof (quiet_call_lib Logout (fun _ => RNone) (cam_logout w) s4)
        as Hout.
      fold (logout w) in Hout.
      destruct (logout w s4) as [s5 [[]| |]]; simpl in *;
        (split; [exists []; rewrite app_nil_r; congruence
                | intros; discriminate]).
  - simpl. split; [exists []; rewrite app_nil_r; congruence
                  | intros; discriminate].
Qed.

(** When an exception of the body of the [try] leaves
    [download_videos] through a logout that returned, line 145 has
    reported it. *)
Lemma download_videos_reported s e :
  snd (download_videos w fuel ip username password start_time_ end_time
                       output_dir s) = Raised e ->
  is_Exception e = true ->
  last (st_trace (fst (download_videos w fuel ip username password
                         start_time_ end_time output_dir s)))
  = Some (EvOk Logout RNone) ->
  st_err (fst (download_videos w fuel ip username password start_time_
                               end_time output_dir s))
  = st_err s ++ ["Error: " +:+ exn_str e].
Proof.
  unfold download_videos, bind, call_disk.
  destruct (disk_fault w (st_trace s) (Mkdir output_dir true true))
    as [e0|].
  { simpl. intros _ _ Hlast. rewrite last_snoc in Hlast. discriminate. }
  destruct (Disk.effect (Mkdir output_dir true true) (st_fs s))
    as [e0|fs'].
  { simpl. intros _ _ Hlast. rewrite last_snoc in Hlast. discriminate. }
  cbn [print host_new fst snd].
  set (s3 := log _ _).
  assert (H3 : st_err s3 = st_err s) by reflexivity.
  clearbody s3.
  unfold try_finally, try_except_Exception.
  pose proof (quiet_session s3) as Hses.
  destruct (session w fuel start_time_ end_time output_dir s3)
    as [s4 [[]|e1|]]; simpl in Hses.
  - unfold logout, call_lib.
    destruct (cam_logout w (st_trace s4)) as [e'|[]]; simpl;
      intros Hr He Hlast; [| discriminate].
    rewrite last_snoc in Hlast. discriminate.
  - destruct (is_Exception e1) eqn:Hex.
    + unfold bind, eprint, raise. cbn [fst snd].
      set (s5 := State _ _ _ _).
      assert (H5 : st_err s5 = st_err s ++ ["Error: " +:+ exn_str e1])
        by (unfold s5; simpl; congruence).
      assert (T5 : st_trace s5 = st_trace s4) by reflexivity.
      clearbody s5.
      unfold logout, call_lib.
      destruct (cam_logout w (st_trace s5)) as [e'|[]]; simpl;
        intros Hr He Hlast.
      * rewrite last_snoc in Hlast. discriminate.
      * injection Hr as <-. exact H5.
    + unfold logout, call_lib.
      destruct (cam_logout w (st_trace s4)) as [e'|[]]; simpl;
        intros Hr He Hlast.
      * rewrite last_snoc in Hlast. discriminate.
      * injection Hr as <-. congruence.
  - simpl. discriminate.
Qed.

End Quiet.

(** X10. [main] is silent on success and never silent on failure.  It
    ends in one of four ways: with exit status 0, having written nothing
    to the standard error stream; with exit status 1, having written at
    least one line to it; with exit status 1 after [KeyboardInterrupt],
    the last line of the standard output saying that the download was
    cancelled; or still running (the copy loop has not seen the end of a
    stream). *)
Theorem main_reports
    (strptime : string -> string -> option datetime) (w : world)
    (fuel : nat) (a : args) (s : state) :
  (snd (main strptime w fuel a s) = Exit 0
   /\ st_err (fst (main strptime w fuel a s)) = st_err s)
  \/ (snd (main strptime w fuel a s) = Exit 1
      /\ exists lines msg,
          st_err (fst (main strptime w fuel a s))
          = st_err s ++ lines ++ [msg])
  \/ (snd (main strptime w fuel a s) = Exit 1
      /\ last (st_out (fst (main strptime w fuel a s)))
         = Some (nl +:+ "Download cancelled by user"))
  \/ snd (main strptime w fuel a s) = Running.
Proof.
  unfold main.
  destruct (parse_datetime strptime (arg_start_time a)) as [e|start_time_].
  { right. left. split; [reflexivity |]. exists [], ("Error: " +:+ exn_str e).
    reflexivity. }
  destruct (parse_datetime strptime (arg_end_time a)) as [e|end_time].
  { right. left. split; [reflexivity |]. exists [], ("Error: " +:+ exn_str e).
    reflexivity. }
  destruct (PyDate.geb start_time_ end_time).
  { right. left. split; [reflexivity |].
    exists [], "Error: start-time must be before end-time". reflexivity. }
  destruct (download_videos_stderr w fuel (arg_ip a) (arg_username a)
              (arg_password a) start_time_ end_time
              (PyPath.of_string (arg_output a)) s) as [[lines Hl] Hret].
  destruct (download_videos w fuel (arg_ip a) (arg_username a)
              (arg_password a) start_time_ end_time
              (PyPath.of_string (arg_output a)) s) as [s' [[]|e|]];
    simpl in Hl, Hret.
  - left. split; [reflexivity |]. simpl. now apply (Hret tt).
  - destruct e as [msg|msg|msg|];
      try (right; left; split; [reflexivity |];
           eexists lines, _; simpl; rewrite Hl, <- app_assoc; reflexivity).
    right. right. left. split; [reflexivity |]. simpl. apply last_snoc.
  - right. right. right. reflexivity.
Qed.

(** X11. A failure inside the [try] of [download_videos] is reported
    twice.  When an exception of class [Exception] leaves
    [download_videos] and the logout returned, the standard error stream
    gets two lines for it: [Error: ...] from the handler of line 145 and
    [Fatal error: ...] from [main], with the same text. *)
Theorem failure_reported_twice
    (strptime : string -> string -> option datetime) (w : world)
    (fuel : nat) (a : args) (s : state)
    (start_time_ end_time : datetime) (e : exn) :
  parse_datetime strptime (arg_start_time a) = inr start_time_ ->
  parse_datetime strptime (arg_end_time a) = inr end_time ->
  PyDate.geb start_time_ end_time = false ->
  snd (download_videos w fuel (arg_ip a) (arg_username a) (arg_password a)
         start_time_ end_time (PyPath.of_string (arg_output a)) s)
  = Raised e ->
  is_Exception e = true ->
  last (st_trace
          (fst (download_videos w fuel (arg_ip a) (arg_username a)
                  (arg_password a) start_time_ end_time
                  (PyPath.of_string (arg_output a)) s)))
  = Some (EvOk Logout RNone) ->
  st_err (fst (main strptime w fuel a s))
  = st_err s ++ ["Error: " +:+ exn_str e; "Fatal error: " +:+ exn_str e].
Proof.
  intros Hps Hpe Hge Hr He Hlast.
  pose proof (download_videos_reported w fuel _ _ _ _ _ _ s e Hr He Hlast)
    as Herr.
  unfold main. rewrite Hps, Hpe, Hge.
  destruct (download_videos w fuel (arg_ip a) (arg_username a)
              (arg_password a) start_time_ end_time
              (PyPath.of_string (arg_output a)) s) as [s' r].
  simpl in Hr, Herr. subst r.
  destruct e; try discriminate He; simpl; rewrite Herr, <- app_assoc;
    reflexivity.
Qed.

(** The camera cannot be reached: both handlers report it. *)
Lemma failure_reported_twice_witness :
  st_err (fst (main Sample.strptime Sample.camera_unreachable 5
                 (Sample.cli "2024-01-01 12:00:00" "2024-01-02 08:00")
                 (boot Sample.empty_disk)))
  = ["Error: connection refused"; "Fatal error: connection refused"].
Proof.
  apply (failure_reported_twice Sample.strptime Sample.camera_unreachable 5
           (Sample.cli "2024-01-01 12:00:00" "2024-01-02 08:00")
           (boot Sample.empty_disk)
           (Sample.jan 1 12 0 0) (Sample.jan 2 8 0 0)
           (ReolinkError "connection refused"));
    vm_compute; reflexivity.
Defined.


(** * Runs end when streams end *)

Lemma finishes_ret {A} (a : A) : finishes (ret a).
Proof. intros s. discriminate. Qed.

Lemma finishes_print msg : finishes (print msg).
Proof. intros s. discriminate. Qed.

Lemma finishes_lift {A} (r : exn + A) : finishes (lift r).
Proof. destruct r; intros s; discriminate. Qed.

Lemma finishes_bind {A B} (m : M A) (k : A -> M B) :
  finishes m -> (forall a, finishes (k a)) -> finishes (bind m k).
Proof.
  intros Hm Hk s. unfold bind. specialize (Hm s).
  destruct (m s) as [s1 [a|e|]]; simpl in *;
    [apply Hk | discriminate | congruence].
Qed.

Lemma finishes_finally {A} (body : M A) (cleanup : M unit) :
  finishes body -> finishes cleanup -> finishes (try_finally body cleanup).
Proof.
  intros Hb Hc s. unfold try_finally. specialize (Hb s).
  destruct (body s) as [s1 [a|e|]]; simpl in Hb; [| | congruence];
    specialize (Hc s1); destruct (cleanup s1) as [s2 [[]| |]];
    simpl in *; congruence.
Qed.

Lemma finishes_for_each {A B} (body : B -> A -> M B) xs :
  (forall acc x, finishes (body acc x)) ->
  forall acc, finishes (for_each body xs acc).
Proof.
  intros Hb. induction xs as [|x xs IH]; intros acc; simpl.
  - apply finishes_ret.
  - apply finishes_bind; auto.
Qed.

Lemma reads_since_download_snoc h ev :
  reads_since_download (h ++ [ev])
  = count_read (reads_since_download h) ev.
Proof. unfold reads_since_download. now rewrite fold_left_app. Qed.

(** Sequencing and cleanup at one state. *)
Lemma bind_ends {A B} (m : M A) (k : A -> M B) s :
  snd (m s) <> Pending ->
  (forall a s1, m s = (s1, Returned a) -> snd (k a s1) <> Pending) ->
  snd (bind m k s) <> Pending.
Proof.
  intros Hm Hk. unfold bind.
  destruct (m s) as [s1 [a|e|]]; simpl in *;
    [now apply (Hk a s1) | discriminate | congruence].
Qed.

Lemma finally_ends {A} (body : M A) (cleanup : M unit) s :
  snd (body s) <> Pending ->
  finishes cleanup ->
  snd (try_finally body cleanup s) <> Pending.
Proof.
  intros Hb Hc. unfold try_finally.
  destruct (body s) as [s1 [a|e|]]; simpl in Hb; [| | congruence];
    specialize (Hc s1); destruct (cleanup s1) as [s2 [[]| |]];
    simpl in *; congruence.
Qed.

Lemma call_lib_returned {A} c (wrap : A -> reply) ask s s1 a :
  call_lib c wrap ask s = (s1, Returned a) ->
  st_trace s1 = st_trace s ++ [EvOk c (wrap a)].
Proof.
  unfold call_lib. destruct (ask (st_trace s)); intros H;
    [discriminate |].
  now injection H as <- <-.
Qed.

Lemma call_disk_returned w c s s1 a :
  call_disk w c s = (s1, Returned a) ->
  st_trace s1 = st_trace s ++ [EvOk c RNone].
Proof.
  unfold call_disk. destruct (disk_fault w (st_trace s) c);
    [discriminate |].
  destruct (Disk.effect c (st_fs s)); intros H; [discriminate |].
  now injection H as <- _.
Qed.

Section Finish.

Variables (w : world) (n : nat).

Hypothesis streams_end : streams_end_within w n.

Lemma finishes_call_lib {A} c (wrap : A -> reply) ask :
  finishes (call_lib c wrap ask).
Proof.
  intros s. unfold call_lib. destruct (ask (st_trace s)); discriminate.
Qed.

Lemma finishes_call_disk c : finishes (call_disk w c).
Proof.
  intros s. unfold call_disk.
  destruct (disk_fault w (st_trace s) c); [discriminate |].
  destruct (Disk.effect c (st_fs s)); discriminate.
Qed.

(** The copy loop ends when it has fuel for the reads the stream has
    left. *)
Lemma copy_stream_ends p : forall fuel s,
  (n < fuel + reads_since_download (st_trace s))%nat ->
  (0 < fuel)%nat ->
  snd (copy_stream w fuel p s) <> Pending.
Proof.
  induction fuel as [|fuel IH]; intros s Hn Hf; [lia |].
  simpl. unfold bind, stream_read, call_lib.
  destruct (cam_stream_read w (st_trace s) 8192) as [e|[|c cs]] eqn:Hread;
    [discriminate | discriminate |].
  assert (Hk : (reads_since_download (st_trace s) < n)%nat).
  { destruct (Nat.lt_ge_cases (reads_since_download (st_trace s)) n)
      as [Hlt | Hge]; [exact Hlt |].
    now destruct (streams_end _ c cs Hge). }
  unfold call_disk.
  cbn [log st_trace st_fs].
  destruct (disk_fault w _ _); [discriminate |].
  destruct (Disk.effect _ _); [discriminate |].
  apply IH.
  - cbn [log set_fs st_trace]. rewrite !reads_since_download_snoc.
    simpl. lia.
  - lia.
Qed.

Variables (fuel : nat) (ip username password : string)
          (start_time_ end_time : datetime) (output_dir : path).

Hypothesis enough : (n < fuel)%nat.

Lemma download_one_finishes channel total idx f :
  finishes (download_one w fuel output_dir channel total idx f).
Proof.
  intros s. unfold download_one.
  apply bind_ends; [apply finishes_print | intros [] s1 H1].
  apply bind_ends; [apply finishes_call_lib | intros [] s2 H2].
  apply bind_ends; [| intros; apply finishes_ret].
  apply finally_ends; [| apply finishes_call_lib].
  apply bind_ends; [| intros; apply finishes_print].
  unfold with_open_wb.
  apply bind_ends; [apply finishes_call_disk | intros [] s3 H3].
  apply finally_ends; [| apply finishes_call_disk].
  apply copy_stream_ends; [| lia].
  apply call_disk_returned in H3.
  unfold download_vod in H2. apply call_lib_returned in H2.
  rewrite H3, H2, !reads_since_download_snoc. simpl. lia.
Qed.

Lemma check_day_finishes channel year month acc day :
  finishes (check_day w start_time_ end_time channel year month acc day).
Proof.
  unfold check_day.
  apply finishes_bind; [apply finishes_lift | intros day_start].
  apply finishes_bind; [apply finishes_lift | intros day_end].
  destruct (_ || _); [apply finishes_ret |].
  apply finishes_bind; [apply finishes_print | intros _].
  apply finishes_bind; [apply finishes_call_lib | intros r].
  destruct (snd r); [apply finishes_ret |].
  apply finishes_bind; [apply finishes_print | intros _; apply finishes_ret].
Qed.

Lemma session_finishes :
  finishes (session w fuel start_time_ end_time output_dir).
Proof.
  unfold session.
  apply finishes_bind; [apply finishes_call_lib | intros h].
  apply finishes_bind; [apply finishes_print | intros _].
  destruct (channels h) as [|channel rest]; [apply finishes_print |].
  apply finishes_bind; [apply finishes_print | intros _].
  apply finishes_bind; [apply finishes_print | intros _].
  apply finishes_bind; [apply finishes_call_lib | intros r].
  destruct (fst r) as [|st sts]; [apply finishes_print |].
  apply finishes_bind.
  { unfold collect_vod_files. apply finishes_for_each. intros acc st'.
    unfold check_status. apply finishes_for_each. intros acc' d.
    apply check_day_finishes. }
  intros all. destruct all as [|f all]; [apply finishes_print |].
  apply finishes_bind; [apply finishes_print | intros _].
  apply finishes_bind; [| intros _; apply finishes_print].
  apply finishes_for_each. intros idx f'. apply download_one_finishes.
Qed.

Lemma download_videos_finishes :
  finishes (download_videos w fuel ip username password start_time_
                            end_time output_dir).
Proof.
  unfold download_videos.
  apply finishes_bind; [apply finishes_call_disk | intros _].
  apply finishes_bind; [apply finishes_print | intros _].
  apply finishes_bind; [intros s; discriminate | intros _].
  apply finishes_finally; [| apply finishes_call_lib].
  intros s. unfold try_except_Exception.
  pose proof (session_finishes s) as Hs.
  destruct (session w fuel start_time_ end_time output_dir s)
    as [s1 [[]|e|]]; simpl in *; try congruence.
  destruct (is_Exception e); discriminate.
Qed.

End Finish.

(** X12. The one unbounded loop of the script is the copy loop, and it
    ends when the stream does.  If every stream of the camera ends within
    [n] reads (the read after them returns the empty chunk or raises),
    every run ends, by returning or by raising; and it is the same run
    whatever bound above [n] is put on the number of reads per stream. *)
Theorem finite_streams_finish (w : world) (n fuel : nat)
    (ip username password : string) (start_time_ end_time : datetime)
    (output_dir : path) (s : state) :
  streams_end_within w n ->
  (n < fuel)%nat ->
  snd (download_videos w fuel ip username password start_time_ end_time
                       output_dir s) <> Pending
  /\ download_videos w fuel ip username password start_time_ end_time
                     output_dir s
     = download_videos w (S n) ip username password start_time_ end_time
                       output_dir s.
Proof.
  intros Hend Hfuel. split.
  - now apply (download_videos_finishes w n Hend fuel).
  - replace fuel with (S n + (fuel - S n))%nat by lia.
    assert (Hfa : finishes_as
                    (download_videos w (S n) ip username password
                       start_time_ end_time output_dir)
                    (download_videos w (S n + (fuel - S n)) ip username
                       password start_time_ end_time output_dir)).
    { unfold download_videos.
      do 3 (apply finishes_as_bind; [apply finishes_as_refl | intros _]).
      apply finishes_as_finally, finishes_as_except, session_fuel. }
    apply Hfa.
    apply (download_videos_finishes w n Hend (S n)). lia.
Qed.

(** The streams of the sample camera end within two reads. *)
Lemma sample_reads h : forall k,
  Sample.reads_so_far h k = fold_left count_read h k.
Proof.
  induction h as [|ev h IH]; intros k; [reflexivity |].
  destruct ev as [[] r|[] e]; simpl; apply IH.
Qed.

Lemma sample_streams_end : streams_end_within Sample.camera 2.
Proof.
  intros h c cs Hh. simpl. rewrite sample_reads.
  fold (reads_since_download h).
  destruct (reads_since_download h) as [|[|k]]; [lia | lia | discriminate].
Qed.

Lemma finite_streams_finish_witness :
  snd (download_videos Sample.camera 5 "192.168.1.10" "admin" "secret"
         (Sample.jan 1 12 0 0) (Sample.jan 2 8 0 0) ["downloads"]
         (boot Sample.empty_disk)) <> Pending
  /\ download_videos Sample.camera 5 "192.168.1.10" "admin" "secret"
       (Sample.jan 1 12 0 0) (Sample.jan 2 8 0 0) ["downloads"]
       (boot Sample.empty_disk)
     = download_videos Sample.camera 3 "192.168.1.10" "admin" "secret"
         (Sample.jan 1 12 0 0) (Sample.jan 2 8 0 0) ["downloads"]
         (boot Sample.empty_disk).
Proof.
  apply (finite_streams_finish Sample.camera 2 5 "192.168.1.10" "admin"
           "secret" (Sample.jan 1 12 0 0) (Sample.jan 2 8 0 0)
           ["downloads"] (boot Sample.empty_disk)).
  - exact sample_streams_end.
  - lia.
Defined.


(** * The last line of a run that returns *)

Lemma bind_returned {A B} (m : M A) (k : A -> M B) s s' b :
  bind m k s = (s', Returned b) ->
  exists a s1, m s = (s1, Returned a) /\ k a s1 = (s', Returned b).
Proof.
  unfold bind. destruct (m s) as [s1 [a|e|]]; intros H;
    [eauto | discriminate | discriminate].
Qed.

Lemma finally_returned {A} (body : M A) (cleanup : M unit) s s' a :
  try_finally body cleanup s = (s', Returned a) ->
  exists s1 u, body s = (s1, Returned a) /\ cleanup s1 = (s', Returned u).
Proof.
  unfold try_finally. destruct (body s) as [s1 [x|e|]];
    [| | discriminate];
    destruct (cleanup s1) as [s2 [u| |]] eqn:Hc; intros H;
    try discriminate.
  injection H as <- <-. eauto.
Qed.

(** The handler of lines 144-146 raises again: when the [try] returns,
    its body has. *)
Lemma except_returned {A} (body : M A) s s' a :
  try_except_Exception body
    (fun e => eprint ("Error: " +:+ exn_str e) ;; raise e)%py s
  = (s', Returned a) ->
  body s = (s', Returned a).
Proof.
  unfold try_except_Exception. destruct (body s) as [s1 [x|e|]];
    intros H; try discriminate; [exact H |].
  destruct (is_Exception e); discriminate.
Qed.

Lemma print_returned msg s s' u :
  print msg s = (s', Returned u) ->
  st_trace s' = st_trace s /\ st_out s' = st_out s ++ [msg].
Proof. unfold print. intros H. injection H as <- _. auto. Qed.

Section LastLine.

Variables (w : world) (fuel : nat) (ip username password : string)
          (start_time_ end_time : datetime) (output_dir : path).

(** The body of the [try], when it returns, has ended with one of three
    lines; the last of them counts the recordings the per-day queries
    returned. *)
Lemma session_last_line s s' :
  session w fuel start_time_ end_time output_dir s = (s', Returned tt) ->
  exists older line new,
    st_out s' = older ++ [line]
    /\ st_trace s' = st_trace s ++ new
    /\ (line = no_channel_line
        \/ line = no_recording_line
        \/ (collected new <> []
            /\ line = success_line (List.length (collected new))
                                   output_dir)).
Proof.
  unfold session. intros H.
  apply bind_returned in H as (h & s1 & H1 & H).
  unfold get_host_data in H1. apply call_lib_returned in H1.
  apply bind_returned in H as ([] & s2 & H2 & H).
  apply print_returned in H2 as [T2 _].
  destruct (channels h) as [|channel rest].
  { apply print_returned in H as [T O].
    exists (st_out s2), no_channel_line, [EvOk GetHostData (RHost h)].
    repeat split; auto. congruence. }
  apply bind_returned in H as ([] & s3 & H3 & H).
  apply print_returned in H3 as [T3 _].
  apply bind_returned in H as ([] & s4 & H4 & H).
  apply print_returned in H4 as [T4 _].
  apply bind_returned in H as (r & s5 & H5 & H).
  unfold request_vod_files in H5. apply call_lib_returned in H5.
  destruct (fst r) as [|st sts] eqn:Hsts.
  { apply print_returned in H as [T O].
    exists (st_out s5), no_recording_line. eexists.
    split; [exact O |]. split; [| auto].
    rewrite T, H5, T4, T3, T2, H1, <- app_assoc. reflexivity. }
  apply bind_returned in H as (all & s6 & H6 & H).
  destruct (collect_sound w start_time_ end_time channel (st :: sts) s5)
    as (evs & rc & sc & (Hrun & Htr & _) & Hshape).
  rewrite H6 in Hrun. injection Hrun as <- <-.
  pose proof (collect_run_queries _ _ _ _ _ _ Hshape) as Hq.
  apply collect_run_collected in Hshape.
  destruct all as [|f all].
  { apply print_returned in H as [T O].
    exists (st_out s6), no_recording_line. eexists.
    split; [exact O |]. split; [| auto].
    rewrite T, Htr, H5, T4, T3, T2, H1, <- !app_assoc. reflexivity. }
  apply bind_returned in H as ([] & s7 & H7 & H).
  apply print_returned in H7 as [T7 _].
  apply bind_returned in H as (k & s8 & H8 & H).
  destruct (download_all_sound w fuel output_dir channel
              (List.length (f :: all)) (f :: all) 1 s7)
    as (evs' & rd & sd & (Hrun & Htr' & _) & Hshape').
  rewrite H8 in Hrun. injection Hrun as <- <-.
  apply download_run_transfers in Hshape'.
  apply print_returned in H as [T O].
  exists (st_out s8), (success_line (List.length (f :: all)) output_dir),
         ([EvOk GetHostData (RHost h);
           EvOk (RequestVodFiles channel start_time_ end_time true)
                (RVod (st :: sts) (snd r))] ++ evs ++ evs').
  split; [exact O |]. split.
  { rewrite T, Htr', T7, Htr, H5, T4, T3, T2, H1, <- !app_assoc.
    reflexivity. }
  right. right.
  assert (Hcol : collected
                   ([EvOk GetHostData (RHost h);
                     EvOk (RequestVodFiles channel start_time_ end_time true)
                          (RVod (st :: sts) (snd r))] ++ evs ++ evs')
                 = f :: all).
  { rewrite !collected_app.
    rewrite (collected_none evs') by now apply transfers_not_queries.
    rewrite app_nil_r, <- Hshape. reflexivity. }
  rewrite Hcol. split; [discriminate | reflexivity].
Qed.

End LastLine.

(** X13. A run that returns has ended its output with one of three
    lines: that the camera has no channel, that no recording was found,
    or that [n] videos were downloaded, where [n] is the number of
    recordings the per-day queries returned, and is not 0.  So exit
    status 0 alone does not tell whether anything was downloaded; the
    last line does. *)
Theorem last_line_of_success (w : world) (fuel : nat)
    (ip username password : string) (start_time_ end_time : datetime)
    (output_dir : path) (fs0 : filesystem) :
  videos_outcome w fuel ip username password start_time_ end_time
                 output_dir fs0 = Returned tt ->
  last (videos_out w fuel ip username password start_time_ end_time
                   output_dir fs0) = Some no_channel_line
  \/ last (videos_out w fuel ip username password start_time_ end_time
                      output_dir fs0) = Some no_recording_line
  \/ (collected (videos_log w fuel ip username password start_time_
                            end_time output_dir fs0) <> []
      /\ last (videos_out w fuel ip username password start_time_ end_time
                          output_dir fs0)
         = Some (success_line
                   (List.length
                      (collected (videos_log w fuel ip username password
                                    start_time_ end_time output_dir fs0)))
                   output_dir)).
Proof.
  unfold videos_outcome, videos_out, videos_log. intros Hr.
  destruct (download_videos w fuel ip username password start_time_
              end_time output_dir (boot fs0)) as [s' r] eqn:Hrun.
  simpl in Hr. subst r. simpl. unfold download_videos in Hrun.
  apply bind_returned in Hrun as ([] & s1 & H1 & H).
  apply call_disk_returned in H1.
  apply bind_returned in H as ([] & s2 & H2 & H).
  apply print_returned in H2 as [T2 _].
  apply bind_returned in H as ([] & s3 & H3 & H).
  unfold host_new in H3. injection H3 as <-.
  apply finally_returned in H as (s4 & u & H4 & H5).
  apply except_returned in H4.
  apply session_last_line in H4
    as (older & line & new & O4 & T4 & Hline).
  unfold logout, call_lib in H5.
  destruct (cam_logout w (st_trace s4)); [discriminate |].
  injection H5 as <-. cbn [log st_out st_trace].
  rewrite O4, last_snoc.
  assert (Hcol : collected (st_trace s4 ++ [EvOk Logout RNone])
                 = collected new).
  { rewrite T4. cbn [log st_trace]. rewrite T2, H1. simpl.
    rewrite !collected_app. simpl. now rewrite app_nil_r. }
  rewrite Hcol.
  destruct Hline as [-> | [-> | [Hne ->]]]; auto.
Qed.

(** The sample run ends by counting its two recordings. *)
Lemma last_line_of_success_witness :
  last (videos_out Sample.camera 5 "192.168.1.10" "admin" "secret"
          (Sample.jan 1 12 0 0) (Sample.jan 2 8 0 0) ["downloads"]
          Sample.empty_disk)
  = Some (success_line 2 ["downloads"]).
Proof.
  destruct (last_line_of_success Sample.camera 5 "192.168.1.10" "admin"
              "secret" (Sample.jan 1 12 0 0) (Sample.jan 2 8 0 0)
              ["downloads"] Sample.empty_disk)
    as [H | [H | [_ H]]].
  - vm_compute. reflexivity.
  - vm_compute in H. discriminate H.
  - vm_compute in H. discriminate H.
  - rewrite H. vm_compute. reflexivity.
Defined.


(** * The start time in the file name *)

Lemma length_zeros k : String.length (PyStr.zeros k) = k.
Proof. induction k; simpl; congruence. Qed.

(** [pretty_N_go] puts at most [k] digits in front for a number below
    [10 ^ k]. *)
Lemma length_pretty_N_go k : forall x s,
  (x < 10 ^ N.of_nat k)%N ->
  (String.length (pretty_N_go x s) <= String.length s + k)%nat.
Proof.
  induction k as [|k IH]; intros x s Hx.
  - assert (x = 0%N) as -> by (simpl in Hx; lia).
    rewrite pretty_N_go_0. lia.
  - destruct (N.eq_dec x 0%N) as [-> | Hne].
    { rewrite pretty_N_go_0. lia. }
    rewrite pretty_N_go_step by lia.
    etransitivity; [apply IH |]; [| simpl; lia].
    apply N.Div0.div_lt_upper_bound.
    rewrite Nat2N.inj_succ, N.pow_succ_r' in Hx. exact Hx.
Qed.

Lemma length_of_int k n :
  (0 < k)%nat -> 0 <= n < 10 ^ Z.of_nat k ->
  (String.length (PyStr.of_int n) <= k)%nat.
Proof.
  intros Hk Hn. unfold PyStr.of_int, pretty, pretty_Z.
  destruct n as [|p|p]; [simpl; lia | | lia].
  unfold pretty, pretty_positive, pretty, pretty_N.
  destruct (decide (N.pos p = 0%N)); [discriminate |].
  apply (length_pretty_N_go k (N.pos p) "").
  apply N2Z.inj_lt. rewrite N2Z.inj_pow, nat_N_Z. simpl. lia.
Qed.

Lemma length_zero_pad k n :
  (0 < k)%nat -> 0 <= n < 10 ^ Z.of_nat k ->
  String.length (PyStr.zero_pad k n) = k.
Proof.
  intros Hk Hn. unfold PyStr.zero_pad.
  fold (PyStr.of_int n).
  pose proof (length_of_int k n Hk Hn).
  rewrite length_append, length_zeros. lia.
Qed.

Lemma decimal_append acc (p q : string) :
  decimal acc (p +:+ q) = decimal (decimal acc p) q.
Proof.
  revert acc. induction p as [|c p IH]; intros acc; [reflexivity |].
  change (decimal acc (String c (p +:+ q))
          = decimal (decimal acc (String c p)) q).
  simpl. apply IH.
Qed.

Lemma decimal_zeros k : decimal 0 (PyStr.zeros k) = 0.
Proof. induction k; simpl; auto. Qed.

Lemma digit_value_char d :
  (d < 10)%N -> digit_value (pretty_N_char d) = Z.of_N d.
Proof.
  intros Hd.
  assert (d = 0 \/ d = 1 \/ d = 2 \/ d = 3 \/ d = 4 \/ d = 5 \/ d = 6
          \/ d = 7 \/ d = 8 \/ d = 9)%N
    as [-> | [-> | [-> | [-> | [-> | [-> | [-> | [-> | [-> | ->]]]]]]]]]
    by lia; reflexivity.
Qed.

(** The digits [pretty_N_go] writes spell the number. *)
Lemma decimal_pretty_N_go x : forall s,
  decimal 0 (pretty_N_go x s) = decimal (Z.of_N x) s.
Proof.
  induction (N.lt_wf_0 x) as [x _ IH]. intros s.
  destruct (N.eq_dec x 0%N) as [-> | Hx]; [reflexivity |].
  rewrite pretty_N_go_step by lia.
  rewrite IH by (apply N.div_lt; lia).
  simpl. rewrite digit_value_char by (apply N.mod_lt; lia).
  f_equal. pose proof (N.div_mod x 10 ltac:(lia)). lia.
Qed.

Lemma decimal_of_int n : 0 <= n -> decimal 0 (PyStr.of_int n) = n.
Proof.
  intros Hn. unfold PyStr.of_int, pretty, pretty_Z.
  destruct n as [|p|p]; [reflexivity | | lia].
  unfold pretty, pretty_positive, pretty, pretty_N.
  destruct (decide (N.pos p = 0%N)); [discriminate |].
  now rewrite decimal_pretty_N_go.
Qed.

Lemma decimal_zero_pad k n : 0 <= n -> decimal 0 (PyStr.zero_pad k n) = n.
Proof.
  intros Hn. unfold PyStr.zero_pad. fold (PyStr.of_int n).
  now rewrite decimal_append, decimal_zeros, decimal_of_int.
Qed.

(** A field of known width behind a prefix of known length. *)
Lemma substring_field (p x q : string) :
  substring (String.length p) (String.length x) (p +:+ x +:+ q) = x.
Proof. rewrite substring_skip. apply substring_head. Qed.

(** X14. The start time can be read back from the output file name.
    For a recording whose start time is printed in fifteen characters
    (any datetime of the years 1000 to 9999), the first fifteen
    characters of the output file name spell that start time; so two
    recordings with different start times never get the same output
    file, in whatever directory. *)
Theorem start_time_read_back (idx : Z) (f : vod_file) (t : datetime) :
  start_time f = Some t ->
  fixed_width t ->
  stamp_of (output_filename idx f) = t
  /\ forall idx' f' t' output_dir,
      start_time f' = Some t' -> fixed_width t' -> t <> t' ->
      PyPath.child output_dir (output_filename idx f)
      <> PyPath.child output_dir (output_filename idx' f').
Proof.
  assert (Hread : forall i g u,
             start_time g = Some u -> fixed_width u ->
             stamp_of (output_filename i g) = u).
  { clear. intros i g u Hu (Hy & Hm & Hd & HH & HM & HS).
    unfold output_filename, timestamp_str. rewrite Hu.
    change (PyDate.strftime "%Y%m%d_%H%M%S" u)
      with (PyStr.zero_pad 4 (dt_year u)
            +:+ PyStr.zero_pad 2 (dt_month u)
            +:+ PyStr.zero_pad 2 (dt_day u)
            +:+ "_"
            +:+ PyStr.zero_pad 2 (dt_hour u)
            +:+ PyStr.zero_pad 2 (dt_minute u)
            +:+ PyStr.zero_pad 2 (dt_second u) +:+ "").
    set (Y := PyStr.zero_pad 4 (dt_year u)).
    set (m := PyStr.zero_pad 2 (dt_month u)).
    set (d := PyStr.zero_pad 2 (dt_day u)).
    set (H := PyStr.zero_pad 2 (dt_hour u)).
    set (M := PyStr.zero_pad 2 (dt_minute u)).
    set (S := PyStr.zero_pad 2 (dt_second u)).
    set (tail := "_" +:+ clean_name i g +:+ ".mp4").
    assert (LY : String.length Y = 4%nat)
      by (apply length_zero_pad; simpl; lia).
    assert (Lm : String.length m = 2%nat)
      by (apply length_zero_pad; simpl; lia).
    assert (Ld : String.length d = 2%nat)
      by (apply length_zero_pad; simpl; lia).
    assert (LH : String.length H = 2%nat)
      by (apply length_zero_pad; simpl; lia).
    assert (LM : String.length M = 2%nat)
      by (apply length_zero_pad; simpl; lia).
    assert (LS : String.length S = 2%nat)
      by (apply length_zero_pad; simpl; lia).
    assert (E : (Y +:+ m +:+ d +:+ "_" +:+ H +:+ M +:+ S +:+ "") +:+ tail
                = Y +:+ m +:+ d +:+ "_" +:+ H +:+ M +:+ S +:+ tail).
    { now rewrite !append_assoc. }
    rewrite E. clear E. unfold stamp_of.
    assert (F1 : substring 0 4 (Y +:+ m +:+ d +:+ "_" +:+ H +:+ M +:+ S
                                  +:+ tail) = Y).
    { rewrite <- LY. apply substring_head. }
    assert (F2 : substring 4 2 (Y +:+ m +:+ d +:+ "_" +:+ H +:+ M +:+ S
                                  +:+ tail) = m).
    { rewrite <- LY, <- Lm. apply substring_field. }
    assert (F3 : substring 6 2 (Y +:+ m +:+ d +:+ "_" +:+ H +:+ M +:+ S
                                  +:+ tail) = d).
    { rewrite <- (append_assoc Y m).
      replace 6%nat with (String.length (Y +:+ m))
        by (rewrite length_append; lia).
      rewrite <- Ld at 1. apply substring_field. }
    assert (F4 : substring 9 2 (Y +:+ m +:+ d +:+ "_" +:+ H +:+ M +:+ S
                                  +:+ tail) = H).
    { rewrite <- (append_assoc d "_"), <- (append_assoc m),
        <- (append_assoc Y).
      replace 9%nat with (String.length (Y +:+ m +:+ d +:+ "_"))
        by (rewrite !length_append; simpl; lia).
      rewrite <- LH at 1. apply substring_field. }
    assert (F5 : substring 11 2 (Y +:+ m +:+ d +:+ "_" +:+ H +:+ M +:+ S
                                   +:+ tail) = M).
    { rewrite <- (append_assoc "_" H), <- (append_assoc d),
        <- (append_assoc m), <- (append_assoc Y).
      replace 11%nat with (String.length (Y +:+ m +:+ d +:+ "_" +:+ H))
        by (rewrite !length_append; simpl; lia).
      rewrite <- LM at 1. apply substring_field. }
    assert (F6 : substring 13 2 (Y +:+ m +:+ d +:+ "_" +:+ H +:+ M +:+ S
                                   +:+ tail) = S).
    { rewrite <- (append_assoc H M), <- (append_assoc "_"),
        <- (append_assoc d), <- (append_assoc m), <- (append_assoc Y).
      replace 13%nat
        with (String.length (Y +:+ m +:+ d +:+ "_" +:+ H +:+ M))
        by (rewrite !length_append; simpl; lia).
      rewrite <- LS at 1. apply substring_field. }
    rewrite F1, F2, F3, F4, F5, F6. unfold Y, m, d, H, M, S.
    rewrite !decimal_zero_pad by lia. now destruct u. }
  intros Ht Hw. split; [now apply Hread |].
  intros idx' f' t' output_dir Ht' Hw' Hne E.
  apply app_inj_tail in E as [_ E].
  apply Hne. rewrite <- (Hread idx f t Ht Hw), <- (Hread idx' f' t' Ht' Hw').
  now rewrite E.
Qed.

(** The sample recording of noon, the 1st of January 2024. *)
Lemma start_time_read_back_witness :
  stamp_of (output_filename 1 (Sample.recording (Sample.jan 1 12 0 0)))
  = Sample.jan 1 12 0 0.
Proof.
  apply (start_time_read_back 1 (Sample.recording (Sample.jan 1 12 0 0))
           (Sample.jan 1 12 0 0)).
  - reflexivity.
  - unfold fixed_width. simpl. lia.
Defined.


(** * Recordings without a start time *)

Lemma pretty_N_go_free c x : forall s,
  (forall d, Ascii.eqb (pretty_N_char d) c = false) ->
  occurs c s = false -> occurs c (pretty_N_go x s) = false.
Proof.
  induction (N.lt_wf_0 x) as [x _ IH]. intros s Hc Hs.
  destruct (N.eq_dec x 0%N) as [-> | Hx]; [exact Hs |].
  rewrite pretty_N_go_step by lia.
  apply IH; [apply N.div_lt; lia | exact Hc |].
  simpl. now rewrite Hc, Hs.
Qed.

(** [str(n)] holds digits and a sign, nothing else. *)
Lemma of_int_free c n :
  (forall d, Ascii.eqb (pretty_N_char d) c = false) ->
  Ascii.eqb "-" c = false ->
  occurs c (PyStr.of_int n) = false.
Proof.
  intros Hc Hm.
  assert (Hpos : forall p, occurs c (pretty (N.pos p)) = false).
  { intros p. unfold pretty, pretty_N.
    destruct (decide (N.pos p = 0%N)); [discriminate |].
    now apply pretty_N_go_free. }
  unfold PyStr.of_int, pretty, pretty_Z. destruct n as [|p|p].
  - change (Ascii.eqb (pretty_N_char 0) c || false = false).
    now rewrite Hc.
  - apply Hpos.
  - rewrite occurs_append.
    change (occurs c "-") with (Ascii.eqb "-" c || false).
    rewrite Hm. apply Hpos.
Qed.

(** Two strings cut at the first occurrence of [c] are cut at the same
    place. *)
Lemma append_cut c : forall a a' r r',
  occurs c a = false -> occurs c a' = false ->
  a +:+ String c r = a' +:+ String c r' -> a = a'.
Proof.
  induction a as [|x a IH]; intros [|x' a'] r r' Ha Ha' E.
  - reflexivity.
  - change (String c r = String x' (a' +:+ String c r')) in E.
    injection E as -> _. simpl in Ha'.
    now rewrite Ascii.eqb_refl in Ha'.
  - change (String x (a +:+ String c r) = String c r') in E.
    injection E as -> _. simpl in Ha.
    now rewrite Ascii.eqb_refl in Ha.
  - change (String x (a +:+ String c r) = String x' (a' +:+ String c r'))
      in E.
    injection E as -> E. simpl in Ha, Ha'.
    apply orb_false_iff in Ha as [_ Ha].
    apply orb_false_iff in Ha' as [_ Ha'].
    f_equal. eapply IH; eauto.
Qed.

(** X15. The position in the listing keeps recordings without a start
    time apart.  When the camera reports no start time, the file name
    starts with [recording_] and the position of the recording; so two
    such recordings of one run never get the same output file, whatever
    their names. *)
Theorem fallback_names_distinct (idx idx' : Z) (f f' : vod_file)
    (output_dir : path) :
  start_time f = None -> start_time f' = None -> idx <> idx' ->
  PyPath.child output_dir (output_filename idx f)
  <> PyPath.child output_dir (output_filename idx' f').
Proof.
  intros Hf Hf' Hne E. apply app_inj_tail in E as [_ E].
  unfold output_filename, timestamp_str in E. rewrite Hf, Hf' in E.
  rewrite !append_assoc in E.
  apply (String.app_inj "recording_") in E.
  apply append_cut in E.
  - apply Hne. unfold PyStr.of_int in E. now apply pretty_Z_inj in E.
  - apply of_int_free; [| reflexivity].
    intros d. unfold pretty_N_char. repeat case_match; reflexivity.
  - apply of_int_free; [| reflexivity].
    intros d. unfold pretty_N_char. repeat case_match; reflexivity.
Qed.

(** Two recordings with neither a name nor a start time, first and
    second in the listing. *)
Lemma fallback_names_distinct_witness :
  PyPath.child ["downloads"] (output_filename 1 (VodFile "" None))
  <> PyPath.child ["downloads"] (output_filename 2 (VodFile "" None)).
Proof.
  apply (fallback_names_distinct 1 2 (VodFile "" None) (VodFile "" None)
           ["downloads"]).
  - reflexivity.
  - reflexivity.
  - discriminate.
Defined.
